(** * ardu-r2r-midi-cv: calibration engine

    A shallow embedding of [src/calibration.cpp], [include/calibration.h],
    [include/utils.h] and the parts of [dac.cpp] the calibration code calls,
    followed by the properties of the specification that concern them.

    Numbers are modelled as the firmware has them:
    - [float] is IEEE 754 binary32 with round-to-nearest-even, taken from the
      Standard Library's [SpecFloat] at precision 24 and maximal exponent 128
      (on AVR both [float] and [double] are binary32);
    - [uint8_t], [uint16_t], [int16_t] and [uint64_t] are [Z] with the
      wrap-around written out ([int] and [unsigned int] are 16 bits wide on
      AVR, which matters where an [uint8_t] is promoted before subtracting);
    - [logf] and [powf] belong to the C library, not to this repository, and
      are parameters of the functions that call them. *)

From Stdlib Require Import ZArith Lia List Bool QArith Qabs Qpower.
From Stdlib Require Import SpecFloat.
Import ListNotations.

Open Scope Z_scope.

(* ================================================================= *)
(** ** Fixed-width integers *)

Definition wrap8 (x : Z) : Z := x mod 256.
Definition wrap16 (x : Z) : Z := x mod 65536.
Definition wrap64 (x : Z) : Z := x mod 18446744073709551616.

(** Reinterpretation of a 16-bit pattern as [int16_t]. *)
Definition to_int16 (x : Z) : Z :=
  let u := wrap16 x in if u <? 32768 then u else u - 65536.

Definition INT16_MAX : Z := 32767.
Definition INT16_MIN : Z := -32768.

(** Arduino's [abs] macro, [((x)>0?(x):-(x))], on a 16-bit [int]. *)
Definition abs16 (x : Z) : Z := to_int16 (if 0 <? x then x else - x).

(* ================================================================= *)
(** ** binary32 arithmetic *)

Module F32.

Definition prec : Z := 24.
Definition emax : Z := 128.

Definition float : Type := spec_float.

Definition add : float -> float -> float := SFadd prec emax.
Definition sub : float -> float -> float := SFsub prec emax.
Definition mul : float -> float -> float := SFmul prec emax.
Definition div : float -> float -> float := SFdiv prec emax.
Definition opp : float -> float := SFopp.

Definition ltb : float -> float -> bool := SFltb.
Definition leb : float -> float -> bool := SFleb.
Definition gtb (x y : float) : bool := SFltb y x.
Definition geb (x y : float) : bool := SFleb y x.

Definition is_nan (x : float) : bool :=
  match x with S754_nan => true | _ => false end.

Definition is_finite (x : float) : bool :=
  match x with S754_zero _ | S754_finite _ _ _ => true | _ => false end.

(** Conversion of an integer ([static_cast<float>(n)]). *)
Definition of_Z (n : Z) : float := binary_normalize prec emax n 0 false.

(** The value [n * 2^e], correctly rounded. *)
Definition norm (n e : Z) : float := binary_normalize prec emax n e false.

(** A decimal literal [n / d] with [n] and [d] exactly representable: the
    division is correctly rounded, so this is the literal's binary32. *)
Definition lit (n d : Z) : float := div (of_Z n) (of_Z d).

Definition zero : float := S754_zero false.
Definition one : float := of_Z 1.

(** Truncation toward zero, the value part of a float-to-integer cast.
    Infinities and NaN have no integer value; they give 0 here. *)
Definition trunc (x : float) : Z :=
  match x with
  | S754_finite s m e =>
      let a := if 0 <=? e then Zpos m * 2 ^ e else Zpos m / 2 ^ (- e) in
      if s then - a else a
  | _ => 0
  end.

(** [roundf] followed by the integer cast: nearest integer, halves away
    from zero. *)
Definition round_half_away (x : float) : Z :=
  match x with
  | S754_finite s m e =>
      let a :=
        if 0 <=? e then Zpos m * 2 ^ e
        else (2 * Zpos m + 2 ^ (- e)) / (2 * 2 ^ (- e)) in
      if s then - a else a
  | _ => 0
  end.

(** The exact rational value of a finite float (0 for the others). *)
Definition to_Q (x : float) : Q :=
  match x with
  | S754_finite s m e =>
      (inject_Z (if s then Zneg m else Zpos m) * (2 # 1) ^ e)%Q
  | _ => 0%Q
  end.

(** Structural equality test. *)
Definition eqb (x y : float) : bool :=
  match x, y with
  | S754_zero s, S754_zero s' => Bool.eqb s s'
  | S754_infinity s, S754_infinity s' => Bool.eqb s s'
  | S754_nan, S754_nan => true
  | S754_finite s m e, S754_finite s' m' e' =>
      Bool.eqb s s' && Pos.eqb m m' && Z.eqb e e'
  | _, _ => false
  end.

End F32.

Declare Scope f32_scope.
Delimit Scope f32_scope with f32.
Bind Scope f32_scope with F32.float.
Infix "+" := F32.add : f32_scope.
Infix "-" := F32.sub : f32_scope.
Infix "*" := F32.mul : f32_scope.
Infix "/" := F32.div : f32_scope.
Infix "<?" := F32.ltb : f32_scope.
Infix "<=?" := F32.leb : f32_scope.
Infix ">?" := F32.gtb : f32_scope.
Infix ">=?" := F32.geb : f32_scope.

(** Float-to-unsigned casts of the firmware.  In range they truncate; the
    callers below only ever cast values that are in range, so the wrap-around
    chosen for the others is never observed by a theorem. *)
Definition float_to_uint8 (x : F32.float) : Z := wrap8 (F32.trunc x).
Definition float_to_uint16 (x : F32.float) : Z := wrap16 (F32.trunc x).

(* ================================================================= *)
(** ** include/utils.h *)

(** [map_f]: Arduino's [map()] for float. *)
Definition map_f (x in_min in_max out_min out_max : F32.float) : F32.float :=
  ((x - in_min) * (out_max - out_min) / (in_max - in_min) + out_min)%f32.

(** [note_to_mv]: MIDI note in cents to millivolts on the 1 V/octave scale. *)
Definition note_to_mv (cents : Z) : F32.float :=
  if cents <=? 1200 then F32.zero
  else
    let octave := wrap8 (cents / 1200) in
    let note := (F32.of_Z (cents mod 1200) / F32.of_Z 1200)%f32 in
    (F32.of_Z 1000 * (F32.of_Z (wrap16 (octave - 1)) + note))%f32.

Section Libm.

(** The C library's [logf] and [powf]. *)
Variable logf : F32.float -> F32.float.
Variable powf : F32.float -> F32.float -> F32.float.

(** [note_to_hz]: 12-TET, 440 Hz at 6900 cents. *)
Definition note_to_hz (cents : Z) : F32.float :=
  (F32.of_Z 440 *
   powf (F32.of_Z 2) (F32.of_Z (to_int16 cents - 6900) / F32.of_Z 1200))%f32.

(** The float computed by [hz_to_cents_deviation] before it is clamped. *)
Definition deviation_cents (target measured : F32.float) : F32.float :=
  (F32.of_Z 1200 * (logf (measured / target) / logf (F32.of_Z 2)))%f32.

(** [hz_to_cents_deviation]: deviation in cents, saturating. *)
Definition hz_to_cents_deviation (target measured : F32.float) : Z :=
  if (target <=? F32.zero)%f32 then INT16_MAX
  else if (measured <=? F32.zero)%f32 then INT16_MIN
  else
    let cents := deviation_cents target measured in
    if (cents >=? F32.of_Z INT16_MAX)%f32 then INT16_MAX
    else if (cents <=? F32.of_Z INT16_MIN)%f32 then INT16_MIN
    else to_int16 (F32.round_half_away cents).

(** [hz_to_note]: MIDI note in cents of a frequency (not clamped). *)
Definition hz_to_note (freq : F32.float) : Z :=
  if (freq <=? F32.zero)%f32 then 0
  else
    wrap16 (F32.round_half_away
              (F32.of_Z 6900 +
               F32.of_Z 1200 * (logf (freq / F32.of_Z 440) / logf (F32.of_Z 2)))%f32).

End Libm.


(* ================================================================= *)
(** ** include/calibration.h and include/dac.h: constants and data *)

Definition INTERNAL_VREF_MV : F32.float := F32.of_Z 1100.
Definition CALIB_VCO_FREQ_FILTER_K : F32.float := F32.lit 994 1000.
Definition CALIB_DAC_TARGET_GAIN_1 : F32.float := F32.of_Z 3000.
Definition CALIB_DAC_TARGET_GAIN_2 : F32.float := F32.of_Z 3000.
Definition CALIB_VCO_START_DEV_CENTS : Z := 10.
Definition BTN_DEBOUNCE : Z := 240.
Definition BTN_LONG_PRESS : Z := 1000.
Definition CALIB_VCO_START_DELAY_INIT : Z := 5000.
Definition CALIB_VCO_START_DELAY_LINEARITY : Z := 2000.
Definition CALIB_VCO_DELAY_BETWEEN_MV : Z := 10.
Definition CALIB_VCO_MV_MIN : F32.float := F32.of_Z 10.
Definition CALIB_VCO_MAX_SCALE : F32.float := F32.lit 95 100.
Definition VCO_LAST_CENTS_STAB : Z := 5.
Definition GAIN_1_BASE : F32.float := F32.lit 1824 1000.
Definition GAIN_2_BASE : F32.float := F32.lit 1824 1000.

(** Number of entries of [calibMatrix::matrix] ([128 - 12]). *)
Definition MATRIX_SIZE : Z := 128 - 12.

(** [struct calibMatrix]: [matrix[0]] is note 12, [matrix[115]] note 127. *)
Record calibMatrix : Type := mkMatrix {
  note_min : Z;
  note_max : Z;
  matrix : list Z
}.

Module CalibStage.
Inductive t : Type :=
| NONE | PREP_GAIN_1 | GAIN_1 | PREP_GAIN_2 | GAIN_2 | PREP_TUNER | TUNER
| PREP_VCO_1 | VCO_1 | PREP_VCO_2 | VCO_2 | PREP_RESET_VCO_1
| PREP_RESET_VCO_2 | DONE | ERROR.

(** The enumerator's [uint8_t] value. *)
Definition tag (s : t) : Z :=
  match s with
  | NONE => 0 | PREP_GAIN_1 => 1 | GAIN_1 => 2 | PREP_GAIN_2 => 3
  | GAIN_2 => 4 | PREP_TUNER => 5 | TUNER => 6 | PREP_VCO_1 => 7
  | VCO_1 => 8 | PREP_VCO_2 => 9 | VCO_2 => 10 | PREP_RESET_VCO_1 => 11
  | PREP_RESET_VCO_2 => 12 | DONE => 13 | ERROR => 14
  end.

Definition eqb (a b : t) : bool := tag a =? tag b.
End CalibStage.

Module CalibVcoStage.
Inductive t : Type := NONE | TUNER | LOWER | LINEARITY.

Definition tag (s : t) : Z :=
  match s with NONE => 0 | TUNER => 1 | LOWER => 2 | LINEARITY => 3 end.

Definition eqb (a b : t) : bool := tag a =? tag b.
End CalibVcoStage.

(** The fields of the [DAC] object the calibration code reads or writes. *)
Record DAC : Type := mkDAC {
  dac_1_target : F32.float;
  dac_2_target : F32.float;
  vcc : F32.float
}.

(** The EEPROM contents: two gain selector bytes and the two tables. *)
Record EEPROM : Type := mkEEPROM {
  eeprom_gain_1 : Z;
  eeprom_gain_2 : Z;
  eeprom_matrix_1 : calibMatrix;
  eeprom_matrix_2 : calibMatrix
}.

(** The [Calibration] object together with the two globals it drives. *)
Record state : Type := mkState {
  active : bool;
  stage : CalibStage.t;
  stage_vco : CalibVcoStage.t;
  gain_1_offset : F32.float;
  gain_2_offset : F32.float;
  tuner_deviation_cents : Z;
  vco_calib_progress : F32.float;
  stage_last : CalibStage.t;
  btn_timer : Z;
  btn_handled : bool;
  time_last : Z;
  frequency_raw : F32.float;
  frequency : F32.float;
  target_frequency : F32.float;
  calib_matrix_1 : calibMatrix;
  calib_matrix_2 : calibMatrix;
  vco_calib_timer : Z;
  mv_current : Z;
  vco_cents_last : Z;
  vco_cents_buffer : list Z;
  vco_note_closest_mv : Z;
  vco_cents_buffer_counter : Z;
  address_last : Z;
  dac : DAC;
  eeprom : EEPROM
}.

Definition set_active (v : bool) (s : state) : state :=
  mkState v (stage s) (stage_vco s) (gain_1_offset s) (gain_2_offset s)
    (tuner_deviation_cents s) (vco_calib_progress s) (stage_last s)
    (btn_timer s) (btn_handled s) (time_last s) (frequency_raw s)
    (frequency s) (target_frequency s) (calib_matrix_1 s) (calib_matrix_2 s)
    (vco_calib_timer s) (mv_current s) (vco_cents_last s)
    (vco_cents_buffer s) (vco_note_closest_mv s)
    (vco_cents_buffer_counter s) (address_last s) (dac s) (eeprom s).

Definition set_stage (v : CalibStage.t) (s : state) : state :=
  mkState (active s) v (stage_vco s) (gain_1_offset s) (gain_2_offset s)
    (tuner_deviation_cents s) (vco_calib_progress s) (stage_last s)
    (btn_timer s) (btn_handled s) (time_last s) (frequency_raw s)
    (frequency s) (target_frequency s) (calib_matrix_1 s) (calib_matrix_2 s)
    (vco_calib_timer s) (mv_current s) (vco_cents_last s)
    (vco_cents_buffer s) (vco_note_closest_mv s)
    (vco_cents_buffer_counter s) (address_last s) (dac s) (eeprom s).

Definition set_stage_vco (v : CalibVcoStage.t) (s : state) : state :=
  mkState (active s) (stage s) v (gain_1_offset s) (gain_2_offset s)
    (tuner_deviation_cents s) (vco_calib_progress s) (stage_last s)
    (btn_timer s) (btn_handled s) (time_last s) (frequency_raw s)
    (frequency s) (target_frequency s) (calib_matrix_1 s) (calib_matrix_2 s)
    (vco_calib_timer s) (mv_current s) (vco_cents_last s)
    (vco_cents_buffer s) (vco_note_closest_mv s)
    (vco_cents_buffer_counter s) (address_last s) (dac s) (eeprom s).

Definition set_gain_1_offset (v : F32.float) (s : state) : state :=
  mkState (active s) (stage s) (stage_vco s) v (gain_2_offset s)
    (tuner_deviation_cents s) (vco_calib_progress s) (stage_last s)
    (btn_timer s) (btn_handled s) (time_last s) (frequency_raw s)
    (frequency s) (target_frequency s) (calib_matrix_1 s) (calib_matrix_2 s)
    (vco_calib_timer s) (mv_current s) (vco_cents_last s)
    (vco_cents_buffer s) (vco_note_closest_mv s)
    (vco_cents_buffer_counter s) (address_last s) (dac s) (eeprom s).

Definition set_gain_2_offset (v : F32.float) (s : state) : state :=
  mkState (active s) (stage s) (stage_vco s) (gain_1_offset s) v
    (tuner_deviation_cents s) (vco_calib_progress s) (stage_last s)
    (btn_timer s) (btn_handled s) (time_last s) (frequency_raw s)
    (frequency s) (target_frequency s) (calib_matrix_1 s) (calib_matrix_2 s)
    (vco_calib_timer s) (mv_current s) (vco_cents_last s)
    (vco_cents_buffer s) (vco_note_closest_mv s)
    (vco_cents_buffer_counter s) (address_last s) (dac s) (eeprom s).

Definition set_tuner_deviation_cents (v : Z) (s : state) : state :=
  mkState (active s) (stage s) (stage_vco s) (gain_1_offset s)
    (gain_2_offset s) v (vco_calib_progress s) (stage_last s) (btn_timer s)
    (btn_handled s) (time_last s) (frequency_raw s) (frequency s)
    (target_frequency s) (calib_matrix_1 s) (calib_matrix_2 s)
    (vco_calib_timer s) (mv_current s) (vco_cents_last s)
    (vco_cents_buffer s) (vco_note_closest_mv s)
    (vco_cents_buffer_counter s) (address_last s) (dac s) (eeprom s).

Definition set_vco_calib_progress (v : F32.float) (s : state) : state :=
  mkState (active s) (stage s) (stage_vco s) (gain_1_offset s)
    (gain_2_offset s) (tuner_deviation_cents s) v (stage_last s)
    (btn_timer s) (btn_handled s) (time_last s) (frequency_raw s)
    (frequency s) (target_frequency s) (calib_matrix_1 s) (calib_matrix_2 s)
    (vco_calib_timer s) (mv_current s) (vco_cents_last s)
    (vco_cents_buffer s) (vco_note_closest_mv s)
    (vco_cents_buffer_counter s) (address_last s) (dac s) (eeprom s).

Definition set_stage_last (v : CalibStage.t) (s : state) : state :=
  mkState (active s) (stage s) (stage_vco s) (gain_1_offset s)
    (gain_2_offset s) (tuner_deviation_cents s) (vco_calib_progress s) v
    (btn_timer s) (btn_handled s) (time_last s) (frequency_raw s)
    (frequency s) (target_frequency s) (calib_matrix_1 s) (calib_matrix_2 s)
    (vco_calib_timer s) (mv_current s) (vco_cents_last s)
    (vco_cents_buffer s) (vco_note_closest_mv s)
    (vco_cents_buffer_counter s) (address_last s) (dac s) (eeprom s).

Definition set_btn_timer (v : Z) (s : state) : state :=
  mkState (active s) (stage s) (stage_vco s) (gain_1_offset s)
    (gain_2_offset s) (tuner_deviation_cents s) (vco_calib_progress s)
    (stage_last s) v (btn_handled s) (time_last s) (frequency_raw s)
    (frequency s) (target_frequency s) (calib_matrix_1 s) (calib_matrix_2 s)
    (vco_calib_timer s) (mv_current s) (vco_cents_last s)
    (vco_cents_buffer s) (vco_note_closest_mv s)
    (vco_cents_buffer_counter s) (address_last s) (dac s) (eeprom s).

Definition set_btn_handled (v : bool) (s : state) : state :=
  mkState (active s) (stage s) (stage_vco s) (gain_1_offset s)
    (gain_2_offset s) (tuner_deviation_cents s) (vco_calib_progress s)
    (stage_last s) (btn_timer s) v (time_last s) (frequency_raw s)
    (frequency s) (target_frequency s) (calib_matrix_1 s) (calib_matrix_2 s)
    (vco_calib_timer s) (mv_current s) (vco_cents_last s)
    (vco_cents_buffer s) (vco_note_closest_mv s)
    (vco_cents_buffer_counter s) (address_last s) (dac s) (eeprom s).

Definition set_time_last (v : Z) (s : state) : state :=
  mkState (active s) (stage s) (stage_vco s) (gain_1_offset s)
    (gain_2_offset s) (tuner_deviation_cents s) (vco_calib_progress s)
    (stage_last s) (btn_timer s) (btn_handled s) v (frequency_raw s)
    (frequency s) (target_frequency s) (calib_matrix_1 s) (calib_matrix_2 s)
    (vco_calib_timer s) (mv_current s) (vco_cents_last s)
    (vco_cents_buffer s) (vco_note_closest_mv s)
    (vco_cents_buffer_counter s) (address_last s) (dac s) (eeprom s).

Definition set_frequency_raw (v : F32.float) (s : state) : state :=
  mkState (active s) (stage s) (stage_vco s) (gain_1_offset s)
    (gain_2_offset s) (tuner_deviation_cents s) (vco_calib_progress s)
    (stage_last s) (btn_timer s) (btn_handled s) (time_last s) v
    (frequency s) (target_frequency s) (calib_matrix_1 s) (calib_matrix_2 s)
    (vco_calib_timer s) (mv_current s) (vco_cents_last s)
    (vco_cents_buffer s) (vco_note_closest_mv s)
    (vco_cents_buffer_counter s) (address_last s) (dac s) (eeprom s).

Definition set_frequency (v : F32.float) (s : state) : state :=
  mkState (active s) (stage s) (stage_vco s) (gain_1_offset s)
    (gain_2_offset s) (tuner_deviation_cents s) (vco_calib_progress s)
    (stage_last s) (btn_timer s) (btn_handled s) (time_last s)
    (frequency_raw s) v (target_frequency s) (calib_matrix_1 s)
    (calib_matrix_2 s) (vco_calib_timer s) (mv_current s) (vco_cents_last s)
    (vco_cents_buffer s) (vco_note_closest_mv s)
    (vco_cents_buffer_counter s) (address_last s) (dac s) (eeprom s).

Definition set_target_frequency (v : F32.float) (s : state) : state :=
  mkState (active s) (stage s) (stage_vco s) (gain_1_offset s)
    (gain_2_offset s) (tuner_deviation_cents s) (vco_calib_progress s)
    (stage_last s) (btn_timer s) (btn_handled s) (time_last s)
    (frequency_raw s) (frequency s) v (calib_matrix_1 s) (calib_matrix_2 s)
    (vco_calib_timer s) (mv_current s) (vco_cents_last s)
    (vco_cents_buffer s) (vco_note_closest_mv s)
    (vco_cents_buffer_counter s) (address_last s) (dac s) (eeprom s).

Definition set_calib_matrix_1 (v : calibMatrix) (s : state) : state :=
  mkState (active s) (stage s) (stage_vco s) (gain_1_offset s)
    (gain_2_offset s) (tuner_deviation_cents s) (vco_calib_progress s)
    (stage_last s) (btn_timer s) (btn_handled s) (time_last s)
    (frequency_raw s) (frequency s) (target_frequency s) v
    (calib_matrix_2 s) (vco_calib_timer s) (mv_current s) (vco_cents_last s)
    (vco_cents_buffer s) (vco_note_closest_mv s)
    (vco_cents_buffer_counter s) (address_last s) (dac s) (eeprom s).

Definition set_calib_matrix_2 (v : calibMatrix) (s : state) : state :=
  mkState (active s) (stage s) (stage_vco s) (gain_1_offset s)
    (gain_2_offset s) (tuner_deviation_cents s) (vco_calib_progress s)
    (stage_last s) (btn_timer s) (btn_handled s) (time_last s)
    (frequency_raw s) (frequency s) (target_frequency s) (calib_matrix_1 s)
    v (vco_calib_timer s) (mv_current s) (vco_cents_last s)
    (vco_cents_buffer s) (vco_note_closest_mv s)
    (vco_cents_buffer_counter s) (address_last s) (dac s) (eeprom s).

Definition set_vco_calib_timer (v : Z) (s : state) : state :=
  mkState (active s) (stage s) (stage_vco s) (gain_1_offset s)
    (gain_2_offset s) (tuner_deviation_cents s) (vco_calib_progress s)
    (stage_last s) (btn_timer s) (btn_handled s) (time_last s)
    (frequency_raw s) (frequency s) (target_frequency s) (calib_matrix_1 s)
    (calib_matrix_2 s) v (mv_current s) (vco_cents_last s)
    (vco_cents_buffer s) (vco_note_closest_mv s)
    (vco_cents_buffer_counter s) (address_last s) (dac s) (eeprom s).

Definition set_mv_current (v : Z) (s : state) : state :=
  mkState (active s) (stage s) (stage_vco s) (gain_1_offset s)
    (gain_2_offset s) (tuner_deviation_cents s) (vco_calib_progress s)
    (stage_last s) (btn_timer s) (btn_handled s) (time_last s)
    (frequency_raw s) (frequency s) (target_frequency s) (calib_matrix_1 s)
    (calib_matrix_2 s) (vco_calib_timer s) v (vco_cents_last s)
    (vco_cents_buffer s) (vco_note_closest_mv s)
    (vco_cents_buffer_counter s) (address_last s) (dac s) (eeprom s).

Definition set_vco_cents_last (v : Z) (s : state) : state :=
  mkState (active s) (stage s) (stage_vco s) (gain_1_offset s)
    (gain_2_offset s) (tuner_deviation_cents s) (vco_calib_progress s)
    (stage_last s) (btn_timer s) (btn_handled s) (time_last s)
    (frequency_raw s) (frequency s) (target_frequency s) (calib_matrix_1 s)
    (calib_matrix_2 s) (vco_calib_timer s) (mv_current s) v
    (vco_cents_buffer s) (vco_note_closest_mv s)
    (vco_cents_buffer_counter s) (address_last s) (dac s) (eeprom s).

Definition set_vco_cents_buffer (v : list Z) (s : state) : state :=
  mkState (active s) (stage s) (stage_vco s) (gain_1_offset s)
    (gain_2_offset s) (tuner_deviation_cents s) (vco_calib_progress s)
    (stage_last s) (btn_timer s) (btn_handled s) (time_last s)
    (frequency_raw s) (frequency s) (target_frequency s) (calib_matrix_1 s)
    (calib_matrix_2 s) (vco_calib_timer s) (mv_current s) (vco_cents_last s)
    v (vco_note_closest_mv s) (vco_cents_buffer_counter s) (address_last s)
    (dac s) (eeprom s).

Definition set_vco_note_closest_mv (v : Z) (s : state) : state :=
  mkState (active s) (stage s) (stage_vco s) (gain_1_offset s)
    (gain_2_offset s) (tuner_deviation_cents s) (vco_calib_progress s)
    (stage_last s) (btn_timer s) (btn_handled s) (time_last s)
    (frequency_raw s) (frequency s) (target_frequency s) (calib_matrix_1 s)
    (calib_matrix_2 s) (vco_calib_timer s) (mv_current s) (vco_cents_last s)
    (vco_cents_buffer s) v (vco_cents_buffer_counter s) (address_last s)
    (dac s) (eeprom s).

Definition set_vco_cents_buffer_counter (v : Z) (s : state) : state :=
  mkState (active s) (stage s) (stage_vco s) (gain_1_offset s)
    (gain_2_offset s) (tuner_deviation_cents s) (vco_calib_progress s)
    (stage_last s) (btn_timer s) (btn_handled s) (time_last s)
    (frequency_raw s) (frequency s) (target_frequency s) (calib_matrix_1 s)
    (calib_matrix_2 s) (vco_calib_timer s) (mv_current s) (vco_cents_last s)
    (vco_cents_buffer s) (vco_note_closest_mv s) v (address_last s) (dac s)
    (eeprom s).

Definition set_address_last (v : Z) (s : state) : state :=
  mkState (active s) (stage s) (stage_vco s) (gain_1_offset s)
    (gain_2_offset s) (tuner_deviation_cents s) (vco_calib_progress s)
    (stage_last s) (btn_timer s) (btn_handled s) (time_last s)
    (frequency_raw s) (frequency s) (target_frequency s) (calib_matrix_1 s)
    (calib_matrix_2 s) (vco_calib_timer s) (mv_current s) (vco_cents_last s)
    (vco_cents_buffer s) (vco_note_closest_mv s)
    (vco_cents_buffer_counter s) v (dac s) (eeprom s).

Definition set_dac (v : DAC) (s : state) : state :=
  mkState (active s) (stage s) (stage_vco s) (gain_1_offset s)
    (gain_2_offset s) (tuner_deviation_cents s) (vco_calib_progress s)
    (stage_last s) (btn_timer s) (btn_handled s) (time_last s)
    (frequency_raw s) (frequency s) (target_frequency s) (calib_matrix_1 s)
    (calib_matrix_2 s) (vco_calib_timer s) (mv_current s) (vco_cents_last s)
    (vco_cents_buffer s) (vco_note_closest_mv s)
    (vco_cents_buffer_counter s) (address_last s) v (eeprom s).

Definition set_eeprom (v : EEPROM) (s : state) : state :=
  mkState (active s) (stage s) (stage_vco s) (gain_1_offset s)
    (gain_2_offset s) (tuner_deviation_cents s) (vco_calib_progress s)
    (stage_last s) (btn_timer s) (btn_handled s) (time_last s)
    (frequency_raw s) (frequency s) (target_frequency s) (calib_matrix_1 s)
    (calib_matrix_2 s) (vco_calib_timer s) (mv_current s) (vco_cents_last s)
    (vco_cents_buffer s) (vco_note_closest_mv s)
    (vco_cents_buffer_counter s) (address_last s) (dac s) v.

(** What one call of [btn()] dispatched. *)
Inductive ButtonEvent : Type := NoPress | ShortPress | LongPress.

(** Array accesses are checked: an access outside the array is undefined
    behaviour in the firmware and is reported, not given a value. *)
Inductive result (A : Type) : Type :=
| Ok (a : A)
| OutOfBounds (index : Z).
Arguments Ok {A} a.
Arguments OutOfBounds {A} index.

Definition bind {A B : Type} (r : result A) (k : A -> result B) : result B :=
  match r with
  | Ok a => k a
  | OutOfBounds i => OutOfBounds i
  end.

Notation "x <- r ;; k" := (bind r (fun x => k))
  (at level 61, r at next level, right associativity).

(** [a[i]] for an array of [size] elements. *)
Definition array_get (size : Z) (a : list Z) (i : Z) : result Z :=
  if (0 <=? i) && (i <? size) then Ok (nth (Z.to_nat i) a 0)
  else OutOfBounds i.

Fixpoint list_set (a : list Z) (i : nat) (v : Z) : list Z :=
  match a, i with
  | [], _ => []
  | _ :: t, O => v :: t
  | h :: t, S j => h :: list_set t j v
  end.

(** [a[i] = v] for an array of [size] elements. *)
Definition array_set (size : Z) (a : list Z) (i v : Z) : result (list Z) :=
  if (0 <=? i) && (i <? size) then Ok (list_set a (Z.to_nat i) v)
  else OutOfBounds i.

(* ================================================================= *)
(** ** dac.cpp *)

(** [DAC::set]: NaN leaves a target unchanged, negatives are clamped. *)
Definition dac_set (target_1 target_2 : F32.float) (d : DAC) : DAC :=
  let t1 := if F32.is_nan target_1 then dac_1_target d
            else if (target_1 >=? F32.zero)%f32 then target_1 else F32.zero in
  let t2 := if F32.is_nan target_2 then dac_2_target d
            else if (target_2 >=? F32.zero)%f32 then target_2 else F32.zero in
  mkDAC t1 t2 (vcc d).

(** The supply measurement of [DAC::calculate_compensation]. *)
Definition calculate_compensation (vcc_raw : Z) (d : DAC) : DAC :=
  mkDAC (dac_1_target d) (dac_2_target d)
        (INTERNAL_VREF_MV * F32.of_Z 1023 / F32.of_Z vcc_raw)%f32.

(* ================================================================= *)
(** ** calibration.cpp *)

Definition dac_set_s (t1 t2 : F32.float) (s : state) : state :=
  set_dac (dac_set t1 t2 (dac s)) s.

(** [DAC::get_current_maximum]. *)
Definition get_current_maximum (channel : Z) (s : state) : F32.float :=
  (vcc (dac s) *
   ((if channel =? 0 then GAIN_1_BASE else GAIN_2_BASE) +
    (if channel =? 0 then gain_1_offset s else gain_2_offset s)))%f32.

(** [set_dac_cv]. *)
Definition set_dac_cv (channel : Z) (mv : F32.float) (s : state) : state :=
  if channel =? 0 then dac_set_s mv F32.zero s else dac_set_s F32.zero mv s.

(** [dip_to_gain_offset]. *)
Definition dip_to_gain_offset (dip_switch_state : Z) : F32.float :=
  (F32.of_Z (Z.land dip_switch_state 127) /
   (if Z.land dip_switch_state 128 =? 0 then F32.of_Z (-1000)
    else F32.of_Z 1000))%f32.

(** [read_matrices] and [write_matrices]. *)
Definition read_matrices (s : state) : state :=
  set_calib_matrix_2 (eeprom_matrix_2 (eeprom s))
    (set_calib_matrix_1 (eeprom_matrix_1 (eeprom s)) s).

Definition write_matrices (s : state) : state :=
  set_eeprom (mkEEPROM (eeprom_gain_1 (eeprom s)) (eeprom_gain_2 (eeprom s))
                       (calib_matrix_1 s) (calib_matrix_2 s)) s.

Definition eeprom_write_gain (addr v : Z) (s : state) : state :=
  let e := eeprom s in
  set_eeprom
    (if addr =? 0
     then mkEEPROM v (eeprom_gain_2 e) (eeprom_matrix_1 e) (eeprom_matrix_2 e)
     else mkEEPROM (eeprom_gain_1 e) v (eeprom_matrix_1 e) (eeprom_matrix_2 e))
    s.

(** [Calibration::init_check]; [btn_pressed] is the sampled button. *)
Definition init_check (btn_pressed : bool) (s : state) : state :=
  let s := set_gain_1_offset (dip_to_gain_offset (eeprom_gain_1 (eeprom s))) s in
  let s := set_gain_2_offset (dip_to_gain_offset (eeprom_gain_2 (eeprom s))) s in
  let s := read_matrices s in
  let s := set_active btn_pressed s in
  if negb (active s) then s
  else
    set_stage CalibStage.PREP_GAIN_1 (set_btn_timer 1 (set_btn_handled true s)).

(** The table a channel argument selects ([channel ? &m2 : &m1]). *)
Definition channel_matrix (channel : Z) (s : state) : calibMatrix :=
  if channel =? 0 then calib_matrix_1 s else calib_matrix_2 s.

(** The condition under which [note_to_mv_cal] ignores the table. *)
Definition no_calibration (m : calibMatrix) (st : CalibStage.t) : bool :=
  (127 <? note_min m) || (127 <? note_max m) || (note_min m =? 0) ||
  (note_max m <=? note_min m) ||
  CalibStage.eqb st CalibStage.PREP_VCO_1 ||
  CalibStage.eqb st CalibStage.PREP_VCO_2 ||
  CalibStage.eqb st CalibStage.VCO_1 || CalibStage.eqb st CalibStage.VCO_2.

(** [Calibration::note_to_mv_cal]. *)
Definition note_to_mv_cal (channel cents : Z) (s : state) : result F32.float :=
  if (cents <? 1200) || (12700 <? cents) then Ok F32.zero
  else
    let m := channel_matrix channel s in
    if no_calibration m (stage s) then Ok (note_to_mv cents)
    else
      let note := (F32.of_Z cents / F32.of_Z 100)%f32 in
      let '(lo, hi) :=
        if note_max m <=? float_to_uint8 note
        then (wrap8 (note_max m - 1), note_max m)
        else if float_to_uint8 note <=? note_min m
        then (note_min m, wrap8 (note_min m + 1))
        else (float_to_uint8 note, wrap8 (float_to_uint8 note + 1)) in
      out_min <- array_get MATRIX_SIZE (matrix m) (wrap16 (lo - 12)) ;;
      out_max <- array_get MATRIX_SIZE (matrix m) (wrap16 (hi - 12)) ;;
      Ok (map_f note (F32.of_Z lo) (F32.of_Z hi)
                (F32.of_Z out_min) (F32.of_Z out_max)).

(** [Calibration::btn_short_press]. *)
Definition btn_short_press (s : state) : state :=
  let s' :=
    match stage s with
    | CalibStage.PREP_GAIN_1 => set_stage CalibStage.PREP_GAIN_2 s
    | CalibStage.PREP_GAIN_2 => set_stage CalibStage.PREP_TUNER s
    | CalibStage.PREP_TUNER => set_stage CalibStage.PREP_VCO_1 s
    | CalibStage.PREP_VCO_1 => set_stage CalibStage.PREP_VCO_2 s
    | CalibStage.PREP_VCO_2 => set_stage CalibStage.PREP_RESET_VCO_1 s
    | CalibStage.PREP_RESET_VCO_1 => set_stage CalibStage.PREP_RESET_VCO_2 s
    | CalibStage.PREP_RESET_VCO_2 => set_stage CalibStage.PREP_GAIN_1 s
    | CalibStage.DONE =>
        set_stage (if CalibStage.eqb (stage_last s) CalibStage.VCO_1
                   then CalibStage.PREP_VCO_2
                   else CalibStage.PREP_RESET_VCO_1) s
    | _ => s
    end in
  dac_set_s F32.zero F32.zero s'.

(** [(first ? calib_matrix_1 : calib_matrix_2)] with both bounds set to the
    sentinel 255. *)
Definition reset_bounds (first : bool) (s : state) : state :=
  let clear (m : calibMatrix) := mkMatrix 255 255 (matrix m) in
  if first then set_calib_matrix_1 (clear (calib_matrix_1 s)) s
  else set_calib_matrix_2 (clear (calib_matrix_2 s)) s.

(** [Calibration::btn_long_press]; [dip] is [dip_switch.states]. *)
Definition btn_long_press (dip : Z) (s : state) : state :=
  match stage s with
  | CalibStage.PREP_GAIN_1 =>
      set_stage CalibStage.GAIN_1 (dac_set_s CALIB_DAC_TARGET_GAIN_1 F32.zero s)
  | CalibStage.PREP_GAIN_2 =>
      set_stage CalibStage.GAIN_2 (dac_set_s F32.zero CALIB_DAC_TARGET_GAIN_2 s)
  | CalibStage.GAIN_1 =>
      set_stage CalibStage.PREP_GAIN_2
        (dac_set_s F32.zero F32.zero (eeprom_write_gain 0 dip s))
  | CalibStage.GAIN_2 =>
      set_stage CalibStage.PREP_TUNER
        (dac_set_s F32.zero F32.zero (eeprom_write_gain 1 dip s))
  | CalibStage.PREP_TUNER =>
      set_stage CalibStage.TUNER
        (set_frequency F32.zero (set_tuner_deviation_cents 0 s))
  | CalibStage.TUNER =>
      dac_set_s F32.zero F32.zero
        (set_stage CalibStage.PREP_VCO_1 (set_tuner_deviation_cents 0 s))
  | CalibStage.PREP_VCO_1 | CalibStage.PREP_VCO_2 =>
      let s1 :=
        reset_bounds (CalibStage.eqb (stage s) CalibStage.PREP_VCO_1) s in
      let s2 :=
        set_stage (if CalibStage.eqb (stage s1) CalibStage.PREP_VCO_1
                   then CalibStage.VCO_1 else CalibStage.VCO_2) s1 in
      set_vco_calib_progress F32.zero
        (set_vco_calib_timer 0
           (set_frequency F32.zero (set_stage_vco CalibVcoStage.TUNER s2)))
  | CalibStage.PREP_RESET_VCO_1 | CalibStage.PREP_RESET_VCO_2 =>
      let s1 :=
        write_matrices
          (reset_bounds (CalibStage.eqb (stage s) CalibStage.PREP_VCO_1) s) in
      set_stage (if CalibStage.eqb (stage s1) CalibStage.PREP_RESET_VCO_1
                 then CalibStage.PREP_RESET_VCO_2
                 else CalibStage.PREP_GAIN_1) s1
  | _ => s
  end.

(** [Calibration::btn]; [time] is [millis()], [btn_pressed] the pin.  The
    second component tells which handler the call dispatched. *)
Definition btn (time : Z) (btn_pressed : bool) (dip : Z) (s : state)
  : state * ButtonEvent :=
  let s := if time <? btn_timer s then set_btn_timer time s else s in
  let s :=
    if btn_pressed && (btn_timer s =? 0)
    then set_btn_handled false (set_btn_timer time s) else s in
  let '(s, ev) :=
    if negb btn_pressed && negb (btn_timer s =? 0) &&
       (BTN_DEBOUNCE <=? wrap64 (time - btn_timer s))
    then
      let s := set_btn_timer 0 s in
      if negb (btn_handled s)
      then (btn_short_press (set_btn_handled true s), ShortPress)
      else (s, NoPress)
    else (s, NoPress) in
  if btn_pressed && negb (btn_handled s) && negb (btn_timer s =? 0) &&
     (BTN_LONG_PRESS <=? wrap64 (time - btn_timer s))
  then (btn_long_press dip (set_btn_handled true s), LongPress)
  else (s, ev).

(** [Calibration::handle_interrupt]; [time] is [micros()]. *)
Definition handle_interrupt (time : Z) (s : state) : state :=
  if (time_last s =? 0) || (time <=? time_last s) then set_time_last time s
  else
    set_time_last time
      (set_frequency_raw
         (F32.of_Z 1000000 / F32.of_Z (wrap64 (time - time_last s)))%f32 s).

Section Engine.

Variable logf : F32.float -> F32.float.
Variable powf : F32.float -> F32.float -> F32.float.

(** [Calibration::tuner]; [dip] is [dip_switch.states]. *)
Definition tuner (dip : Z) (s : state) : result state :=
  let target_octave := Z.shiftr (Z.land dip 240) 4 in
  let target_octave := if 8 <? target_octave then 8 else target_octave in
  let target_note := Z.land dip 15 in
  let target_note := if 11 <? target_note then 11 else target_note in
  let target_cents := wrap16 ((target_octave * 12 + target_note + 12) * 100) in
  mv_1 <- note_to_mv_cal 0 target_cents s ;;
  mv_2 <- note_to_mv_cal 1 target_cents s ;;
  let s := dac_set_s mv_1 mv_2 s in
  let s := set_target_frequency (note_to_hz powf target_cents) s in
  Ok (set_tuner_deviation_cents
        (hz_to_cents_deviation logf (target_frequency s) (frequency s)) s).

(** The channel and table the sweep works on
    ([stage == CalibStage::VCO_1 ? ... : ...]). *)
Definition vco_channel (s : state) : Z :=
  if CalibStage.eqb (stage s) CalibStage.VCO_1 then 0 else 1.

Definition vco_matrix (s : state) : calibMatrix :=
  if CalibStage.eqb (stage s) CalibStage.VCO_1
  then calib_matrix_1 s else calib_matrix_2 s.

Definition set_vco_matrix (m : calibMatrix) (s : state) : state :=
  if CalibStage.eqb (stage s) CalibStage.VCO_1
  then set_calib_matrix_1 m s else set_calib_matrix_2 m s.

(** The stabilisation test of the sweep: every buffered reading is
    nonzero and within one cent of the current one. *)
Definition stabilized (vco_cents : Z) (buffer : list Z) : bool :=
  forallb
    (fun i =>
       let b := nth i buffer 0 in
       negb ((b =? 0) ||
             (1 <? wrap16 (abs16 (to_int16 (to_int16 vco_cents - to_int16 b))))))
    (seq 0 (Z.to_nat VCO_LAST_CENTS_STAB)).

(** The part of the [LINEARITY] branch of [vco()] that follows
    [vco_calib_timer = time]: range check, table write, voltage step and
    termination test. *)
Definition vco_linearity_step (vco_cents : Z) (s : state) : result state :=
  (* Check if we're in a valid range *)
  r <-
    (if (1200 <=? vco_cents) && (vco_cents <=? 12700) &&
        (1200 <=? vco_cents_last s) && (vco_cents_last s <=? 12700)
     then
       let vco_note := wrap8 (vco_cents / 100) in
       let vco_note_last := wrap8 (vco_cents_last s / 100) in
       (* New closest voltage found *)
       let s :=
         if (vco_note =? vco_note_last) &&
            (vco_cents mod 100 <? vco_cents_last s mod 100)
         then set_vco_note_closest_mv (mv_current s) s else s in
       (* New note -> save to matrix *)
       if vco_note_last <? vco_note then
         let s :=
           if 127 <? note_min (vco_matrix s)
           then set_vco_matrix
                  (mkMatrix vco_note_last (note_max (vco_matrix s))
                            (matrix (vco_matrix s))) s
           else s in
         let address := wrap8 (wrap16 (vco_note_last - 12)) in
         (* Check address before writing *)
         if negb (address_last s =? 255) &&
            ((address <? address_last s) ||
             (1 <? wrap8 (address - address_last s)))
         then Ok (set_stage CalibStage.ERROR s, true)
         else if (address_last s =? 255) || (address_last s <? address)
         then
           a <- array_set MATRIX_SIZE (matrix (vco_matrix s)) address
                          (vco_note_closest_mv s) ;;
           let s :=
             set_vco_matrix
               (mkMatrix (note_min (vco_matrix s)) (note_max (vco_matrix s)) a)
               s in
           let s := set_address_last address s in
           Ok (set_vco_note_closest_mv (mv_current s) s, false)
         else Ok (s, false)
       else Ok (s, false)
     else
       (* Out of range *)
       Ok (set_vco_note_closest_mv (mv_current s) s, false)) ;;
  let '(s, returned) := r in
  if returned then Ok s
  else
    (* Increment and set voltage *)
    let s := set_mv_current (wrap16 (mv_current s + 1)) s in
    let s := set_dac_cv (vco_channel s) (F32.of_Z (mv_current s)) s in
    (* Cents buffer *)
    let s := set_vco_cents_buffer [0; 0; 0; 0; 0] s in
    let s := set_vco_cents_buffer_counter 0 s in
    (* Calculate progress (for LED) *)
    let mv_end :=
      (get_current_maximum (vco_channel s) s * CALIB_VCO_MAX_SCALE)%f32 in
    let progress_1 := (F32.of_Z vco_cents / F32.of_Z 12700)%f32 in
    let progress_2 := (F32.of_Z (mv_current s) / mv_end)%f32 in
    let s :=
      set_vco_calib_progress
        (if (progress_1 >? progress_2)%f32 then progress_1 else progress_2) s in
    (* Calibration done *)
    s <-
      (if (F32.of_Z (mv_current s) >=? mv_end)%f32 || (12700 <? vco_cents)
       then
         let nmax := wrap8 (vco_cents_last s / 100) in
         a <- array_set MATRIX_SIZE (matrix (vco_matrix s))
                        (wrap16 (nmax - 12)) (vco_note_closest_mv s) ;;
         let s :=
           set_vco_matrix (mkMatrix (note_min (vco_matrix s)) nmax a) s in
         let s := write_matrices s in
         let s := set_vco_calib_timer 0 s in
         let s := set_stage_vco CalibVcoStage.TUNER s in
         let s := set_stage_last (stage s) s in
         let s := set_stage CalibStage.DONE s in
         Ok (dac_set_s F32.zero F32.zero s)
       else Ok s) ;;
    Ok (set_vco_cents_last vco_cents s).

(** [Calibration::vco]; [time] is [millis()]. *)
Definition vco (time : Z) (s : state) : result state :=
  match stage_vco s with
  | CalibVcoStage.TUNER =>
      let s :=
        if CALIB_VCO_START_DEV_CENTS <? abs16 (tuner_deviation_cents s)
        then set_vco_calib_timer time s else s in
      if vco_calib_timer s =? 0 then Ok (set_vco_calib_timer time s)
      else if (time <? vco_calib_timer s) ||
              (CALIB_VCO_START_DELAY_INIT <? wrap64 (time - vco_calib_timer s))
      then
        let s := set_vco_calib_timer 0 s in
        let s := set_stage_vco CalibVcoStage.LOWER s in
        let s := set_dac_cv (vco_channel s) CALIB_VCO_MV_MIN s in
        Ok (set_frequency F32.zero s)
      else Ok s
  | CalibVcoStage.LOWER =>
      if vco_calib_timer s =? 0 then Ok (set_vco_calib_timer time s)
      else if (time <? vco_calib_timer s) ||
              (CALIB_VCO_START_DELAY_LINEARITY <?
               wrap64 (time - vco_calib_timer s))
      then
        let s := set_vco_calib_timer 0 s in
        let s := set_vco_cents_buffer [0; 0; 0; 0; 0] s in
        let s := set_vco_cents_buffer_counter 0 s in
        let s := set_vco_cents_last 0 s in
        let s := set_vco_note_closest_mv (float_to_uint16 CALIB_VCO_MV_MIN) s in
        let s := set_mv_current (float_to_uint16 CALIB_VCO_MV_MIN) s in
        let s := set_stage_vco CalibVcoStage.LINEARITY s in
        Ok (set_address_last 255 s)
      else Ok s
  | CalibVcoStage.LINEARITY =>
      (* Check time *)
      if negb (vco_calib_timer s =? 0) && (vco_calib_timer s <? time) &&
         (wrap64 (time - vco_calib_timer s) <? CALIB_VCO_DELAY_BETWEEN_MV)
      then Ok s
      else
        let s :=
          if vco_calib_timer s =? 0 then set_vco_calib_timer time s else s in
        let vco_cents := hz_to_note logf (frequency s) in
        (* Wait for multiple frequency readings to be the same *)
        let stab := stabilized vco_cents (vco_cents_buffer s) in
        let s :=
          set_vco_cents_buffer_counter
            (if vco_cents_buffer_counter s <? VCO_LAST_CENTS_STAB - 1
             then wrap8 (vco_cents_buffer_counter s + 1) else 0) s in
        b <- array_set VCO_LAST_CENTS_STAB (vco_cents_buffer s)
                       (vco_cents_buffer_counter s) vco_cents ;;
        let s := set_vco_cents_buffer b s in
        if negb stab then Ok s
        else
          (* Reset timer *)
          vco_linearity_step vco_cents (set_vco_calib_timer time s)
  | CalibVcoStage.NONE => Ok s
  end.

(** The inputs one iteration of [Calibration::loop] samples. *)
Record inputs : Type := mkInputs {
  in_millis_btn : Z;   (* millis() in btn() *)
  in_btn_pressed : bool; (* the calibration button, true when pressed *)
  in_dip : Z;          (* dip_switch.states *)
  in_micros : Z;       (* micros() in loop() *)
  in_millis_vco : Z    (* millis() in vco() *)
}.

Definition in_vco_stage (s : state) : bool :=
  CalibStage.eqb (stage s) CalibStage.VCO_1 ||
  CalibStage.eqb (stage s) CalibStage.VCO_2.

(** The frequency filter of [loop()]. *)
Definition filter_frequency (s : state) : state :=
  let raw := frequency_raw s in
  if (frequency s <=? F32.one)%f32 then set_frequency raw s
  else
    set_frequency
      (frequency s * CALIB_VCO_FREQ_FILTER_K +
       raw * (F32.one - CALIB_VCO_FREQ_FILTER_K))%f32 s.

(** The test under which [loop()] declares the signal lost. *)
Definition signal_timeout (time : Z) (s : state) : bool :=
  (frequency s >? F32.zero)%f32 && (2000000 <? wrap64 (time - time_last s)).

(** The opening of [loop()]: button, gain read-out and frequency filter. *)
Definition loop_front (i : inputs) (s : state) : state :=
  (* Read button *)
  let s := fst (btn (in_millis_btn i) (in_btn_pressed i) (in_dip i) s) in
  (* Gain calibration -> read offset from DIP switch *)
  let s :=
    if CalibStage.eqb (stage s) CalibStage.GAIN_1
    then set_gain_1_offset (dip_to_gain_offset (in_dip i)) s
    else if CalibStage.eqb (stage s) CalibStage.GAIN_2
    then set_gain_2_offset (dip_to_gain_offset (in_dip i)) s
    else s in
  (* Filter VCO's frequency *)
  filter_frequency s.

(** [loop()] up to and including the signal-lost test.  The flag tells
    whether the test fired. *)
Definition loop_measure (i : inputs) (s : state) : state * bool :=
  let s := loop_front i s in
  (* Check if it still measured *)
  if signal_timeout (in_micros i) s
  then (set_frequency_raw F32.zero (set_frequency F32.zero s), true)
  else (s, false).

(** [Calibration::loop]. *)
Definition loop (i : inputs) (s : state) : result state :=
  if negb (active s) then Ok s
  else if CalibStage.eqb (stage s) CalibStage.ERROR
  then Ok (dac_set_s F32.zero F32.zero s)
  else
    let '(s, timeout) := loop_measure i s in
    if timeout && in_vco_stage s &&
       CalibVcoStage.eqb (stage_vco s) CalibVcoStage.LINEARITY
    then Ok (set_stage CalibStage.ERROR s)
    else
      (* Tuner *)
      s <-
        (if CalibStage.eqb (stage s) CalibStage.TUNER ||
            (in_vco_stage s &&
             CalibVcoStage.eqb (stage_vco s) CalibVcoStage.TUNER)
         then tuner (in_dip i) s else Ok s) ;;
      (* VCO calibration *)
      if in_vco_stage s then vco (in_millis_vco i) s else Ok s.

(** Successive iterations of [loop()]. *)
Fixpoint run_loop (ins : list inputs) (s : state) : result state :=
  match ins with
  | [] => Ok s
  | i :: rest => s' <- loop i s ;; run_loop rest s'
  end.

(** Successive calls of [vco()], one [millis()] reading and one filtered
    frequency per call. *)
Fixpoint run_vco (samples : list (Z * F32.float)) (s : state) : result state :=
  match samples with
  | [] => Ok s
  | (time, f) :: rest =>
      s' <- vco time (set_frequency f s) ;; run_vco rest s'
  end.

End Engine.

(** Successive calls of [btn()] on samples [(millis(), pressed)], with the
    handler each call dispatched. *)
Fixpoint btn_run (dip : Z) (samples : list (Z * bool)) (s : state)
  : list ButtonEvent :=
  match samples with
  | [] => []
  | (time, pressed) :: rest =>
      let '(s', ev) := btn time pressed dip s in ev :: btn_run dip rest s'
  end.

Definition ButtonEvent_eqb (a b : ButtonEvent) : bool :=
  match a, b with
  | NoPress, NoPress | ShortPress, ShortPress | LongPress, LongPress => true
  | _, _ => false
  end.

Definition count_event (e : ButtonEvent) (l : list ButtonEvent) : nat :=
  length (filter (ButtonEvent_eqb e) l).

(** The object after static initialisation, with an erased EEPROM. *)
Definition erased_matrix : calibMatrix :=
  mkMatrix 255 255 (repeat 65535 (Z.to_nat MATRIX_SIZE)).

Definition zero_matrix : calibMatrix :=
  mkMatrix 0 0 (repeat 0 (Z.to_nat MATRIX_SIZE)).

Definition boot_state : state :=
  mkState false CalibStage.NONE CalibVcoStage.NONE F32.zero F32.zero 0
          F32.zero CalibStage.NONE 0 false 0 F32.zero F32.zero F32.zero
          zero_matrix zero_matrix 0 0 0 [0; 0; 0; 0; 0] 0 0 0
          (mkDAC F32.zero F32.zero (F32.of_Z 5000))
          (mkEEPROM 255 255 erased_matrix erased_matrix).

(* ================================================================= *)
(** ** Reference models of the C library functions

    Used only to run the firmware on concrete inputs.  [logf_ref] sums the
    series [ln f = 2 atanh ((f-1)/(f+1))] in 64-bit fixed point and rounds
    the result to binary32; [powf_ref] is [exp (y ln b)] for a positive
    finite base.  *)

Module Libm.

Definition scale : Z := 2 ^ 64.

(** [ln 2 * 2^64], truncated. *)
Definition ln2_fix : Z := 12786308645202655659.

Fixpoint atanh_series (n : nat) (k : Z) (zpow z2 : Z) : Z :=
  match n with
  | O => 0
  | S n' => zpow / k + atanh_series n' (k + 2) (zpow * z2 / scale) z2
  end.

(** [ln (m / 2^d) * 2^64] for [2^d <= m < 2^(d+1)]. *)
Definition ln_mantissa_fix (m d : Z) : Z :=
  let z := (m - 2 ^ d) * scale / (m + 2 ^ d) in
  2 * atanh_series 24 1 z (z * z / scale).

Definition ln_fix (m e : Z) : Z :=
  let d := Z.log2 m in
  (d + e) * ln2_fix + ln_mantissa_fix m d.

Definition logf_ref (x : F32.float) : F32.float :=
  match x with
  | S754_nan => S754_nan
  | S754_infinity false => S754_infinity false
  | S754_infinity true => S754_nan
  | S754_zero _ => S754_infinity true
  | S754_finite true _ _ => S754_nan
  | S754_finite false m e => F32.norm (ln_fix (Zpos m) e) (-64)
  end.

Fixpoint exp_series (n : nat) (k : Z) (term r : Z) : Z :=
  match n with
  | O => 0
  | S n' => term + exp_series n' (k + 1) (term * r / scale / k) r
  end.

(** [exp (t / 2^64)] as a binary32. *)
Definition exp_fix (t : Z) : F32.float :=
  let n := t / ln2_fix in
  let r := t - n * ln2_fix in
  F32.norm (exp_series 30 1 scale r) (n - 64).

Definition powf_ref (b y : F32.float) : F32.float :=
  match b, y with
  | S754_finite false mb eb, S754_finite sy my ey =>
      let l := ln_fix (Zpos mb) eb in
      let yn := if sy then Zneg my else Zpos my in
      exp_fix (if 0 <=? ey then l * yn * 2 ^ ey else l * yn / 2 ^ (- ey))
  | S754_finite false _ _, S754_zero _ => F32.one
  | _, _ => S754_nan
  end.

End Libm.


(* ================================================================= *)
(** ** Runs of the button handler and example objects *)

(** A calibrated first channel about to be reset. *)
Definition reset_example : state :=
  set_stage CalibStage.PREP_RESET_VCO_1
    (set_calib_matrix_1 (mkMatrix 48 72 (repeat 1000 116))
       (set_calib_matrix_2 (mkMatrix 36 84 (repeat 2000 116))
          (set_active true boot_state))).

(** [btn()] on the two fields it owns. *)
Definition btn_core (time : Z) (pressed : bool) (timer : Z) (handled : bool)
  : Z * bool * ButtonEvent :=
  let timer := if time <? timer then time else timer in
  let '(timer, handled) :=
    if pressed && (timer =? 0) then (time, false) else (timer, handled) in
  let '(timer, handled, ev) :=
    if negb pressed && negb (timer =? 0) &&
       (BTN_DEBOUNCE <=? wrap64 (time - timer))
    then (0, true, if negb handled then ShortPress else NoPress)
    else (timer, handled, NoPress) in
  if pressed && negb handled && negb (timer =? 0) &&
     (BTN_LONG_PRESS <=? wrap64 (time - timer))
  then (timer, true, LongPress)
  else (timer, handled, ev).

Fixpoint core_run (samples : list (Z * bool)) (timer : Z) (handled : bool)
  : list ButtonEvent * (Z * bool) :=
  match samples with
  | [] => ([], (timer, handled))
  | (time, pressed) :: rest =>
      let '(timer', handled', ev) := btn_core time pressed timer handled in
      let '(evs, final) := core_run rest timer' handled' in
      (ev :: evs, final)
  end.

Definition press_samples (ts : list Z) : list (Z * bool) :=
  map (fun t => (t, true)) ts.

Definition release_samples (ts : list Z) : list (Z * bool) :=
  map (fun t => (t, false)) ts.

(** Sample times never run backwards. *)
Fixpoint nondecreasing (t0 : Z) (ts : list Z) : Prop :=
  match ts with
  | [] => True
  | t :: rest => t0 <= t /\ nondecreasing t rest
  end.

Definition all_no_press (evs : list ButtonEvent) : Prop :=
  Forall (fun e => e = NoPress) evs.

(** Whether some sample of the press reaches the long-press threshold,
    whether some sample after the release reaches the debounce time, and the
    number of samples of the press that come before the threshold. *)
Definition held_long (t1 : Z) (ps : list Z) : bool :=
  existsb (fun t => BTN_LONG_PRESS <=? t - t1) ps.

Definition release_seen (t1 : Z) (rs : list Z) : bool :=
  existsb (fun t => BTN_DEBOUNCE <=? t - t1) rs.

Fixpoint samples_below (t1 : Z) (ps : list Z) : nat :=
  match ps with
  | [] => O
  | t :: rest =>
      if BTN_LONG_PRESS <=? t - t1 then O else S (samples_below t1 rest)
  end.

(** A sweep in progress on channel 1, 2.5 s after the last edge. *)
Definition sweep_example : state :=
  set_time_last 1000000
    (set_frequency (F32.of_Z 440)
       (set_frequency_raw (F32.of_Z 440)
          (set_stage_vco CalibVcoStage.LINEARITY
             (set_stage CalibStage.VCO_1 (set_active true boot_state))))).

Definition late_inputs : inputs := mkInputs 3500 false 0 3500000 3500.

(** Channel 1 waiting in [LOWER] for the lowest frequency to settle, with a
    reading of 440 Hz whose last edge came at 0.5 s. *)
Definition measured_lower_example : state :=
  set_time_last 500000
    (set_frequency (F32.of_Z 440)
       (set_frequency_raw (F32.of_Z 440)
          (set_stage_vco CalibVcoStage.LOWER
             (set_stage CalibStage.VCO_1 (set_active true boot_state))))).

(** Two iterations without a new edge, at 3.0 s and 5.1 s: the second one
    ends the [LOWER] wait. *)
Definition silent_lower_inputs : list inputs :=
  [mkInputs 3000 false 0 3000000 3000; mkInputs 5100 false 0 5100000 5100].

(** Iterations without a new edge at 8 s, 60 s and 600 s. *)
Definition silent_sweep_inputs : list inputs :=
  [mkInputs 8000 false 0 8000000 8000;
   mkInputs 60000 false 0 60000000 60000;
   mkInputs 600000 false 0 600000000 600000].

(** Following the specification's words: the deviation rounded to the
    nearest integer and clamped to the [int16_t] range. *)
Definition saturate_round (x : F32.float) : Z :=
  match x with
  | S754_infinity false => INT16_MAX
  | S754_infinity true => INT16_MIN
  | _ => Z.max INT16_MIN (Z.min INT16_MAX (F32.round_half_away x))
  end.

(** The binary32 value of [ln 2]. *)
Definition ln2_f32 : F32.float := S754_finite false 11629080 (-24).

(** The gate at the head of the [LINEARITY] branch is open. *)
Definition gate_open (time : Z) (s : state) : bool :=
  negb (negb (vco_calib_timer s =? 0) && (vco_calib_timer s <? time) &&
        (wrap64 (time - vco_calib_timer s) <? CALIB_VCO_DELAY_BETWEEN_MV)).

(** The address a new note is saved at. *)
Definition note_address (vco_cents_last : Z) : Z :=
  wrap8 (wrap16 (wrap8 (vco_cents_last / 100) - 12)).

(** Channel 1 waiting in [LOWER], then a sweep whose readings are all
    13000 cents (an oscillator at 14917 Hz): the sixth reading of the sweep
    is the first one accepted. *)
Definition lower_example : state :=
  set_stage_vco CalibVcoStage.LOWER
    (set_stage CalibStage.VCO_1 (set_active true boot_state)).

Definition f_high : F32.float := F32.of_Z 14917.

Definition sweep_entry_samples : list (Z * F32.float) :=
  [(1000, f_high); (3001, f_high); (3002, f_high); (3012, f_high);
   (3013, f_high); (3014, f_high); (3015, f_high)].

Definition after_entry : state :=
  match run_vco Libm.logf_ref sweep_entry_samples lower_example with
  | Ok s => s
  | OutOfBounds _ => boot_state
  end.

(** Channel 1 at the top of its sweep: the entry of note 112 (address 100)
    is the last one written, the previous accepted reading fell back to
    11299 cents, and the next voltage step reaches the end of the range. *)
Definition top_of_sweep_example : state :=
  set_frequency (F32.of_Z 5584)
    (set_vco_cents_buffer [11299; 11299; 11299; 11299; 11299]
       (set_vco_note_closest_mv 8650
          (set_address_last 100
             (set_vco_cents_last 11299
                (set_mv_current 8663
                   (set_calib_matrix_1 (mkMatrix 20 255 (repeat 1000 116))
                      (set_stage_vco CalibVcoStage.LINEARITY
                         (set_stage CalibStage.VCO_1
                            (set_active true boot_state))))))))).

(* ================================================================= *)
(** ** The vocabulary of the table lookup *)

(** [f] holds at the [n] integers from [lo] on. *)
Fixpoint all_from (f : Z -> bool) (lo : Z) (n : nat) : bool :=
  match n with
  | O => true
  | S n' => f lo && all_from f (lo + 1) n'
  end.

(** The table entry of the whole note [n], [matrix[n - 12]]. *)
Definition entry (m : calibMatrix) (n : Z) : Z :=
  nth (Z.to_nat (n - 12)) (matrix m) 0.

(** The lower note of the pair [note_to_mv_cal] interpolates between:
    [cents / 100] clamped into [note_min, note_max - 1]. *)
Definition bracket (m : calibMatrix) (cents : Z) : Z :=
  Z.max (note_min m) (Z.min (cents / 100) (note_max m - 1)).

(** The table is the C array it models: 116 entries of 16 bits. *)
Definition matrix_wf (m : calibMatrix) : bool :=
  (Z.of_nat (length (matrix m)) =? MATRIX_SIZE) &&
  forallb (fun v => (0 <=? v) && (v <? 65536)) (matrix m).

(** The entries of the notes from [note_min] to [note_max] do not decrease. *)
Definition table_sorted (m : calibMatrix) : bool :=
  all_from (fun n => entry m n <=? entry m (n + 1))
           (note_min m) (Z.to_nat (note_max m - note_min m)).

(** The formula of the specification for an uncalibrated channel,
    [1000 * (octave - 1 + fractional_note)], in binary32. *)
Definition direct_formula (cents : Z) : F32.float :=
  (F32.of_Z 1000 *
   (F32.of_Z (cents / 1200 - 1) +
    F32.of_Z (cents mod 1200) / F32.of_Z 1200))%f32.

(** The same formula over the rationals: 1000 mV per octave above note 12. *)
Definition exact_mv (cents : Z) : Q := ((cents - 1200) * 5 # 6)%Q.

(** Example tables.  [two_point_table] holds 2500 at index 48 and 5500 at
    index 72 and nothing else; [two_note_table] holds them at the entries of
    the notes 48 and 72, indices 36 and 60. *)
Definition two_point_table : calibMatrix :=
  mkMatrix 48 72
    (list_set (list_set (repeat 0 (Z.to_nat MATRIX_SIZE)) 48 2500) 72 5500).

Definition two_note_table : calibMatrix :=
  mkMatrix 48 72
    (list_set (list_set (repeat 0 (Z.to_nat MATRIX_SIZE)) 36 2500) 60 5500).

(** A table of 83 mV per semitone between the notes 48 and 72. *)
Definition semitone_table : calibMatrix :=
  mkMatrix 48 72
    (map (fun i => Z.of_nat i * 83) (seq 0 (Z.to_nat MATRIX_SIZE))).

(** The same with the entry of note 61 lost. *)
Definition dented_table : calibMatrix :=
  mkMatrix 48 72 (list_set (matrix semitone_table) 49 0).

(** And with the entry of note 60 above both ends of the table. *)
Definition peaked_table : calibMatrix :=
  mkMatrix 48 72 (list_set (matrix semitone_table) 48 9000).

(** The object with one table loaded for both channels. *)
Definition loaded (m : calibMatrix) : state :=
  set_calib_matrix_2 m (set_calib_matrix_1 m boot_state).

(* ================================================================= *)
(** ** The integer view of binary32 rounding

    Used by the proofs only: what [F32.norm n e] computes, written with
    integer division, for results in the normal range. *)

(** [n / 2^s] rounded to nearest, ties to even. *)
Definition rne (n s : Z) : Z :=
  let q := n / 2 ^ s in
  let r := n mod 2 ^ s in
  let h := 2 ^ (s - 1) in
  if (h <? r) || ((r =? h) && Z.odd q) then q + 1 else q.

(** The 24-bit mantissa of a positive [n] and the exponent it carries. *)
Definition round_mant (n : Z) : Z * Z :=
  let d := Z.log2 n + 1 in
  if d <=? 24 then (n * 2 ^ (24 - d), d - 24)
  else
    let q := rne n (d - 24) in
    if q =? 2 ^ 24 then (2 ^ 23, d - 24 + 1) else (q, d - 24).

Definition finite_spec (s : bool) (n e : Z) : F32.float :=
  let '(m, k) := round_mant n in S754_finite s (Z.to_pos m) (e + k).

Definition norm_spec (n e : Z) : F32.float :=
  match n with
  | 0 => S754_zero false
  | Zpos p => finite_spec false (Zpos p) e
  | Zneg p => finite_spec true (Zpos p) e
  end.

(** The integer [n] rounded to 24 significant bits. *)
Definition RN (n : Z) : Z :=
  match n with
  | 0 => 0
  | Zpos p => let '(m, k) := round_mant (Zpos p) in
              if 0 <=? k then m * 2 ^ k else Zpos p
  | Zneg p => let '(m, k) := round_mant (Zpos p) in
              - (if 0 <=? k then m * 2 ^ k else Zpos p)
  end.

(** The rational [z * 2^e]. *)
Definition val (z e : Z) : Q := (inject_Z z * (2 # 1) ^ e)%Q.

(** Order of (mantissa, exponent) pairs with mantissas of equal width. *)
Definition lex_le (a b : Z * Z) : Prop :=
  snd a < snd b \/ (snd a = snd b /\ fst a <= fst b).

(** The signed mantissa of a finite float. *)
Definition sgn_mant (s : bool) (m : positive) : Z :=
  if s then Zneg m else Zpos m.

(** The value of a non-negative float in units of [2^-p], when it is a whole
    number of them. *)
Definition mant_at (p : Z) (x : F32.float) : Z :=
  match x with
  | S754_finite false m e =>
      if 0 <=? e + p then Zpos m * 2 ^ (e + p) else Zpos m / 2 ^ (- (e + p))
  | _ => 0
  end.

(** [x] is [+0] or a positive float with a full mantissa that is a whole
    number of [2^-p]. *)
Definition is_at (p : Z) (x : F32.float) : bool :=
  match x with
  | S754_zero false => true
  | S754_finite false m e =>
      (8388608 <=? Zpos m) && (Zpos m <? 16777216) &&
      ((0 <=? e + p) || (Zpos m mod 2 ^ (- (e + p)) =? 0))
  | _ => false
  end.

(** The query of [note_to_mv_cal] as a note number. *)
Definition note_of (cents : Z) : F32.float :=
  (F32.of_Z cents / F32.of_Z 100)%f32.

(** How far the query is above the whole note [k], in units of [2^-20]
    note. *)
Definition offset20 (cents k : Z) : Z :=
  mant_at 20 (note_of cents - F32.of_Z k)%f32.

(** What the proofs need of the division by 100, for one query: the note
    number truncates to [cents / 100], and the offset above that note is a
    whole number of [2^-20] notes within [4 * 2^-20] of
    [(cents mod 100) / 100]. *)
Definition note_of_ok (c : Z) : bool :=
  let k := c / 100 in
  let note := note_of c in
  let t := (note - F32.of_Z k)%f32 in
  let j := mant_at 20 t in
  (F32.trunc note =? k) && is_at 20 t &&
  (Z.abs (100 * j - c mod 100 * 2 ^ 20) <=? 400) &&
  (if c mod 100 =? 0
   then (j =? 0) &&
        F32.eqb (note - F32.of_Z (k - 1))%f32 F32.one
   else true).

(** The value [note_to_mv_cal] returns for a query inside the table, in units
    of [2^-20] mV: the offset times the step of the pair, rounded, plus the
    lower entry, to be rounded once more. *)
Definition cal_value (m : calibMatrix) (cents : Z) : Z :=
  let k := bracket m cents in
  RN (offset20 cents k * (entry m (k + 1) - entry m k)) + entry m k * 2 ^ 20.

(** What the proofs need of [note_to_mv], for one query: the result is a
    whole number of [2^-24] mV within [2^-10] mV of the exact value. *)
Definition note_to_mv_ok (c : Z) : bool :=
  let r := note_to_mv c in
  is_at 24 r &&
  (Z.abs (6 * mant_at 24 r - 5 * (c - 1200) * 2 ^ 24) <=? 6 * 2 ^ 14).


(* ================================================================= *)
(** * Properties *)

(** ** Tactics and generic facts *)

Ltac state_simpl :=
  cbn [
    active stage stage_vco gain_1_offset gain_2_offset tuner_deviation_cents
    vco_calib_progress stage_last btn_timer btn_handled time_last
    frequency_raw frequency target_frequency calib_matrix_1 calib_matrix_2
    vco_calib_timer mv_current vco_cents_last vco_cents_buffer
    vco_note_closest_mv vco_cents_buffer_counter address_last dac eeprom
    set_active set_stage set_stage_vco set_gain_1_offset set_gain_2_offset
    set_tuner_deviation_cents set_vco_calib_progress set_stage_last
    set_btn_timer set_btn_handled set_time_last set_frequency_raw
    set_frequency set_target_frequency set_calib_matrix_1 set_calib_matrix_2
    set_vco_calib_timer set_mv_current set_vco_cents_last
    set_vco_cents_buffer set_vco_note_closest_mv
    set_vco_cents_buffer_counter set_address_last set_dac set_eeprom
    note_min note_max matrix eeprom_gain_1 eeprom_gain_2 eeprom_matrix_1
    eeprom_matrix_2 dac_1_target dac_2_target vcc dac_set_s write_matrices
    eeprom_write_gain reset_bounds] in *.

Lemma CalibStage_eqb_eq (a b : CalibStage.t) :
  CalibStage.eqb a b = true <-> a = b.
Proof.
  unfold CalibStage.eqb; split.
  - destruct a, b; cbn; intro H; try reflexivity; discriminate H.
  - intros ->; apply Z.eqb_refl.
Qed.

Lemma CalibStage_eqb_neq (a b : CalibStage.t) :
  CalibStage.eqb a b = false <-> a <> b.
Proof.
  rewrite <- CalibStage_eqb_eq.
  destruct (CalibStage.eqb a b); split; congruence.
Qed.

(** ** Long press in the reset stages (C2) *)

(** C2, first channel.  The claim asks that a long press in
    [PREP_RESET_VCO_1] clear the bounds of channel 1's table and leave
    channel 2's alone.  The selector of the reset branch compares the stage
    with [PREP_VCO_1], which it never equals there, so the code clears
    channel 2's bounds and leaves channel 1's table as it was; the tables
    are persisted and the stage advances as claimed. *)
Theorem C2_reset_vco_1_clears_channel_2 (dip : Z) (s : state) :
  stage s = CalibStage.PREP_RESET_VCO_1 ->
  let s' := btn_long_press dip s in
  calib_matrix_1 s' = calib_matrix_1 s /\
  calib_matrix_2 s' = mkMatrix 255 255 (matrix (calib_matrix_2 s)) /\
  eeprom_matrix_1 (eeprom s') = calib_matrix_1 s' /\
  eeprom_matrix_2 (eeprom s') = calib_matrix_2 s' /\
  stage s' = CalibStage.PREP_RESET_VCO_2.
Proof.
  intros Hst s'; subst s'; unfold btn_long_press; rewrite Hst.
  cbn; rewrite Hst; cbn. repeat split; reflexivity.
Qed.

(** For the second channel the same selector happens to pick the right
    table. *)
Lemma reset_vco_2_clears_channel_2 (dip : Z) (s : state) :
  stage s = CalibStage.PREP_RESET_VCO_2 ->
  let s' := btn_long_press dip s in
  calib_matrix_1 s' = calib_matrix_1 s /\
  calib_matrix_2 s' = mkMatrix 255 255 (matrix (calib_matrix_2 s)) /\
  eeprom_matrix_1 (eeprom s') = calib_matrix_1 s' /\
  eeprom_matrix_2 (eeprom s') = calib_matrix_2 s' /\
  stage s' = CalibStage.PREP_GAIN_1.
Proof.
  intros Hst s'; subst s'; unfold btn_long_press; rewrite Hst.
  cbn; rewrite Hst; cbn. repeat split; reflexivity.
Qed.

Lemma C2_reset_vco_1_witness :
  stage reset_example = CalibStage.PREP_RESET_VCO_1 /\
  note_min (calib_matrix_1 (btn_long_press 0 reset_example)) = 48 /\
  note_min (calib_matrix_2 (btn_long_press 0 reset_example)) = 255.
Proof.
  split; [reflexivity|].
  destruct (C2_reset_vco_1_clears_channel_2 0 reset_example eq_refl)
    as (H1 & H2 & _).
  rewrite H1, H2. split; reflexivity.
Defined.

(** ** Button classification (C8) *)

Lemma btn_short_press_timer (s : state) :
  btn_timer (btn_short_press s) = btn_timer s.
Proof. unfold btn_short_press; destruct (stage s); reflexivity. Qed.

Lemma btn_short_press_handled (s : state) :
  btn_handled (btn_short_press s) = btn_handled s.
Proof. unfold btn_short_press; destruct (stage s); reflexivity. Qed.

Lemma btn_long_press_timer (dip : Z) (s : state) :
  btn_timer (btn_long_press dip s) = btn_timer s.
Proof.
  unfold btn_long_press; destruct (stage s); try reflexivity;
    cbn; destruct (CalibStage.eqb _ _); reflexivity.
Qed.

Lemma btn_long_press_handled (dip : Z) (s : state) :
  btn_handled (btn_long_press dip s) = btn_handled s.
Proof.
  unfold btn_long_press; destruct (stage s); try reflexivity;
    cbn; destruct (CalibStage.eqb _ _); reflexivity.
Qed.

Ltac btn_cases :=
  repeat (state_simpl;
          rewrite ?btn_short_press_timer, ?btn_short_press_handled,
            ?btn_long_press_timer, ?btn_long_press_handled;
          cbn [andb negb orb];
          match goal with
          | |- context [if ?c then _ else _] =>
              lazymatch c with
              | context [if _ then _ else _] => fail
              | _ => destruct c eqn:?
              end
          end);
  state_simpl;
  rewrite ?btn_short_press_timer, ?btn_short_press_handled,
    ?btn_long_press_timer, ?btn_long_press_handled.

Lemma btn_core_spec (time : Z) (pressed : bool) (dip : Z) (s : state) :
  let '(s', ev) := btn time pressed dip s in
  btn_core time pressed (btn_timer s) (btn_handled s)
  = (btn_timer s', btn_handled s', ev).
Proof.
  unfold btn, btn_core.
  destruct pressed, (btn_handled s) eqn:Hh; btn_cases;
    rewrite ?Hh in *; cbn [andb negb] in *;
    try reflexivity; try discriminate; congruence.
Qed.

Lemma btn_run_core (dip : Z) (samples : list (Z * bool)) (s : state) :
  btn_run dip samples s
  = fst (core_run samples (btn_timer s) (btn_handled s)).
Proof.
  revert s; induction samples as [|[time pressed] rest IH]; intro s; cbn.
  - reflexivity.
  - pose proof (btn_core_spec time pressed dip s) as H.
    destruct (btn time pressed dip s) as [s' ev]. rewrite H.
    rewrite IH. destruct (core_run rest _ _). reflexivity.
Qed.

Lemma core_run_app (l1 l2 : list (Z * bool)) (timer : Z) (handled : bool) :
  core_run (l1 ++ l2) timer handled
  = let '(e1, (t1, h1)) := core_run l1 timer handled in
    let '(e2, final) := core_run l2 t1 h1 in
    (e1 ++ e2, final).
Proof.
  revert timer handled; induction l1 as [|[time pressed] rest IH];
    intros timer handled; cbn.
  - destruct (core_run l2 timer handled); reflexivity.
  - destruct (btn_core time pressed timer handled) as [[t' h'] ev].
    rewrite IH. destruct (core_run rest t' h') as [e1 [t1 h1]].
    destruct (core_run l2 t1 h1). reflexivity.
Qed.

Lemma wrap64_small (x : Z) : 0 <= x < 2 ^ 64 -> wrap64 x = x.
Proof. intro H; unfold wrap64; apply Z.mod_small; exact H. Qed.

Lemma count_no_press (e : ButtonEvent) (evs : list ButtonEvent) :
  e <> NoPress -> all_no_press evs -> count_event e evs = 0%nat.
Proof.
  intros He H; unfold count_event; induction H as [|x l Hx _ IH]; cbn.
  - reflexivity.
  - subst x. destruct e; try congruence; exact IH.
Qed.

Lemma count_event_app (e : ButtonEvent) (l1 l2 : list ButtonEvent) :
  count_event e (l1 ++ l2) = (count_event e l1 + count_event e l2)%nat.
Proof. unfold count_event; rewrite filter_app, length_app; reflexivity. Qed.

Ltac btn_core_tac :=
  unfold btn_core, BTN_DEBOUNCE, BTN_LONG_PRESS;
  repeat (rewrite ?Z.sub_diag, ?Z.sub_0_r;
          repeat match goal with
                 | |- context [wrap64 ?x] => rewrite (wrap64_small x) by lia
                 end;
          match goal with
          | |- context [?a <? ?b] => destruct (Z.ltb_spec a b); try lia
          | |- context [?a =? ?b] => destruct (Z.eqb_spec a b); try lia
          | |- context [?a <=? ?b] => destruct (Z.leb_spec a b); try lia
          end;
          cbn [andb negb orb]);
  try reflexivity.

Lemma btn_core_press_idle (t : Z) (h : bool) :
  0 < t < 2 ^ 64 -> btn_core t true 0 h = (t, false, NoPress).
Proof. intros; btn_core_tac. Qed.

Lemma btn_core_held_handled (t1 t : Z) :
  0 < t1 <= t -> btn_core t true t1 true = (t1, true, NoPress).
Proof. intros; btn_core_tac. Qed.

Lemma btn_core_held_below (t1 t : Z) :
  0 < t1 <= t -> t < 2 ^ 64 -> t - t1 < BTN_LONG_PRESS ->
  btn_core t true t1 false = (t1, false, NoPress).
Proof. unfold BTN_LONG_PRESS; intros; btn_core_tac. Qed.

Lemma btn_core_held_long (t1 t : Z) :
  0 < t1 <= t -> t < 2 ^ 64 -> BTN_LONG_PRESS <= t - t1 ->
  btn_core t true t1 false = (t1, true, LongPress).
Proof. unfold BTN_LONG_PRESS; intros; btn_core_tac. Qed.

Lemma btn_core_release_early (t1 t : Z) (h : bool) :
  0 < t1 <= t -> t < 2 ^ 64 -> t - t1 < BTN_DEBOUNCE ->
  btn_core t false t1 h = (t1, h, NoPress).
Proof. unfold BTN_DEBOUNCE; intros; btn_core_tac. Qed.

Lemma btn_core_release (t1 t : Z) (h : bool) :
  0 < t1 <= t -> t < 2 ^ 64 -> BTN_DEBOUNCE <= t - t1 ->
  btn_core t false t1 h = (0, true, if h then NoPress else ShortPress).
Proof. unfold BTN_DEBOUNCE; intros; btn_core_tac. destruct h; reflexivity. Qed.

Lemma btn_core_idle (t : Z) (h : bool) :
  0 <= t -> btn_core t false 0 h = (0, h, NoPress).
Proof. intros; btn_core_tac. Qed.

Lemma nondecreasing_nonneg (t0 : Z) (ts : list Z) :
  0 <= t0 -> nondecreasing t0 ts -> Forall (fun t => 0 <= t) ts.
Proof.
  revert t0; induction ts as [|t rest IH]; intros t0 H0 Hnd; constructor;
    destruct Hnd as [Hle Hnd]; [lia | apply (IH t); [lia | exact Hnd]].
Qed.

Lemma nondecreasing_app (t0 : Z) (l1 l2 : list Z) :
  nondecreasing t0 (l1 ++ l2) ->
  nondecreasing t0 l1 /\ exists t', t0 <= t' /\ nondecreasing t' l2.
Proof.
  revert t0; induction l1 as [|t rest IH]; intros t0 H.
  - split; [exact I|]. exists t0; split; [lia | exact H].
  - destruct H as [Hle H]. destruct (IH t H) as (H1 & t' & Ht' & H2).
    split; [split; assumption|]. exists t'; split; [lia | exact H2].
Qed.

(** Held and already classified: nothing fires. *)
Lemma core_run_held_handled (t1 : Z) (ps : list Z) (t0 : Z) :
  0 < t1 -> t1 <= t0 -> nondecreasing t0 ps ->
  exists evs, core_run (press_samples ps) t1 true = (evs, (t1, true)) /\
              all_no_press evs.
Proof.
  intros Hpos; revert t0; induction ps as [|t rest IH]; intros t0 Ht0 Hnd.
  - exists []; split; [reflexivity | constructor].
  - destruct Hnd as [Hle Hnd].
    destruct (IH t ltac:(lia) Hnd) as (evs & Hrun & Hall).
    exists (NoPress :: evs); split; [|constructor; easy].
    cbn [press_samples map core_run]. fold (press_samples rest).
    rewrite btn_core_held_handled by lia. rewrite Hrun. reflexivity.
Qed.

Lemma count_event_cons (e x : ButtonEvent) (l : list ButtonEvent) :
  count_event e (x :: l)
  = ((if ButtonEvent_eqb e x then 1 else 0) + count_event e l)%nat.
Proof. unfold count_event; cbn; destruct (ButtonEvent_eqb e x); reflexivity. Qed.

(** Held and not yet classified: the long press fires at the first sample
    that reaches the threshold, and only there. *)
Lemma core_run_held (t1 : Z) (ps : list Z) (t0 : Z) :
  0 < t1 -> t1 <= t0 -> nondecreasing t0 ps ->
  Forall (fun t => t < 2 ^ 64) ps ->
  exists evs,
    core_run (press_samples ps) t1 false = (evs, (t1, held_long t1 ps)) /\
    count_event LongPress evs = (if held_long t1 ps then 1 else 0)%nat /\
    count_event ShortPress evs = 0%nat /\
    (held_long t1 ps = true ->
     nth (samples_below t1 ps) evs NoPress = LongPress).
Proof.
  intros Hpos; revert t0; induction ps as [|t rest IH]; intros t0 Ht0 Hnd Hb.
  - exists []; repeat split; try reflexivity. discriminate.
  - destruct Hnd as [Hle Hnd]. inversion Hb as [|? ? Htb Hb']; subst.
    cbn [press_samples map core_run held_long existsb samples_below].
    fold (press_samples rest). fold (held_long t1 rest).
    destruct (Z.leb_spec BTN_LONG_PRESS (t - t1)) as [Hlong|Hshort];
      cbn [orb].
    + rewrite btn_core_held_long by lia.
      destruct (core_run_held_handled t1 rest t Hpos ltac:(lia) Hnd)
        as (evs & Hrun & Hall).
      rewrite Hrun. exists (LongPress :: evs).
      rewrite !count_event_cons.
      rewrite (count_no_press LongPress evs) by (discriminate || assumption).
      rewrite (count_no_press ShortPress evs) by (discriminate || assumption).
      repeat split; reflexivity.
    + rewrite btn_core_held_below by lia.
      destruct (IH t ltac:(lia) Hnd Hb') as (evs & Hrun & HL & HS & Hnth).
      rewrite Hrun. exists (NoPress :: evs).
      rewrite !count_event_cons, HL, HS.
      repeat split; try reflexivity. exact Hnth.
Qed.

(** Idle and released: nothing fires. *)
Lemma core_run_idle (rs : list Z) (handled : bool) :
  Forall (fun t => 0 <= t) rs ->
  exists evs, core_run (release_samples rs) 0 handled = (evs, (0, handled)) /\
              all_no_press evs.
Proof.
  induction 1 as [|t rest Ht _ IH].
  - exists []; split; [reflexivity | constructor].
  - destruct IH as (evs & Hrun & Hall).
    exists (NoPress :: evs); split; [|constructor; easy].
    cbn [release_samples map core_run]. fold (release_samples rest).
    rewrite btn_core_idle by lia. rewrite Hrun. reflexivity.
Qed.

(** Released with the timer running: the short press fires once the
    debounce time has passed, unless the press was already classified. *)
Lemma core_run_released (t1 : Z) (h : bool) (rs : list Z) (t0 : Z) :
  0 < t1 -> t1 <= t0 -> nondecreasing t0 rs ->
  Forall (fun t => t < 2 ^ 64) rs ->
  exists evs final,
    core_run (release_samples rs) t1 h = (evs, final) /\
    count_event LongPress evs = 0%nat /\
    count_event ShortPress evs
    = (if h then 0 else if release_seen t1 rs then 1 else 0)%nat.
Proof.
  intros Hpos; revert t0; induction rs as [|t rest IH]; intros t0 Ht0 Hnd Hb.
  - exists [], (t1, h). repeat split; try reflexivity. destruct h; reflexivity.
  - destruct Hnd as [Hle Hnd]. inversion Hb as [|? ? Htb Hb']; subst.
    cbn [release_samples map core_run release_seen existsb].
    fold (release_samples rest). fold (release_seen t1 rest).
    destruct (Z.leb_spec BTN_DEBOUNCE (t - t1)) as [Hdeb|Hearly]; cbn [orb].
    + rewrite btn_core_release by lia.
      assert (Hrest : Forall (fun t => 0 <= t) rest)
        by (apply (nondecreasing_nonneg t); [lia | exact Hnd]).
      destruct (core_run_idle rest true Hrest) as (evs & Hrun & Hall).
      rewrite Hrun.
      exists ((if h then NoPress else ShortPress) :: evs), (0, true).
      rewrite !count_event_cons.
      rewrite (count_no_press LongPress evs) by (discriminate || assumption).
      rewrite (count_no_press ShortPress evs) by (discriminate || assumption).
      destruct h; repeat split; reflexivity.
    + rewrite btn_core_release_early by lia.
      destruct (IH t ltac:(lia) Hnd Hb') as (evs & final & Hrun & HL & HS).
      rewrite Hrun. exists (NoPress :: evs), final.
      rewrite !count_event_cons, HL, HS.
      repeat split; reflexivity.
Qed.

(** C8.  One physical press: the button is sampled pressed at [t1] and at
    the times [ps], then released at the times [rs], the button having been
    idle before.  If a sample of the press reaches the long-press threshold
    (1000 ms after [t1]), exactly one long press is dispatched, at the first
    such sample, and no short press; otherwise no long press is dispatched
    and exactly one short press is, as soon as a sample after the release
    reaches the debounce time (240 ms after [t1]). *)
Theorem C8_button_classification
  (dip : Z) (s : state) (t1 : Z) (ps rs : list Z) :
  btn_timer s = 0 ->
  0 < t1 < 2 ^ 64 ->
  nondecreasing t1 (ps ++ rs) ->
  Forall (fun t => t < 2 ^ 64) (ps ++ rs) ->
  let evs :=
    btn_run dip (press_samples (t1 :: ps) ++ release_samples rs) s in
  count_event LongPress evs = (if held_long t1 ps then 1 else 0)%nat /\
  count_event ShortPress evs
  = (if held_long t1 ps then 0
     else if release_seen t1 rs then 1 else 0)%nat /\
  (held_long t1 ps = true ->
   nth (S (samples_below t1 ps)) evs NoPress = LongPress).
Proof.
  intros Hidle Ht1 Hnd Hb evs; subst evs.
  rewrite btn_run_core, Hidle.
  cbn [press_samples map app core_run].
  rewrite btn_core_press_idle by lia.
  fold (press_samples ps).
  apply nondecreasing_app in Hnd. destruct Hnd as (Hps & t' & Ht' & Hrs).
  apply Forall_app in Hb. destruct Hb as [Hbp Hbr].
  rewrite core_run_app.
  destruct (core_run_held t1 ps t1 ltac:(lia) ltac:(lia) Hps Hbp)
    as (e1 & Hrun1 & HL1 & HS1 & Hnth).
  rewrite Hrun1.
  destruct (core_run_released t1 (held_long t1 ps) rs t'
              ltac:(lia) ltac:(lia) Hrs Hbr)
    as (e2 & final & Hrun2 & HL2 & HS2).
  rewrite Hrun2. cbn [fst].
  rewrite !count_event_cons, !count_event_app, HL1, HL2, HS1, HS2.
  cbn [ButtonEvent_eqb].
  repeat split.
  - destruct (held_long t1 ps); reflexivity.
  - intro Hheld. cbn [nth].
    rewrite app_nth1; [apply Hnth; exact Hheld|].
    (* the long press lies within the events of the press *)
    destruct (Nat.lt_ge_cases (samples_below t1 ps) (length e1)) as [Hlt|Hge];
      [exact Hlt|].
    specialize (Hnth Hheld). rewrite nth_overflow in Hnth by exact Hge.
    discriminate Hnth.
Qed.

(** A press held for 1200 ms and a press released after 100 ms. *)
Lemma C8_button_classification_witness :
  (count_event LongPress
     (btn_run 0 (press_samples [1000; 1500; 2000; 2200; 2300]
                 ++ release_samples [2400; 2700]) boot_state) = 1%nat /\
   count_event ShortPress
     (btn_run 0 (press_samples [1000; 1500; 2000; 2200; 2300]
                 ++ release_samples [2400; 2700]) boot_state) = 0%nat) /\
  (count_event LongPress
     (btn_run 0 (press_samples [1000; 1050; 1100]
                 ++ release_samples [1150; 1200; 1250]) boot_state) = 0%nat /\
   count_event ShortPress
     (btn_run 0 (press_samples [1000; 1050; 1100]
                 ++ release_samples [1150; 1200; 1250]) boot_state) = 1%nat).
Proof.
  split.
  - destruct (C8_button_classification 0 boot_state 1000
                [1500; 2000; 2200; 2300] [2400; 2700]) as (HL & HS & _).
    + reflexivity.
    + lia.
    + cbn; lia.
    + repeat constructor.
    + split; [exact HL | exact HS].
  - destruct (C8_button_classification 0 boot_state 1000
                [1050; 1100] [1150; 1200; 1250]) as (HL & HS & _).
    + reflexivity.
    + lia.
    + cbn; lia.
    + repeat constructor.
    + split; [exact HL | exact HS].
Defined.

(** ** Signal loss and the terminal [ERROR] stage (C7) *)

(** Whatever holds of the state and is kept by the two setters and the two
    handlers of [btn()] holds after [btn()]. *)
Lemma btn_invariant (R : state -> Prop) (dip : Z) :
  (forall v s, R s -> R (set_btn_timer v s)) ->
  (forall v s, R s -> R (set_btn_handled v s)) ->
  (forall s, R s -> R (btn_short_press s)) ->
  (forall s, R s -> R (btn_long_press dip s)) ->
  forall time pressed s, R s -> R (fst (btn time pressed dip s)).
Proof.
  intros Ht Hh Hs Hl time pressed s H. unfold btn.
  repeat match goal with
         | |- context [if ?c then _ else _] => destruct c
         end;
    cbn [fst]; auto 10.
Qed.

Lemma btn_time_last (time : Z) (pressed : bool) (dip : Z) (s : state) :
  time_last (fst (btn time pressed dip s)) = time_last s.
Proof.
  apply (btn_invariant (fun s' => time_last s' = time_last s)); auto.
  - intros s0 <-. unfold btn_short_press; destruct (stage s0); reflexivity.
  - intros s0 <-. unfold btn_long_press; destruct (stage s0); try reflexivity;
      cbn; destruct (CalibStage.eqb _ _); reflexivity.
Qed.

Lemma btn_active (time : Z) (pressed : bool) (dip : Z) (s : state) :
  active (fst (btn time pressed dip s)) = active s.
Proof.
  apply (btn_invariant (fun s' => active s' = active s)); auto.
  - intros s0 <-. unfold btn_short_press; destruct (stage s0); reflexivity.
  - intros s0 <-. unfold btn_long_press; destruct (stage s0); try reflexivity;
      cbn; destruct (CalibStage.eqb _ _); reflexivity.
Qed.

(** During a sweep the button changes neither stage nor sub-stage. *)
Lemma btn_in_vco (time : Z) (pressed : bool) (dip : Z) (s : state) :
  stage s = CalibStage.VCO_1 \/ stage s = CalibStage.VCO_2 ->
  stage (fst (btn time pressed dip s)) = stage s /\
  stage_vco (fst (btn time pressed dip s)) = stage_vco s.
Proof.
  intros Hst.
  apply (btn_invariant
           (fun s' => stage s' = stage s /\ stage_vco s' = stage_vco s));
    auto.
  - intros s0 [E1 E2]. unfold btn_short_press. rewrite E1.
    destruct Hst as [Hv | Hv]; rewrite Hv in *; cbn; split; assumption.
  - intros s0 [E1 E2]. unfold btn_long_press. rewrite E1.
    destruct Hst as [Hv | Hv]; rewrite Hv in *; split; assumption.
Qed.

(** The button leaves the measurement alone during a sweep. *)
Lemma btn_reading_in_vco (time : Z) (pressed : bool) (dip : Z) (s : state) :
  stage s = CalibStage.VCO_1 \/ stage s = CalibStage.VCO_2 ->
  frequency (fst (btn time pressed dip s)) = frequency s /\
  frequency_raw (fst (btn time pressed dip s)) = frequency_raw s.
Proof.
  intros Hst.
  assert (H : stage (fst (btn time pressed dip s)) = stage s /\
              frequency (fst (btn time pressed dip s)) = frequency s /\
              frequency_raw (fst (btn time pressed dip s)) = frequency_raw s).
  { apply (btn_invariant
             (fun s' => stage s' = stage s /\ frequency s' = frequency s /\
                        frequency_raw s' = frequency_raw s));
      auto.
    - intros s0 (E1 & E2 & E3). unfold btn_short_press. rewrite E1.
      destruct Hst as [Hv | Hv]; rewrite Hv in *; cbn; auto.
    - intros s0 (E1 & E2 & E3). unfold btn_long_press. rewrite E1.
      destruct Hst as [Hv | Hv]; rewrite Hv in *; auto. }
  destruct H as (_ & H1 & H2); split; assumption.
Qed.

(** Neither handler of the button lowers a table's first note below 12. *)
Lemma btn_note_min (time : Z) (pressed : bool) (dip : Z) (s : state) :
  12 <= note_min (calib_matrix_1 s) -> 12 <= note_min (calib_matrix_2 s) ->
  12 <= note_min (calib_matrix_1 (fst (btn time pressed dip s))) /\
  12 <= note_min (calib_matrix_2 (fst (btn time pressed dip s))).
Proof.
  intros H1 H2.
  apply (btn_invariant
           (fun s' => 12 <= note_min (calib_matrix_1 s') /\
                      12 <= note_min (calib_matrix_2 s')));
    auto.
  - intros s0 H. unfold btn_short_press; destruct (stage s0); exact H.
  - intros s0 [A B]. unfold btn_long_press, reset_bounds.
    destruct (stage s0); try (split; assumption);
      cbn; repeat (destruct (CalibStage.eqb _ _); cbn);
      split; first [assumption | lia].
Qed.

(** With both first notes at 12 or above every table read of
    [note_to_mv_cal] is inside the table. *)
Lemma note_to_mv_cal_defined (channel cents : Z) (s : state) :
  12 <= note_min (channel_matrix channel s) ->
  exists mv, note_to_mv_cal channel cents s = Ok mv.
Proof.
  intro Hmin. unfold note_to_mv_cal.
  destruct ((cents <? 1200) || (12700 <? cents)); [eexists; reflexivity|].
  set (m := channel_matrix channel s) in *. clearbody m.
  destruct (no_calibration m (stage s)) eqn:Hno; [eexists; reflexivity|].
  unfold no_calibration in Hno.
  repeat (apply orb_false_iff in Hno; destruct Hno as [Hno ?]).
  repeat match goal with
         | H : (_ <? _) = false |- _ => apply Z.ltb_ge in H
         | H : (_ <=? _) = false |- _ => apply Z.leb_gt in H
         end.
  set (n := float_to_uint8 (F32.of_Z cents / F32.of_Z 100)%f32).
  assert (Hn : 0 <= n < 256) by (apply Z.mod_pos_bound; lia).
  clearbody n.
  assert (Hget : forall k, 12 <= k <= 127 ->
                 array_get MATRIX_SIZE (matrix m) (wrap16 (k - 12))
                 = Ok (nth (Z.to_nat (k - 12)) (matrix m) 0)).
  { intros k Hk. unfold array_get, wrap16, MATRIX_SIZE.
    rewrite Z.mod_small by lia.
    replace ((0 <=? k - 12) && (k - 12 <? 128 - 12)) with true; [reflexivity|].
    symmetry; apply andb_true_iff; split;
      [apply Z.leb_le | apply Z.ltb_lt]; lia. }
  assert (Hw : forall k, 0 <= k < 256 -> wrap8 k = k)
    by (intros k Hk; unfold wrap8; apply Z.mod_small; lia).
  destruct (note_max m <=? n) eqn:C1.
  - rewrite Hw by lia. rewrite !Hget by lia. eexists; reflexivity.
  - apply Z.leb_gt in C1.
    destruct (n <=? note_min m) eqn:C2.
    + rewrite Hw by lia. rewrite !Hget by lia. eexists; reflexivity.
    + apply Z.leb_gt in C2.
      rewrite Hw by lia. rewrite !Hget by lia. eexists; reflexivity.
Qed.

Section LoopProperties.

Variable logf : F32.float -> F32.float.
Variable powf : F32.float -> F32.float -> F32.float.

Lemma filter_frequency_fields (s : state) :
  time_last (filter_frequency s) = time_last s /\
  stage (filter_frequency s) = stage s /\
  stage_vco (filter_frequency s) = stage_vco s /\
  active (filter_frequency s) = active s.
Proof.
  unfold filter_frequency; destruct (F32.leb _ _); repeat split; reflexivity.
Qed.

(** In [ERROR] an iteration zeroes both outputs and changes nothing else. *)
Lemma loop_error (i : inputs) (s : state) :
  active s = true -> stage s = CalibStage.ERROR ->
  loop logf powf i s = Ok (dac_set_s F32.zero F32.zero s).
Proof. intros Ha Hs; unfold loop; rewrite Ha, Hs; reflexivity. Qed.

Lemma run_loop_error (ins : list inputs) (s : state) :
  active s = true -> stage s = CalibStage.ERROR ->
  exists s',
    run_loop logf powf ins s = Ok s' /\
    active s' = true /\ stage s' = CalibStage.ERROR /\
    (ins <> [] ->
     dac_1_target (dac s') = F32.zero /\ dac_2_target (dac s') = F32.zero).
Proof.
  revert s; induction ins as [|i rest IH]; intros s Ha Hs.
  - exists s; repeat split; try assumption; congruence.
  - cbn [run_loop]. rewrite loop_error by assumption. cbn [bind].
    set (s1 := dac_set_s F32.zero F32.zero s).
    assert (Ha1 : active s1 = true) by exact Ha.
    assert (Hs1 : stage s1 = CalibStage.ERROR) by exact Hs.
    destruct (IH s1 Ha1 Hs1) as (s' & Hrun & Ha' & Hs' & Hout).
    exists s'; repeat split; try assumption.
    + destruct rest as [|j rest'].
      * cbn in Hrun. injection Hrun as <-. reflexivity.
      * apply Hout; discriminate.
    + destruct rest as [|j rest'].
      * cbn in Hrun. injection Hrun as <-. reflexivity.
      * apply Hout; discriminate.
Qed.

Lemma loop_front_fields (i : inputs) (s : state) :
  time_last (loop_front i s) = time_last s /\
  active (loop_front i s) = active s.
Proof.
  unfold loop_front.
  set (s1 := fst (btn (in_millis_btn i) (in_btn_pressed i) (in_dip i) s)).
  assert (E : time_last s1 = time_last s /\ active s1 = active s)
    by (split; [apply btn_time_last | apply btn_active]).
  clearbody s1.
  match goal with
  | |- context [filter_frequency ?x] =>
      destruct (filter_frequency_fields x) as (-> & _ & _ & ->)
  end.
  destruct (CalibStage.eqb _ CalibStage.GAIN_1);
    [|destruct (CalibStage.eqb _ CalibStage.GAIN_2)]; exact E.
Qed.

Lemma loop_front_in_vco (i : inputs) (s : state) :
  stage s = CalibStage.VCO_1 \/ stage s = CalibStage.VCO_2 ->
  stage (loop_front i s) = stage s /\
  stage_vco (loop_front i s) = stage_vco s.
Proof.
  intro Hst. unfold loop_front.
  destruct (btn_in_vco (in_millis_btn i) (in_btn_pressed i) (in_dip i) s Hst)
    as [E1 E2].
  set (s1 := fst (btn (in_millis_btn i) (in_btn_pressed i) (in_dip i) s)) in *.
  clearbody s1.
  match goal with
  | |- context [filter_frequency ?x] =>
      destruct (filter_frequency_fields x) as (_ & -> & -> & _)
  end.
  rewrite E1.
  destruct Hst as [Hv | Hv]; rewrite Hv; cbn; split; congruence.
Qed.

(** [tuner()] reads the frequency and writes neither it nor the stage. *)
Lemma tuner_keeps (dip : Z) (s s' : state) :
  tuner logf powf dip s = Ok s' ->
  frequency s' = frequency s /\ frequency_raw s' = frequency_raw s /\
  stage s' = stage s /\ stage_vco s' = stage_vco s.
Proof.
  unfold tuner.
  destruct (note_to_mv_cal 0 _ s) as [mv1|]; [|discriminate].
  destruct (note_to_mv_cal 1 _ s) as [mv2|]; [|discriminate].
  cbn [bind]. intro H; injection H as <-. state_simpl. auto.
Qed.

Lemma tuner_defined (dip : Z) (s : state) :
  12 <= note_min (calib_matrix_1 s) -> 12 <= note_min (calib_matrix_2 s) ->
  exists s', tuner logf powf dip s = Ok s'.
Proof.
  intros H1 H2. unfold tuner.
  match goal with
  | |- context [note_to_mv_cal 0 ?c s] =>
      destruct (note_to_mv_cal_defined 0 c s H1) as [mv1 ->];
      destruct (note_to_mv_cal_defined 1 c s H2) as [mv2 ->]
  end.
  cbn [bind]. eexists; reflexivity.
Qed.

(** During a sweep [tuner()] reads no table. *)
Lemma tuner_defined_in_vco (dip : Z) (s : state) :
  in_vco_stage s = true -> exists s', tuner logf powf dip s = Ok s'.
Proof.
  intro Hin. unfold tuner.
  assert (Hno : forall ch c, exists mv, note_to_mv_cal ch c s = Ok mv).
  { intros ch c. unfold note_to_mv_cal.
    destruct ((c <? 1200) || (12700 <? c)); [eexists; reflexivity|].
    replace (no_calibration (channel_matrix ch s) (stage s)) with true;
      [eexists; reflexivity|].
    unfold in_vco_stage in Hin. unfold no_calibration.
    apply orb_true_iff in Hin. destruct Hin as [-> | ->];
      rewrite ?orb_true_r; reflexivity. }
  match goal with
  | |- context [note_to_mv_cal 0 ?c s] =>
      destruct (Hno 0 c) as [mv1 ->]; destruct (Hno 1 c) as [mv2 ->]
  end.
  cbn [bind]. eexists; reflexivity.
Qed.

(** Outside the [LINEARITY] sub-stage [vco()] always returns; it leaves the
    raw frequency alone and the reading as it is or at zero. *)
Lemma vco_outside_sweep (time : Z) (s : state) :
  stage_vco s <> CalibVcoStage.LINEARITY ->
  exists s',
    vco logf time s = Ok s' /\
    frequency_raw s' = frequency_raw s /\
    (frequency s' = frequency s \/ frequency s' = F32.zero).
Proof.
  intro Hne. unfold vco.
  destruct (stage_vco s); try congruence.
  - eexists; split; [reflexivity|]; auto.
  - destruct (CALIB_VCO_START_DEV_CENTS <? _);
      state_simpl;
      repeat match goal with
             | |- context [if ?c then _ else _] => destruct c
             end;
      (eexists; split; [reflexivity|]);
      unfold set_dac_cv;
      repeat match goal with
             | |- context [if ?c then _ else _] => destruct c
             end;
      state_simpl; auto.
  - repeat match goal with
           | |- context [if ?c then _ else _] => destruct c
           end;
      (eexists; split; [reflexivity|]); state_simpl; auto.
Qed.

(** The reading [loop()] tests is the filter applied to the stored one:
    during a sweep the button does not touch it. *)
Lemma filter_frequency_ext (a b : state) :
  frequency a = frequency b -> frequency_raw a = frequency_raw b ->
  frequency (filter_frequency a) = frequency (filter_frequency b).
Proof.
  intros E1 E2. unfold filter_frequency. rewrite E1, E2.
  destruct (F32.leb _ _); reflexivity.
Qed.

Lemma loop_front_reading_in_vco (i : inputs) (s : state) :
  stage s = CalibStage.VCO_1 \/ stage s = CalibStage.VCO_2 ->
  frequency (loop_front i s) = frequency (filter_frequency s).
Proof.
  intro Hst. unfold loop_front.
  destruct (btn_in_vco (in_millis_btn i) (in_btn_pressed i) (in_dip i) s Hst)
    as [E1 _].
  destruct (btn_reading_in_vco (in_millis_btn i) (in_btn_pressed i)
                               (in_dip i) s Hst) as [F1 F2].
  set (s1 := fst (btn (in_millis_btn i) (in_btn_pressed i) (in_dip i) s)) in *.
  clearbody s1. rewrite E1.
  apply filter_frequency_ext;
    destruct Hst as [Hv | Hv]; rewrite Hv; cbn; assumption.
Qed.

Lemma loop_front_note_min (i : inputs) (s : state) :
  12 <= note_min (calib_matrix_1 s) -> 12 <= note_min (calib_matrix_2 s) ->
  12 <= note_min (calib_matrix_1 (loop_front i s)) /\
  12 <= note_min (calib_matrix_2 (loop_front i s)).
Proof.
  intros H1 H2. unfold loop_front.
  destruct (btn_note_min (in_millis_btn i) (in_btn_pressed i) (in_dip i) s
                         H1 H2) as [A B].
  set (s1 := fst (btn (in_millis_btn i) (in_btn_pressed i) (in_dip i) s)) in *.
  clearbody s1. unfold filter_frequency.
  destruct (F32.leb _ _);
    destruct (CalibStage.eqb _ CalibStage.GAIN_1);
    try destruct (CalibStage.eqb _ CalibStage.GAIN_2);
    split; assumption.
Qed.

(** [loop()] when its signal-lost test fires. *)
Lemma loop_timeout (i : inputs) (s : state) :
  active s = true ->
  stage s <> CalibStage.ERROR ->
  2000000 < wrap64 (in_micros i - time_last s) ->
  (frequency (loop_front i s) >? F32.zero)%f32 = true ->
  let m :=
    set_frequency_raw F32.zero (set_frequency F32.zero (loop_front i s)) in
  loop logf powf i s
  = if in_vco_stage m &&
       CalibVcoStage.eqb (stage_vco m) CalibVcoStage.LINEARITY
    then Ok (set_stage CalibStage.ERROR m)
    else
      s1 <- (if CalibStage.eqb (stage m) CalibStage.TUNER ||
                (in_vco_stage m &&
                 CalibVcoStage.eqb (stage_vco m) CalibVcoStage.TUNER)
             then tuner logf powf (in_dip i) m else Ok m) ;;
      if in_vco_stage s1 then vco logf (in_millis_vco i) s1 else Ok s1.
Proof.
  intros Ha Hne Hel Hpos m.
  unfold loop. rewrite Ha. cbn [negb].
  apply CalibStage_eqb_neq in Hne. rewrite Hne.
  unfold loop_measure, signal_timeout.
  destruct (loop_front_fields i s) as [-> _].
  rewrite Hpos. apply Z.ltb_lt in Hel. rewrite Hel. reflexivity.
Qed.

(** With a reading that is not positive [loop()] does not make the test,
    however long ago the last edge came: it goes on to [tuner()] and
    [vco()] with the state the filter left. *)
Lemma loop_without_reading (i : inputs) (s : state) :
  active s = true ->
  stage s <> CalibStage.ERROR ->
  (frequency (loop_front i s) >? F32.zero)%f32 = false ->
  let m := loop_front i s in
  loop logf powf i s
  = (s1 <- (if CalibStage.eqb (stage m) CalibStage.TUNER ||
               (in_vco_stage m &&
                CalibVcoStage.eqb (stage_vco m) CalibVcoStage.TUNER)
            then tuner logf powf (in_dip i) m else Ok m) ;;
     if in_vco_stage s1 then vco logf (in_millis_vco i) s1 else Ok s1).
Proof.
  intros Ha Hne Hpos m.
  unfold loop. rewrite Ha. cbn [negb].
  apply CalibStage_eqb_neq in Hne. rewrite Hne.
  unfold loop_measure, signal_timeout.
  fold m. unfold m at 1. rewrite Hpos. reflexivity.
Qed.

(** C7 (amended).  When more than 2 000 000 microseconds have passed since
    the last edge and the reading [loop()] has just filtered is still
    positive, the iteration forces the reading and the raw frequency to
    zero: they are zero in every state [loop()] returns, and it does return
    during a sweep and whenever the tables' first notes are 12 or more
    (so that [tuner()] reads inside them).  If this happens in the
    [LINEARITY] sub-stage of [VCO_1] or [VCO_2], [loop()] returns with the
    stage at [ERROR] (reading and raw frequency zero); from there every
    further iteration returns, keeps the stage at [ERROR] whatever the
    button does, and sets both outputs to zero. *)
Theorem C7_signal_lost_while_measured (i : inputs) (s : state) :
  active s = true ->
  stage s <> CalibStage.ERROR ->
  2000000 < wrap64 (in_micros i - time_last s) ->
  (frequency (loop_front i s) >? F32.zero)%f32 = true ->
  (forall s',
     loop logf powf i s = Ok s' ->
     frequency s' = F32.zero /\ frequency_raw s' = F32.zero) /\
  (in_vco_stage s = true \/
   12 <= note_min (calib_matrix_1 s) /\ 12 <= note_min (calib_matrix_2 s) ->
   exists s', loop logf powf i s = Ok s') /\
  (stage s = CalibStage.VCO_1 \/ stage s = CalibStage.VCO_2 ->
   stage_vco s = CalibVcoStage.LINEARITY ->
   exists s',
     loop logf powf i s = Ok s' /\ stage s' = CalibStage.ERROR /\
     frequency s' = F32.zero /\ frequency_raw s' = F32.zero /\
     forall ins, exists s'',
       run_loop logf powf ins s' = Ok s'' /\
       stage s'' = CalibStage.ERROR /\
       (ins <> [] ->
        dac_1_target (dac s'') = F32.zero /\
        dac_2_target (dac s'') = F32.zero)).
Proof.
  intros Ha Hne Hel Hpos.
  rewrite (loop_timeout i s Ha Hne Hel Hpos). cbv zeta.
  destruct (loop_front_fields i s) as [_ Eact].
  pose proof (loop_front_in_vco i s) as Hvco.
  pose proof (loop_front_note_min i s) as Hmin.
  set (f := loop_front i s) in *. clearbody f.
  set (m := set_frequency_raw F32.zero (set_frequency F32.zero f)).
  assert (Hm : frequency m = F32.zero /\ frequency_raw m = F32.zero /\
               stage m = stage f /\ stage_vco m = stage_vco f /\
               active m = active f /\
               calib_matrix_1 m = calib_matrix_1 f /\
               calib_matrix_2 m = calib_matrix_2 f)
    by (repeat split; reflexivity).
  clearbody m. destruct Hm as (F0 & R0 & Es & Ev & Ea & M1 & M2).
  split; [|split].
  - (* the reading in the state returned *)
    intros s'.
    destruct (in_vco_stage m &&
              CalibVcoStage.eqb (stage_vco m) CalibVcoStage.LINEARITY)
      eqn:Hsweep.
    + intro H; injection H as <-. state_simpl. split; assumption.
    + destruct (CalibStage.eqb (stage m) CalibStage.TUNER ||
                (in_vco_stage m &&
                 CalibVcoStage.eqb (stage_vco m) CalibVcoStage.TUNER)).
      * destruct (tuner logf powf (in_dip i) m) as [s1|] eqn:Ht;
          [|discriminate].
        destruct (tuner_keeps _ _ _ Ht) as (T1 & T2 & T3 & T4).
        cbn [bind].
        assert (Hin : in_vco_stage s1 = in_vco_stage m)
          by (unfold in_vco_stage; rewrite T3; reflexivity).
        rewrite Hin.
        destruct (in_vco_stage m) eqn:Hv.
        -- cbn [andb] in Hsweep.
           assert (Hnl : stage_vco s1 <> CalibVcoStage.LINEARITY).
           { rewrite T4. intro E. rewrite E in Hsweep. discriminate. }
           destruct (vco_outside_sweep (in_millis_vco i) s1 Hnl)
             as (s2 & -> & V1 & V2).
           intro H; injection H as <-. split; [|congruence].
           destruct V2 as [V2 | V2]; congruence.
        -- intro H; injection H as <-. split; congruence.
      * cbn [bind].
        destruct (in_vco_stage m) eqn:Hv.
        -- cbn [andb] in Hsweep.
           assert (Hnl : stage_vco m <> CalibVcoStage.LINEARITY).
           { intro E. rewrite E in Hsweep. discriminate. }
           destruct (vco_outside_sweep (in_millis_vco i) m Hnl)
             as (s2 & -> & V1 & V2).
           intro H; injection H as <-. split; [|congruence].
           destruct V2 as [V2 | V2]; congruence.
        -- intro H; injection H as <-. split; assumption.
  - (* [loop()] returns *)
    intros Hdef.
    assert (Htuner : exists s1, tuner logf powf (in_dip i) m = Ok s1).
    { destruct Hdef as [Hin | [H1 H2]].
      - apply tuner_defined_in_vco.
        unfold in_vco_stage in Hin |- *. rewrite Es.
        apply orb_true_iff in Hin.
        destruct Hin as [Hin | Hin]; apply CalibStage_eqb_eq in Hin;
          [destruct (Hvco (or_introl Hin)) as [-> _]
          |destruct (Hvco (or_intror Hin)) as [-> _]];
          rewrite Hin; reflexivity.
      - destruct (Hmin H1 H2) as [A B].
        rewrite <- M1 in A. rewrite <- M2 in B.
        exact (tuner_defined (in_dip i) m A B). }
    destruct (in_vco_stage m &&
              CalibVcoStage.eqb (stage_vco m) CalibVcoStage.LINEARITY)
      eqn:Hsweep; [eexists; reflexivity|].
    assert (Hvco' : forall s1,
               stage s1 = stage m -> stage_vco s1 = stage_vco m ->
               exists s',
                 (if in_vco_stage s1 then vco logf (in_millis_vco i) s1
                  else Ok s1) = Ok s').
    { intros s1 T3 T4.
      assert (Hin : in_vco_stage s1 = in_vco_stage m)
        by (unfold in_vco_stage; rewrite T3; reflexivity).
      rewrite Hin. destruct (in_vco_stage m) eqn:Hv;
        [|eexists; reflexivity].
      cbn [andb] in Hsweep.
      assert (Hnl : stage_vco s1 <> CalibVcoStage.LINEARITY).
      { rewrite T4. intro E. rewrite E in Hsweep. discriminate. }
      destruct (vco_outside_sweep (in_millis_vco i) s1 Hnl)
        as (s2 & -> & _).
      eexists; reflexivity. }
    destruct (CalibStage.eqb (stage m) CalibStage.TUNER ||
              (in_vco_stage m &&
               CalibVcoStage.eqb (stage_vco m) CalibVcoStage.TUNER)).
    + destruct Htuner as [s1 Ht].
      rewrite Ht. cbn [bind].
      destruct (tuner_keeps _ _ _ Ht) as (_ & _ & T3 & T4).
      exact (Hvco' s1 T3 T4).
    + cbn [bind]. exact (Hvco' m eq_refl eq_refl).
  - (* the sweep is aborted *)
    intros Hst Hlin. destruct (Hvco Hst) as [Es' Ev'].
    assert (Hin : in_vco_stage m = true).
    { unfold in_vco_stage. rewrite Es, Es'.
      destruct Hst as [-> | ->]; reflexivity. }
    rewrite Hin, Ev, Ev', Hlin. cbn [andb CalibVcoStage.eqb].
    change (CalibVcoStage.eqb CalibVcoStage.LINEARITY CalibVcoStage.LINEARITY)
      with true.
    cbv iota.
    eexists; split; [reflexivity|]. state_simpl.
    split; [reflexivity|]. split; [exact F0|]. split; [exact R0|].
    intro ins.
    destruct (run_loop_error ins (set_stage CalibStage.ERROR m))
      as (s'' & Hr & _ & Hs'' & Hout).
    + state_simpl. congruence.
    + reflexivity.
    + exists s''; split; [exact Hr | split; [exact Hs'' | exact Hout]].
Qed.

End LoopProperties.

Lemma C7_signal_lost_witness :
  active sweep_example = true /\
  stage sweep_example = CalibStage.VCO_1 /\
  stage_vco sweep_example = CalibVcoStage.LINEARITY /\
  2000000 < wrap64 (in_micros late_inputs - time_last sweep_example) /\
  (frequency (loop_front late_inputs sweep_example) >? F32.zero)%f32
  = true /\
  exists s',
    loop Libm.logf_ref Libm.powf_ref late_inputs sweep_example
    = Ok s' /\
    stage s' = CalibStage.ERROR /\
    frequency s' = F32.zero /\ frequency_raw s' = F32.zero.
Proof.
  split; [reflexivity|]. split; [reflexivity|]. split; [reflexivity|].
  split; [vm_compute; reflexivity|]. split; [vm_compute; reflexivity|].
  destruct (C7_signal_lost_while_measured Libm.logf_ref Libm.powf_ref
              late_inputs sweep_example) as (_ & _ & H).
  - reflexivity.
  - discriminate.
  - vm_compute; reflexivity.
  - vm_compute; reflexivity.
  - destruct (H (or_introl eq_refl) eq_refl) as (s' & Hl & Hs & Hf & Hr & _).
    exists s'; repeat split; assumption.
Defined.

(** The signal is lost while channel 1 waits in [LOWER]: the test fires
    there, zeroes the reading and leaves the stage alone; the sweep then
    starts with a reading of zero, and 7.5 s, 59.5 s and 599.5 s after the
    last edge the stage is still [VCO_1] in [LINEARITY], not [ERROR]. *)
Lemma C7_counterexample :
  exists s s1 s3,
    run_loop Libm.logf_ref Libm.powf_ref silent_lower_inputs
             measured_lower_example
    = Ok s /\
    active s = true /\ stage s = CalibStage.VCO_1 /\
    stage_vco s = CalibVcoStage.LINEARITY /\
    frequency s = F32.zero /\ frequency_raw s = F32.zero /\
    time_last s = time_last measured_lower_example /\
    2000000 < wrap64 (8000000 - time_last s) /\
    loop Libm.logf_ref Libm.powf_ref (mkInputs 8000 false 0 8000000 8000) s
    = Ok s1 /\
    stage s1 = CalibStage.VCO_1 /\ stage s1 <> CalibStage.ERROR /\
    run_loop Libm.logf_ref Libm.powf_ref silent_sweep_inputs s = Ok s3 /\
    stage s3 = CalibStage.VCO_1 /\
    stage_vco s3 = CalibVcoStage.LINEARITY /\
    stage s3 <> CalibStage.ERROR.
Proof.
  do 3 eexists.
  split; [vm_compute; reflexivity|].
  split; [reflexivity|]. split; [reflexivity|]. split; [reflexivity|].
  split; [reflexivity|]. split; [reflexivity|].
  split; [reflexivity|]. split; [vm_compute; reflexivity|].
  split; [vm_compute; reflexivity|].
  split; [reflexivity|]. split; [discriminate|].
  split; [vm_compute; reflexivity|].
  split; [reflexivity|]. split; [reflexivity|]. discriminate.
Qed.

(** ** Cents deviation (C9) *)

Lemma pow2_pred (d : Z) : 0 < d -> 2 ^ d = 2 * 2 ^ (d - 1).
Proof.
  intro H. replace d with (Z.succ (d - 1)) at 1 by lia.
  apply Z.pow_succ_r; lia.
Qed.

Lemma digits2_pos_bounds (m : positive) :
  2 ^ (Zpos (digits2_pos m) - 1) <= Zpos m < 2 ^ Zpos (digits2_pos m).
Proof.
  induction m as [p IH | p IH |]; cbn [digits2_pos].
  - rewrite Pos2Z.inj_succ.
    replace (Z.succ (Zpos (digits2_pos p)) - 1) with (Zpos (digits2_pos p)) by lia.
    rewrite Z.pow_succ_r by lia.
    pose proof (pow2_pred (Zpos (digits2_pos p)) ltac:(lia)). lia.
  - rewrite Pos2Z.inj_succ.
    replace (Z.succ (Zpos (digits2_pos p)) - 1) with (Zpos (digits2_pos p)) by lia.
    rewrite Z.pow_succ_r by lia.
    pose proof (pow2_pred (Zpos (digits2_pos p)) ltac:(lia)). lia.
  - cbn. lia.
Qed.

(** A valid binary32 has at most 24 digits, exactly 24 above the smallest
    exponent. *)
Lemma valid_finite (s : bool) (m : positive) (e : Z) :
  valid_binary F32.prec F32.emax (S754_finite s m e) = true ->
  Zpos m < 2 ^ 24 /\ -149 <= e <= 104 /\ (-149 < e -> 2 ^ 23 <= Zpos m).
Proof.
  cbn [valid_binary]. unfold bounded, canonical_mantissa, fexp, emin.
  unfold F32.prec, F32.emax.
  intro H. apply andb_true_iff in H. destruct H as [Hc He].
  apply Z.eqb_eq in Hc. apply Z.leb_le in He.
  pose proof (digits2_pos_bounds m) as Hd.
  set (d := Zpos (digits2_pos m)) in *.
  assert (Hd24 : d <= 24) by lia.
  assert (Hpow : 2 ^ d <= 2 ^ 24) by (apply Z.pow_le_mono_r; lia).
  split; [lia|]. split; [lia|].
  intro Hgt. assert (d = 24) by lia. subst d.
  replace (Zpos (digits2_pos m)) with 24 in Hd by lia. cbn in Hd. lia.
Qed.

Lemma to_int16_small (x : Z) : -32768 <= x < 32768 -> to_int16 x = x.
Proof.
  intro H. unfold to_int16, wrap16.
  destruct (Z.ltb_spec (x mod 65536) 32768) as [Hlt|Hge];
    Z.div_mod_to_equations; lia.
Qed.

(** The magnitude [round_half_away] computes below the binary point. *)
Lemma half_away_bounds (m P L U : Z) :
  0 < P -> P * L <= m -> m <= P * U -> L <= (2 * m + P) / (2 * P) <= U.
Proof.
  intros HP HL HU. split.
  - apply Z.div_le_lower_bound; nia.
  - apply Z.lt_succ_r. apply Z.div_lt_upper_bound; nia.
Qed.

Lemma pow2_ge (k n : Z) : 0 <= n <= k -> 2 ^ n <= 2 ^ k.
Proof. intro H; apply Z.pow_le_mono_r; lia. Qed.

Lemma pow2_le (k n : Z) : 0 <= k <= n -> 2 ^ k <= 2 ^ n.
Proof. intro H; apply Z.pow_le_mono_r; lia. Qed.

Lemma of_Z_int16_max : F32.of_Z INT16_MAX = S754_finite false 16776704 (-9).
Proof. vm_compute; reflexivity. Qed.

Lemma of_Z_int16_min : F32.of_Z INT16_MIN = S754_finite true 8388608 (-8).
Proof. vm_compute; reflexivity. Qed.

Lemma pos_compare_Z (p q : positive) : (p ?= q)%positive = (Zpos p ?= Zpos q).
Proof. reflexivity. Qed.

(** The clamping of [hz_to_cents_deviation] is rounding followed by
    saturation. *)
Lemma clamp_is_saturate_round (x : F32.float) :
  valid_binary F32.prec F32.emax x = true ->
  F32.is_nan x = false ->
  (if (x >=? F32.of_Z INT16_MAX)%f32 then INT16_MAX
   else if (x <=? F32.of_Z INT16_MIN)%f32 then INT16_MIN
   else to_int16 (F32.round_half_away x))
  = saturate_round x.
Proof.
  intros Hv Hn.
  destruct x as [s | s | | s m e]; try discriminate Hn.
  - destruct s; reflexivity.
  - destruct s; reflexivity.
  - apply valid_finite in Hv. destruct Hv as (Hm & He & Hnorm).
    unfold F32.geb, F32.leb.
    rewrite of_Z_int16_max, of_Z_int16_min.
    unfold saturate_round, F32.round_half_away, INT16_MAX, INT16_MIN.
    unfold SFleb, SFcompare.
    assert (HP : forall k, 0 <= k -> 0 < 2 ^ k)
      by (intros; apply Z.pow_pos_nonneg; lia).
    destruct s.
    + (* negative *)
      destruct (Z.compare_spec e (-8)) as [E|E|E].
      * subst e. specialize (Hnorm ltac:(lia)).
        change (2 ^ (- -8)) with 256. rewrite Pos.compare_cont_spec.
        cbn [Pos.switch_Eq].
        change (2 ^ 23) with 8388608 in Hnorm.
        pose proof (half_away_bounds (Zpos m) 256 32768 16777216
                      ltac:(lia) ltac:(lia) ltac:(lia)) as Hb.
        change (2 * 256) with 512 in *.
        rewrite pos_compare_Z.
        clear Hn.
        destruct (Z.compare_spec (Zpos m) 8388608) as [C|C|C];
          cbn [CompOpp Pos.switch_Eq Z.leb Z.compare]; lia.
      * (* below 32768 in magnitude *)
        replace (0 <=? e) with false by (symmetry; apply Z.leb_gt; lia).
        pose proof (pow2_le 9 (- e) ltac:(lia)) as Hp. change (2 ^ 9) with 512 in Hp.
        pose proof (half_away_bounds (Zpos m) (2 ^ (- e)) 0 32768
                      ltac:(lia) ltac:(lia) ltac:(lia)) as Hb.
        rewrite to_int16_small by lia. lia.
      * destruct (Z.leb_spec 0 e) as [He0|He0].
        -- pose proof (pow2_le 0 e ltac:(lia)) as Hp. change (2 ^ 0) with 1 in Hp.
           specialize (Hnorm ltac:(lia)). change (2 ^ 23) with 8388608 in Hnorm.
           nia.
        -- specialize (Hnorm ltac:(lia)). change (2 ^ 23) with 8388608 in Hnorm.
           pose proof (pow2_ge 7 (- e) ltac:(lia)) as Hp.
           change (2 ^ 7) with 128 in Hp.
           pose proof (HP (- e) ltac:(lia)) as Hpos.
           pose proof (half_away_bounds (Zpos m) (2 ^ (- e)) 32768 16777216
                         ltac:(lia) ltac:(nia) ltac:(nia)) as Hb.
           lia.
    + (* positive *)
      destruct (Z.compare_spec (-9) e) as [E|E|E].
      * subst e. specialize (Hnorm ltac:(lia)).
        change (2 ^ (- -9)) with 512. rewrite Pos.compare_cont_spec.
        cbn [Pos.switch_Eq].
        change (2 * 512) with 1024 in *.
        rewrite pos_compare_Z.
        clear Hn.
        destruct (Z.compare_spec 16776704 (Zpos m)) as [C|C|C];
          cbn [Pos.switch_Eq Z.leb Z.compare].
        -- injection C as <-. reflexivity.
        -- pose proof (half_away_bounds (Zpos m) 512 32767 32768
                         ltac:(lia) ltac:(lia) ltac:(lia)) as Hb.
           change (2 * 512) with 1024 in *. lia.
        -- assert (Hb : 0 <= (2 * Zpos m + 512) / 1024 <= 32767).
           { split; [apply Z.div_pos; lia|].
             apply Z.lt_succ_r, Z.div_lt_upper_bound; lia. }
           rewrite to_int16_small by lia. lia.
      * destruct (Z.leb_spec 0 e) as [He0|He0].
        -- pose proof (pow2_le 0 e ltac:(lia)) as Hp. change (2 ^ 0) with 1 in Hp.
           specialize (Hnorm ltac:(lia)). change (2 ^ 23) with 8388608 in Hnorm.
           nia.
        -- specialize (Hnorm ltac:(lia)). change (2 ^ 23) with 8388608 in Hnorm.
           pose proof (pow2_ge 8 (- e) ltac:(lia)) as Hp.
           change (2 ^ 8) with 256 in Hp.
           pose proof (HP (- e) ltac:(lia)) as Hpos.
           pose proof (half_away_bounds (Zpos m) (2 ^ (- e)) 32768 16777216
                         ltac:(lia) ltac:(nia) ltac:(nia)) as Hb.
           lia.
      * replace (0 <=? e) with false by (symmetry; apply Z.leb_gt; lia).
        pose proof (pow2_le 10 (- e) ltac:(lia)) as Hp.
        change (2 ^ 10) with 1024 in Hp.
        pose proof (half_away_bounds (Zpos m) (2 ^ (- e)) 0 16384
                      ltac:(lia) ltac:(lia) ltac:(lia)) as Hb.
        rewrite to_int16_small by lia. lia.
Qed.

Lemma gtb_zero_not_leb (x : F32.float) :
  (x >? F32.zero)%f32 = true -> (x <=? F32.zero)%f32 = false.
Proof.
  unfold F32.gtb, F32.leb, F32.zero, SFltb, SFleb, SFcompare.
  destruct x as [s | s | | s m e]; try destruct s; cbn; congruence.
Qed.

Section Deviation.

Variable logf : F32.float -> F32.float.

(** C9.  [hz_to_cents_deviation] returns [INT16_MAX] when the target is
    not positive, [INT16_MIN] when the target is positive and the measured
    frequency is not, and otherwise [1200 * log2 (measured / target)]
    rounded and clamped to the [int16_t] range (the computed deviation
    being a binary32 number, not NaN).  With a [logf] that is exact at 1
    and correctly rounded at 2 and 1/2: deviation(440,440) = 0,
    deviation(440,880) = 1200 and deviation(440,220) = -1200. *)
Theorem C9_cents_deviation (target measured : F32.float) :
  ((target <=? F32.zero)%f32 = true ->
   hz_to_cents_deviation logf target measured = INT16_MAX) /\
  ((target >? F32.zero)%f32 = true ->
   (measured <=? F32.zero)%f32 = true ->
   hz_to_cents_deviation logf target measured = INT16_MIN) /\
  ((target >? F32.zero)%f32 = true ->
   (measured >? F32.zero)%f32 = true ->
   valid_binary F32.prec F32.emax
     (deviation_cents logf target measured) = true ->
   F32.is_nan (deviation_cents logf target measured) = false ->
   hz_to_cents_deviation logf target measured
   = saturate_round (deviation_cents logf target measured)) /\
  (logf F32.one = F32.zero ->
   logf (F32.of_Z 2) = ln2_f32 ->
   logf (F32.lit 1 2) = F32.opp ln2_f32 ->
   hz_to_cents_deviation logf (F32.of_Z 440) (F32.of_Z 440) = 0 /\
   hz_to_cents_deviation logf (F32.of_Z 440) (F32.of_Z 880) = 1200 /\
   hz_to_cents_deviation logf (F32.of_Z 440) (F32.of_Z 220) = -1200).
Proof.
  repeat split.
  - intro H. unfold hz_to_cents_deviation. rewrite H. reflexivity.
  - intros Ht Hm. unfold hz_to_cents_deviation.
    rewrite (gtb_zero_not_leb _ Ht), Hm. reflexivity.
  - intros Ht Hm Hv Hn. unfold hz_to_cents_deviation.
    rewrite (gtb_zero_not_leb _ Ht), (gtb_zero_not_leb _ Hm).
    cbv zeta. apply clamp_is_saturate_round; assumption.
  - unfold hz_to_cents_deviation, deviation_cents.
    replace (F32.of_Z 440 / F32.of_Z 440)%f32 with F32.one
      by (vm_compute; reflexivity).
    rewrite H, H0. vm_compute. reflexivity.
  - unfold hz_to_cents_deviation, deviation_cents.
    replace (F32.of_Z 880 / F32.of_Z 440)%f32 with (F32.of_Z 2)
      by (vm_compute; reflexivity).
    rewrite H0. vm_compute. reflexivity.
  - unfold hz_to_cents_deviation, deviation_cents.
    replace (F32.of_Z 220 / F32.of_Z 440)%f32 with (F32.lit 1 2)
      by (vm_compute; reflexivity).
    rewrite H0, H1. vm_compute. reflexivity.
Qed.

End Deviation.

Lemma C9_cents_deviation_witness :
  hz_to_cents_deviation Libm.logf_ref (F32.of_Z 0) (F32.of_Z 440) = INT16_MAX /\
  hz_to_cents_deviation Libm.logf_ref (F32.of_Z 440) (F32.of_Z 0) = INT16_MIN /\
  hz_to_cents_deviation Libm.logf_ref (F32.of_Z 440) (F32.of_Z 466)
  = saturate_round (deviation_cents Libm.logf_ref (F32.of_Z 440) (F32.of_Z 466)) /\
  hz_to_cents_deviation Libm.logf_ref (F32.of_Z 440) (F32.of_Z 880) = 1200.
Proof.
  split; [|split; [|split]].
  - destruct (C9_cents_deviation Libm.logf_ref (F32.of_Z 0) (F32.of_Z 440))
      as (H & _). apply H. vm_compute; reflexivity.
  - destruct (C9_cents_deviation Libm.logf_ref (F32.of_Z 440) (F32.of_Z 0))
      as (_ & H & _). apply H; vm_compute; reflexivity.
  - destruct (C9_cents_deviation Libm.logf_ref (F32.of_Z 440) (F32.of_Z 466))
      as (_ & _ & H & _). apply H; vm_compute; reflexivity.
  - destruct (C9_cents_deviation Libm.logf_ref (F32.of_Z 440) (F32.of_Z 880))
      as (_ & _ & _ & H). apply H; vm_compute; reflexivity.
Defined.

(** ** The linearity sweep (C4, C10) *)

Lemma set_dac_cv_eq (channel : Z) (mv : F32.float) (s : state) :
  set_dac_cv channel mv s
  = set_dac (if channel =? 0 then dac_set mv F32.zero (dac s)
             else dac_set F32.zero mv (dac s)) s.
Proof. unfold set_dac_cv; destruct (channel =? 0); reflexivity. Qed.

Lemma vcc_dac_set (t1 t2 : F32.float) (d : DAC) :
  vcc (dac_set t1 t2 d) = vcc d.
Proof. reflexivity. Qed.

Ltac sweep_simpl :=
  rewrite ?set_dac_cv_eq;
  unfold vco_channel, vco_matrix, set_vco_matrix, get_current_maximum in *;
  state_simpl.

Section Sweep.

Variable logf : F32.float -> F32.float.

(** A call of [vco()] in [LINEARITY] that accepts its reading comes down
    to [vco_linearity_step]. *)
Lemma vco_accepts (time : Z) (s : state) :
  stage_vco s = CalibVcoStage.LINEARITY ->
  gate_open time s = true ->
  0 <= vco_cents_buffer_counter s < 256 ->
  stabilized (hz_to_note logf (frequency s)) (vco_cents_buffer s) = true ->
  exists s1,
    vco logf time s
    = vco_linearity_step (hz_to_note logf (frequency s)) s1 /\
    stage s1 = stage s /\ stage_vco s1 = stage_vco s /\
    calib_matrix_1 s1 = calib_matrix_1 s /\
    calib_matrix_2 s1 = calib_matrix_2 s /\
    mv_current s1 = mv_current s /\
    vco_cents_last s1 = vco_cents_last s /\
    vco_note_closest_mv s1 = vco_note_closest_mv s /\
    address_last s1 = address_last s /\
    gain_1_offset s1 = gain_1_offset s /\
    gain_2_offset s1 = gain_2_offset s /\
    dac s1 = dac s.
Proof.
  intros Hlin Hgate Hcnt Hstab. unfold vco. rewrite Hlin.
  unfold gate_open in Hgate. apply negb_true_iff in Hgate. rewrite Hgate.
  set (s0 := if vco_calib_timer s =? 0 then set_vco_calib_timer time s else s).
  assert (E0 : frequency s0 = frequency s /\
               vco_cents_buffer s0 = vco_cents_buffer s /\
               vco_cents_buffer_counter s0 = vco_cents_buffer_counter s).
  { subst s0; destruct (vco_calib_timer s =? 0); repeat split. }
  destruct E0 as (Ef & Eb & Ec).
  cbv zeta. rewrite Ef, Eb, Ec, Hstab.
  set (c := if vco_cents_buffer_counter s <? VCO_LAST_CENTS_STAB - 1
            then wrap8 (vco_cents_buffer_counter s + 1) else 0).
  assert (Hc : 0 <= c < 5).
  { subst c. unfold VCO_LAST_CENTS_STAB, wrap8.
    destruct (Z.ltb_spec (vco_cents_buffer_counter s) (5 - 1)); [|lia].
    rewrite Z.mod_small; lia. }
  state_simpl. unfold array_set.
  replace ((0 <=? c) && (c <? VCO_LAST_CENTS_STAB)) with true.
  2:{ symmetry; apply andb_true_iff; split;
      [apply Z.leb_le | apply Z.ltb_lt]; unfold VCO_LAST_CENTS_STAB; lia. }
  cbn [bind negb].
  eexists; split; [reflexivity|].
  subst s0; destruct (vco_calib_timer s =? 0); repeat split;
    try reflexivity; exact Hlin.
Qed.

(** C10.  The claim asks that the final table write of the sweep,
    [matrix[note_max - 12]] with [note_max = vco_cents_last / 100], stay
    inside the 116-entry table.  Nothing in the termination branch checks
    [vco_cents_last]: when the sweep ends on a reading above 12700 cents
    while the previous accepted reading is below 1200 cents (it is 0
    until the first reading is accepted), the index [note_max - 12U]
    wraps around and the write lands outside the table. *)
Theorem C10_final_write_out_of_bounds (time : Z) (s : state) :
  stage_vco s = CalibVcoStage.LINEARITY ->
  gate_open time s = true ->
  0 <= vco_cents_buffer_counter s < 256 ->
  stabilized (hz_to_note logf (frequency s)) (vco_cents_buffer s) = true ->
  12700 < hz_to_note logf (frequency s) ->
  0 <= vco_cents_last s < 1200 ->
  vco logf time s = OutOfBounds (65536 + vco_cents_last s / 100 - 12) /\
  MATRIX_SIZE <= 65536 + vco_cents_last s / 100 - 12.
Proof.
  intros Hlin Hgate Hcnt Hstab Hhigh Hlast.
  destruct (vco_accepts time s Hlin Hgate Hcnt Hstab)
    as (s1 & -> & Hs1 & _ & _ & _ & _ & Hl1 & _).
  set (c := hz_to_note logf (frequency s)) in *. clearbody c.
  assert (Hq : 0 <= vco_cents_last s / 100 < 12)
    by (split; [apply Z.div_pos | apply Z.div_lt_upper_bound]; lia).
  split; [|unfold MATRIX_SIZE; lia].
  unfold vco_linearity_step.
  replace (c <=? 12700) with false by (symmetry; apply Z.leb_gt; lia).
  rewrite andb_false_r. cbn [andb bind].
  replace (12700 <? c) with true by (symmetry; apply Z.ltb_lt; lia).
  rewrite orb_true_r.
  sweep_simpl. rewrite Hl1.
  unfold array_set.
  assert (Hidx : wrap16 (wrap8 (vco_cents_last s / 100) - 12)
                 = 65536 + vco_cents_last s / 100 - 12).
  { unfold wrap8, wrap16. rewrite (Z.mod_small (_ / 100)) by lia.
    Z.div_mod_to_equations; lia. }
  rewrite Hidx.
  replace (65536 + vco_cents_last s / 100 - 12 <? MATRIX_SIZE) with false
    by (symmetry; apply Z.ltb_ge; unfold MATRIX_SIZE; lia).
  rewrite andb_false_r.
  destruct (CalibStage.eqb (stage s1) CalibStage.VCO_1); reflexivity.
Qed.

(** The guard in front of the table write, as the specification describes
    it: a new note whose address is below the last written one, or more
    than one above it, ends the sweep in [ERROR] with both tables as they
    were. *)
Lemma linearity_guard (vco_cents : Z) (s : state) :
  1200 <= vco_cents <= 12700 ->
  1200 <= vco_cents_last s <= 12700 ->
  wrap8 (vco_cents_last s / 100) < wrap8 (vco_cents / 100) ->
  address_last s <> 255 ->
  note_address (vco_cents_last s) < address_last s \/
  1 < wrap8 (note_address (vco_cents_last s) - address_last s) ->
  exists s',
    vco_linearity_step vco_cents s = Ok s' /\
    stage s' = CalibStage.ERROR /\
    matrix (calib_matrix_1 s') = matrix (calib_matrix_1 s) /\
    matrix (calib_matrix_2 s') = matrix (calib_matrix_2 s).
Proof.
  intros Hc Hl Hnew Hal Hbad. unfold vco_linearity_step.
  replace ((1200 <=? vco_cents) && (vco_cents <=? 12700) &&
           (1200 <=? vco_cents_last s) && (vco_cents_last s <=? 12700))
    with true
    by (symmetry; rewrite !andb_true_iff, !Z.leb_le; lia).
  set (s1 := if (wrap8 (vco_cents / 100) =? wrap8 (vco_cents_last s / 100)) &&
                (vco_cents mod 100 <? vco_cents_last s mod 100)
             then set_vco_note_closest_mv (mv_current s) s else s).
  assert (E1 : stage s1 = stage s /\ calib_matrix_1 s1 = calib_matrix_1 s /\
               calib_matrix_2 s1 = calib_matrix_2 s /\
               address_last s1 = address_last s).
  { subst s1; destruct (_ && _); repeat split. }
  destruct E1 as (Es & Em1 & Em2 & Ea). clearbody s1.
  replace (wrap8 (vco_cents_last s / 100) <? wrap8 (vco_cents / 100))
    with true by (symmetry; apply Z.ltb_lt; lia).
  set (s2 := if 127 <? note_min (vco_matrix s1)
             then set_vco_matrix
                    (mkMatrix (wrap8 (vco_cents_last s / 100))
                              (note_max (vco_matrix s1))
                              (matrix (vco_matrix s1))) s1
             else s1).
  assert (E2 : matrix (calib_matrix_1 s2) = matrix (calib_matrix_1 s) /\
               matrix (calib_matrix_2 s2) = matrix (calib_matrix_2 s) /\
               address_last s2 = address_last s).
  { subst s2. unfold vco_matrix, set_vco_matrix.
    destruct (CalibStage.eqb (stage s1) CalibStage.VCO_1);
      destruct (127 <? _); state_simpl; rewrite ?Em1, ?Em2; repeat split;
      assumption. }
  destruct E2 as (F1 & F2 & Fa). clearbody s2.
  fold (note_address (vco_cents_last s)). rewrite Fa.
  replace (negb (address_last s =? 255)) with true
    by (symmetry; apply negb_true_iff, Z.eqb_neq; exact Hal).
  replace ((note_address (vco_cents_last s) <? address_last s) ||
           (1 <? wrap8 (note_address (vco_cents_last s) - address_last s)))
    with true
    by (symmetry; rewrite orb_true_iff, !Z.ltb_lt; exact Hbad).
  cbn [andb bind]. eexists; split; [reflexivity|].
  state_simpl. repeat split; assumption.
Qed.

(** C4.  The claim asks that table entries only ever be written at
    strictly increasing indices.  The write inside the new-note branch is
    guarded ([linearity_guard]); the write that ends the sweep is not.  When
    the sweep ends while the note of the previous accepted reading has an
    address that is not above the last written one (the reading fell back
    across a note boundary), the entry at that address is written again,
    and the sweep ends in [DONE], not in [ERROR]. *)
Theorem C4_final_write_repeats_index (time : Z) (s : state) :
  stage s = CalibStage.VCO_1 ->
  stage_vco s = CalibVcoStage.LINEARITY ->
  gate_open time s = true ->
  0 <= vco_cents_buffer_counter s < 256 ->
  stabilized (hz_to_note logf (frequency s)) (vco_cents_buffer s) = true ->
  1200 <= hz_to_note logf (frequency s) <= 12700 ->
  1200 <= vco_cents_last s <= 12700 ->
  hz_to_note logf (frequency s) / 100 = vco_cents_last s / 100 ->
  vco_cents_last s mod 100 <= hz_to_note logf (frequency s) mod 100 ->
  address_last s <> 255 ->
  vco_cents_last s / 100 - 12 <= address_last s ->
  (F32.of_Z (wrap16 (mv_current s + 1)) >=?
   get_current_maximum 0 s * CALIB_VCO_MAX_SCALE)%f32 = true ->
  exists s',
    vco logf time s = Ok s' /\
    stage s' = CalibStage.DONE /\
    address_last s' = address_last s /\
    matrix (calib_matrix_1 s')
    = list_set (matrix (calib_matrix_1 s))
               (Z.to_nat (vco_cents_last s / 100 - 12))
               (vco_note_closest_mv s).
Proof.
  intros Hst Hlin Hgate Hcnt Hstab Hc Hl Hsame Hfar Hal Hidx Hend.
  destruct (vco_accepts time s Hlin Hgate Hcnt Hstab)
    as (s1 & -> & Hs1 & _ & Hm1 & _ & Hmv & Hl1 & Hcl & Ha1 & Hg1 & Hg2 & Hd).
  set (c := hz_to_note logf (frequency s)) in *. clearbody c.
  assert (Hq : 12 <= vco_cents_last s / 100 <= 127).
  { split; [apply Z.div_le_lower_bound; lia|].
    apply Z.lt_succ_r, Z.div_lt_upper_bound; lia. }
  unfold vco_linearity_step. rewrite Hl1.
  replace ((1200 <=? c) && (c <=? 12700) &&
           (1200 <=? vco_cents_last s) && (vco_cents_last s <=? 12700))
    with true
    by (symmetry; rewrite !andb_true_iff, !Z.leb_le; lia).
  rewrite Hsame, Z.eqb_refl, Z.ltb_irrefl.
  replace (c mod 100 <? vco_cents_last s mod 100) with false
    by (symmetry; apply Z.ltb_ge; exact Hfar).
  cbn [andb bind].
  sweep_simpl. rewrite Hs1, Hst, Hmv, Hg1, Hd, Hl1, Hcl, Hm1.
  cbn [CalibStage.eqb CalibStage.tag Z.eqb Pos.eqb].
  change (0 =? 0) with true in *. cbv iota in *.
  rewrite vcc_dac_set, Hend. cbn [orb].
  unfold array_set.
  assert (Hw : wrap16 (wrap8 (vco_cents_last s / 100) - 12)
               = vco_cents_last s / 100 - 12).
  { unfold wrap8, wrap16. rewrite (Z.mod_small (_ / 100)) by lia.
    apply Z.mod_small; lia. }
  rewrite Hw.
  replace ((0 <=? vco_cents_last s / 100 - 12) &&
           (vco_cents_last s / 100 - 12 <? MATRIX_SIZE)) with true
    by (symmetry; rewrite andb_true_iff, Z.leb_le, Z.ltb_lt;
        unfold MATRIX_SIZE; lia).
  cbn [bind]. eexists; split; [reflexivity|].
  state_simpl. repeat split; assumption.
Qed.

End Sweep.

Ltac vm_decide :=
  vm_compute; repeat split; try reflexivity; try (intro; discriminate).

Lemma C10_final_write_out_of_bounds_witness :
  run_vco Libm.logf_ref sweep_entry_samples lower_example = Ok after_entry /\
  vco_cents_last after_entry = 0 /\
  vco Libm.logf_ref 3016 (set_frequency f_high after_entry)
  = OutOfBounds 65524.
Proof.
  split; [vm_compute; reflexivity|]. split; [vm_compute; reflexivity|].
  destruct (C10_final_write_out_of_bounds Libm.logf_ref 3016
              (set_frequency f_high after_entry)
              ltac:(vm_decide) ltac:(vm_decide) ltac:(vm_decide)
              ltac:(vm_decide) ltac:(vm_decide) ltac:(vm_decide)) as [H _].
  rewrite H. vm_compute. reflexivity.
Defined.

Lemma C4_final_write_repeats_index_witness :
  address_last top_of_sweep_example = 100 /\
  exists s',
    vco Libm.logf_ref 9000 top_of_sweep_example = Ok s' /\
    stage s' = CalibStage.DONE /\
    nth 100 (matrix (calib_matrix_1 s')) 0 = 8650.
Proof.
  split; [reflexivity|].
  destruct (C4_final_write_repeats_index Libm.logf_ref 9000
              top_of_sweep_example
              ltac:(vm_decide) ltac:(vm_decide) ltac:(vm_decide)
              ltac:(vm_decide) ltac:(vm_decide) ltac:(vm_decide)
              ltac:(vm_decide) ltac:(vm_decide) ltac:(vm_decide)
              ltac:(vm_decide) ltac:(vm_decide) ltac:(vm_decide))
    as (s' & Hv & Hs & _ & Hm).
  exists s'. split; [exact Hv|]. split; [exact Hs|].
  rewrite Hm. vm_compute. reflexivity.
Defined.
(** ** Rounding of binary32: the integer view *)

Lemma iter_pos_nat {A : Type} (f : A -> A) (p : positive) (x : A) :
  iter_pos f p x = Nat.iter (Pos.to_nat p) f x.
Proof.
  revert x; induction p as [p IH | p IH |]; intro x; cbn [iter_pos].
  - rewrite !IH, Pos2Nat.inj_xI.
    replace (S (2 * Pos.to_nat p)) with (Pos.to_nat p + (Pos.to_nat p + 1))%nat
      by lia.
    rewrite !Nat.iter_add. reflexivity.
  - rewrite !IH, Pos2Nat.inj_xO.
    replace (2 * Pos.to_nat p)%nat with (Pos.to_nat p + Pos.to_nat p)%nat by lia.
    rewrite Nat.iter_add. reflexivity.
  - reflexivity.
Qed.

Lemma shr_1_nonneg (m : Z) (r s : bool) :
  0 <= m ->
  shr_1 (Build_shr_record m r s) = Build_shr_record (m / 2) (Z.odd m) (r || s).
Proof.
  intro Hm. destruct m as [|p|p]; [reflexivity | | lia].
  destruct p as [p|p|]; cbn [shr_1].
  - f_equal. rewrite Pos2Z.inj_xI. Z.div_mod_to_equations; lia.
  - f_equal. rewrite Pos2Z.inj_xO. Z.div_mod_to_equations; lia.
  - reflexivity.
Qed.

Lemma mod_pow2_succ (m k : Z) :
  0 <= m -> 0 <= k ->
  m mod 2 ^ (k + 1) = m mod 2 ^ k + 2 ^ k * ((m / 2 ^ k) mod 2).
Proof.
  intros Hm Hk. rewrite Z.pow_add_r, Z.pow_1_r by lia.
  rewrite Z.rem_mul_r by (try apply Z.pow_nonzero; lia). reflexivity.
Qed.

(** [k + 1] right shifts: quotient, round bit and sticky bit. *)
Lemma shr_iter (k : nat) (m : Z) (r0 s0 : bool) :
  0 <= m ->
  Nat.iter (S k) shr_1 (Build_shr_record m r0 s0)
  = Build_shr_record (m / 2 ^ (Z.of_nat k + 1))
      (Z.odd (m / 2 ^ Z.of_nat k))
      (r0 || s0 || negb (m mod 2 ^ Z.of_nat k =? 0)).
Proof.
  intro Hm. induction k as [|k IH].
  - cbn [Nat.iter]. rewrite shr_1_nonneg by exact Hm.
    change (Z.of_nat 0) with 0. cbn [Z.add]. rewrite Z.pow_0_r, Z.pow_1_r.
    rewrite Z.div_1_r, Z.mod_1_r. cbn. rewrite orb_false_r. reflexivity.
  - change (Nat.iter (S (S k)) shr_1 ?x) with (shr_1 (Nat.iter (S k) shr_1 x)).
    rewrite IH. rewrite shr_1_nonneg by (apply Z.div_pos; [lia|];
                                         apply Z.pow_pos_nonneg; lia).
    rewrite Nat2Z.inj_succ. unfold Z.succ.
    assert (Hp : 0 < 2 ^ (Z.of_nat k + 1)) by (apply Z.pow_pos_nonneg; lia).
    f_equal.
    + rewrite Z.div_div by lia.
      rewrite (Z.pow_add_r 2 (Z.of_nat k + 1) 1), Z.pow_1_r by lia.
      reflexivity.
    + rewrite (mod_pow2_succ m (Z.of_nat k)) by lia.
      assert (Hmod : 0 <= m mod 2 ^ Z.of_nat k)
        by (apply Z.mod_pos_bound, Z.pow_pos_nonneg; lia).
      assert (Hpk : 0 < 2 ^ Z.of_nat k) by (apply Z.pow_pos_nonneg; lia).
      rewrite Zodd_mod.
      destruct (Z.eqb_spec ((m / 2 ^ Z.of_nat k) mod 2) 1) as [E|E].
      * rewrite E. rewrite Z.mul_1_r.
        replace (m mod 2 ^ Z.of_nat k + 2 ^ Z.of_nat k =? 0) with false
          by (symmetry; apply Z.eqb_neq; lia).
        cbn. rewrite !orb_true_r. reflexivity.
      * assert (E0 : (m / 2 ^ Z.of_nat k) mod 2 = 0)
          by (pose proof (Z.mod_pos_bound (m / 2 ^ Z.of_nat k) 2); lia).
        rewrite E0, Z.mul_0_r, Z.add_0_r. cbn [orb].
        destruct r0, s0; reflexivity.
Qed.

Lemma Zdigits2_log2 (m : positive) :
  Zpos (digits2_pos m) = Z.log2 (Zpos m) + 1.
Proof.
  pose proof (digits2_pos_bounds m) as H.
  symmetry. apply Z.add_move_r. apply Z.log2_unique; [lia|].
  replace (Z.succ (Zpos (digits2_pos m) - 1)) with (Zpos (digits2_pos m)) by lia.
  exact H.
Qed.

Lemma log2_bounds (n : Z) :
  0 < n -> 2 ^ Z.log2 n <= n < 2 ^ (Z.log2 n + 1).
Proof. intro H. apply Z.log2_spec in H. exact H. Qed.

(** The rounding decision of [round_nearest_even] after a shift by
    [s >= 1] positions is that of [rne]. *)
Lemma round_after_shift (m : Z) (k : nat) :
  0 <= m ->
  let mrs := Nat.iter (S k) shr_1 (Build_shr_record m false false) in
  round_nearest_even (shr_m mrs) (loc_of_shr_record mrs)
  = rne m (Z.of_nat k + 1).
Proof.
  intros Hm mrs. subst mrs. rewrite shr_iter by exact Hm.
  cbn [shr_m orb]. unfold rne.
  replace (Z.of_nat k + 1 - 1) with (Z.of_nat k) by lia.
  rewrite (mod_pow2_succ m (Z.of_nat k)) by lia.
  assert (Hpk : 0 < 2 ^ Z.of_nat k) by (apply Z.pow_pos_nonneg; lia).
  pose proof (Z.mod_pos_bound m (2 ^ Z.of_nat k) Hpk) as Hmod.
  set (lowbits := m mod 2 ^ Z.of_nat k) in *.
  set (q := m / 2 ^ (Z.of_nat k + 1)).
  rewrite Zodd_mod.
  pose proof (Z.mod_pos_bound (m / 2 ^ Z.of_nat k) 2 ltac:(lia)) as Hbit.
  destruct (Z.eqb_spec ((m / 2 ^ Z.of_nat k) mod 2) 1) as [E|E].
  - rewrite E, Z.mul_1_r.
    destruct (Z.eqb_spec lowbits 0) as [L|L]; cbn [negb loc_of_shr_record
                                                  round_nearest_even].
    + rewrite L, Z.add_0_l, Z.ltb_irrefl, Z.eqb_refl. cbn [orb andb].
      rewrite <- Z.negb_odd. destruct (Z.odd q); reflexivity.
    + replace (2 ^ Z.of_nat k <? lowbits + 2 ^ Z.of_nat k) with true
        by (symmetry; apply Z.ltb_lt; lia).
      reflexivity.
  - assert (E0 : (m / 2 ^ Z.of_nat k) mod 2 = 0) by lia.
    rewrite E0, Z.mul_0_r, Z.add_0_r.
    replace (2 ^ Z.of_nat k <? lowbits) with false
      by (symmetry; apply Z.ltb_ge; lia).
    replace (lowbits =? 2 ^ Z.of_nat k) with false
      by (symmetry; apply Z.eqb_neq; lia).
    cbn [orb andb].
    destruct (Z.eqb_spec lowbits 0); reflexivity.
Qed.

Lemma shr_pos (mrs : shr_record) (e : Z) (p : positive) :
  shr mrs e (Zpos p) = (Nat.iter (Pos.to_nat p) shr_1 mrs, e + Zpos p).
Proof. unfold shr. rewrite iter_pos_nat. reflexivity. Qed.

Lemma fexp_normal (z : Z) : -125 <= z -> fexp F32.prec F32.emax z = z - 24.
Proof. intro H. unfold fexp, emin, F32.prec, F32.emax. lia. Qed.

Lemma rne_bounds (n s : Z) :
  0 <= n -> 1 <= s -> n / 2 ^ s <= rne n s <= n / 2 ^ s + 1.
Proof.
  intros Hn Hs. unfold rne. destruct (_ || _); lia.
Qed.

(** [binary_round_aux] on a mantissa of at least 24 digits. *)
Lemma binary_round_aux_spec (sx : bool) (m : positive) (e : Z) :
  24 <= Z.log2 (Zpos m) + 1 ->
  -125 <= e ->
  e + Z.log2 (Zpos m) + 1 <= 127 ->
  binary_round_aux F32.prec F32.emax sx (Zpos m) e loc_Exact
  = finite_spec sx (Zpos m) e.
Proof.
  intros Hd He Hmax.
  pose proof (log2_bounds (Zpos m) ltac:(lia)) as Hlog.
  set (d := Z.log2 (Zpos m) + 1) in *.
  unfold binary_round_aux, shr_fexp, finite_spec, round_mant.
  cbn [Zdigits2 shr_record_of_loc]. rewrite Zdigits2_log2. fold d.
  rewrite fexp_normal by lia.
  replace (d + e - 24 - e) with (d - 24) by lia.
  destruct (Z.leb_spec d 24) as [Hle|Hgt].
  - (* exactly 24 digits: nothing to shift *)
    assert (d = 24) by lia.
    replace (d - 24) with 0 by lia. cbn [shr shr_m loc_of_shr_record
                                         round_nearest_even Zdigits2].
    rewrite Zdigits2_log2. fold d. rewrite fexp_normal by lia.
    replace (d + e - 24 - e) with 0 by lia. cbn [shr shr_m].
    replace (24 - d) with 0 by lia.
    rewrite Z.pow_0_r, Z.mul_1_r, Z.add_0_r. cbn [Z.to_pos].
    replace (e <=? F32.emax - F32.prec) with true
      by (symmetry; apply Z.leb_le; unfold F32.emax, F32.prec; lia).
    reflexivity.
  - (* more than 24 digits: shift by d - 24 and round *)
    destruct (d - 24) as [|p|p] eqn:Hs; try lia.
    rewrite shr_pos.
    destruct (Pos.to_nat p) as [|k] eqn:Hk; [lia|].
    assert (Hpk : Zpos p = Z.of_nat k + 1) by lia.
    pose proof (round_after_shift (Zpos m) k ltac:(lia)) as Hr.
    cbv zeta in Hr. rewrite Hr. rewrite <- Hpk.
    pose proof (rne_bounds (Zpos m) (Zpos p) ltac:(lia) ltac:(lia)) as Hb.
    assert (Hq : 2 ^ 23 <= Zpos m / 2 ^ Zpos p < 2 ^ 24).
    { assert (Hpp : 0 < 2 ^ Zpos p) by (apply Z.pow_pos_nonneg; lia).
      assert (E1 : 2 ^ (d - 1) = 2 ^ 23 * 2 ^ Zpos p)
        by (rewrite <- Z.pow_add_r by lia; f_equal; lia).
      assert (E2 : 2 ^ d = 2 ^ 24 * 2 ^ Zpos p)
        by (rewrite <- Z.pow_add_r by lia; f_equal; lia).
      replace (Z.log2 (Zpos m)) with (d - 1) in Hlog by lia.
      replace (d - 1 + 1) with d in Hlog by lia.
      split.
      - apply Z.div_le_lower_bound; lia.
      - apply Z.div_lt_upper_bound; lia. }
    set (q := rne (Zpos m) (Zpos p)) in *.
    change (2 ^ 23) with 8388608 in *. change (2 ^ 24) with 16777216 in *.
    destruct (Z.eqb_spec q 16777216) as [Hcarry|Hnc].
    + (* the mantissa rounded up to 2^24 *)
      rewrite Hcarry. cbn [Zdigits2 digits2_pos Pos.succ].
      rewrite fexp_normal by lia.
      replace (25 + (e + Zpos p) - 24 - (e + Zpos p)) with 1 by lia.
      cbn [shr iter_pos shr_1 shr_record_of_loc shr_m].
      replace (e + Zpos p + 1 <=? F32.emax - F32.prec) with true
        by (symmetry; apply Z.leb_le; unfold F32.emax, F32.prec; lia).
      cbn [Z.to_pos]. f_equal. lia.
    + assert (Hq2 : 8388608 <= q < 16777216) by lia.
      destruct q as [|qp|qp] eqn:Eq; try lia.
      cbn [Zdigits2]. rewrite Zdigits2_log2.
      assert (Hlq : Z.log2 (Zpos qp) = 23).
      { apply Z.log2_unique; [lia|]. cbn. lia. }
      rewrite Hlq. rewrite fexp_normal by lia.
      replace (23 + 1 + (e + Zpos p) - 24 - (e + Zpos p)) with 0 by lia.
      cbn [shr shr_record_of_loc shr_m].
      replace (e + Zpos p <=? F32.emax - F32.prec) with true
        by (symmetry; apply Z.leb_le; unfold F32.emax, F32.prec; lia).
      reflexivity.
Qed.

Lemma pos_iter_xO (m d : positive) :
  Zpos (Pos.iter xO m d) = Zpos m * 2 ^ Zpos d.
Proof.
  induction d as [|d IH] using Pos.peano_ind.
  - cbn [Pos.iter]. rewrite Pos2Z.inj_xO. cbn. lia.
  - rewrite Pos.iter_succ, Pos2Z.inj_xO, IH, Pos2Z.inj_succ.
    rewrite Z.pow_succ_r by lia. lia.
Qed.

Lemma shl_align_spec (mx : positive) (ex ex' : Z) :
  ex' <= ex ->
  Zpos (fst (shl_align mx ex ex')) = Zpos mx * 2 ^ (ex - ex') /\
  snd (shl_align mx ex ex') = ex'.
Proof.
  intro H. unfold shl_align.
  destruct (ex' - ex) as [|p|p] eqn:E; try lia; cbn [fst snd].
  - replace (ex - ex') with 0 by lia. rewrite Z.pow_0_r. lia.
  - rewrite pos_iter_xO. replace (ex - ex') with (Zpos p) by lia. easy.
Qed.

Lemma shl_align_id (mx : positive) (ex ex' : Z) :
  ex <= ex' -> shl_align mx ex ex' = (mx, ex).
Proof.
  intro H. unfold shl_align.
  destruct (ex' - ex) as [|p|p] eqn:E; try lia; reflexivity.
Qed.

Lemma log2_shift (n c : Z) :
  0 < n -> 0 <= c -> Z.log2 (n * 2 ^ c) = Z.log2 n + c.
Proof. intros; rewrite Z.log2_mul_pow2 by lia; lia. Qed.

(** [binary_round] in the normal range. *)
Lemma binary_round_spec (sx : bool) (m : positive) (e : Z) :
  -100 <= e ->
  e + Z.log2 (Zpos m) + 1 <= 127 ->
  binary_round F32.prec F32.emax sx m e = finite_spec sx (Zpos m) e.
Proof.
  intros He Hmax. unfold binary_round.
  rewrite Zdigits2_log2.
  pose proof (Z.log2_nonneg (Zpos m)) as Hl.
  set (d := Z.log2 (Zpos m) + 1) in *.
  rewrite fexp_normal by lia.
  destruct (Z.leb_spec 24 d) as [Hlong|Hshort].
  - rewrite shl_align_id by lia.
    apply binary_round_aux_spec; fold d; lia.
  - destruct (shl_align_spec m e (d + e - 24) ltac:(lia)) as [Hm' He'].
    destruct (shl_align m e (d + e - 24)) as [mz ez]. cbn [fst snd] in *.
    subst ez. replace (e - (d + e - 24)) with (24 - d) in Hm' by lia.
    assert (Hlz : Z.log2 (Zpos mz) = 23).
    { rewrite Hm', log2_shift by lia. lia. }
    rewrite binary_round_aux_spec by (rewrite ?Hlz; lia).
    unfold finite_spec, round_mant. rewrite Hlz. fold d.
    replace (23 + 1 <=? 24) with true by reflexivity.
    replace (d <=? 24) with true by (symmetry; apply Z.leb_le; lia).
    replace (24 - (23 + 1)) with 0 by lia.
    rewrite Z.pow_0_r, Z.mul_1_r, Hm'. f_equal. lia.
Qed.

(** What [F32.norm] computes. *)
Lemma norm_is_spec (n e : Z) :
  -100 <= e <= 20 -> Z.abs n < 2 ^ 100 ->
  F32.norm n e = norm_spec n e.
Proof.
  intros He Hn. unfold F32.norm, binary_normalize, norm_spec.
  destruct n as [|p|p]; [reflexivity| |];
    apply binary_round_spec; try lia;
    (assert (Hl : Z.log2 (Zpos p) < 100)
       by (apply Z.log2_lt_pow2; [lia | cbn [Z.abs] in Hn; lia]); lia).
Qed.

Lemma norm_spec_pos (n e : Z) :
  0 < n -> norm_spec n e = finite_spec false n e.
Proof. destruct n; try lia; reflexivity. Qed.

Lemma norm_spec_neg (n e : Z) :
  n < 0 -> norm_spec n e = finite_spec true (- n) e.
Proof. destruct n; try lia; reflexivity. Qed.

Lemma pow2_pos (k : Z) : 0 <= k -> 0 < 2 ^ k.
Proof. intro; apply Z.pow_pos_nonneg; lia. Qed.

Lemma rne_scale (n s c : Z) :
  0 <= n -> 1 <= s -> 0 <= c -> rne (n * 2 ^ c) (s + c) = rne n s.
Proof.
  intros Hn Hs Hc. unfold rne.
  pose proof (pow2_pos c Hc) as Hpc. pose proof (pow2_pos s ltac:(lia)) as Hps.
  pose proof (pow2_pos (s - 1) ltac:(lia)) as Hph.
  rewrite (Z.pow_add_r 2 s c) by lia.
  rewrite Z.div_mul_cancel_r by lia.
  rewrite Z.mul_mod_distr_r by lia.
  replace (s + c - 1) with (s - 1 + c) by lia.
  rewrite (Z.pow_add_r 2 (s - 1) c) by lia.
  set (r := n mod 2 ^ s). set (h := 2 ^ (s - 1)) in *. set (P := 2 ^ c) in *.
  replace (h * P <? r * P) with (h <? r).
  2:{ destruct (Z.ltb_spec h r); symmetry;
      [apply Z.ltb_lt | apply Z.ltb_ge]; nia. }
  replace (r * P =? h * P) with (r =? h).
  2:{ destruct (Z.eqb_spec r h); symmetry;
      [apply Z.eqb_eq | apply Z.eqb_neq]; nia. }
  reflexivity.
Qed.

Lemma rne_exact (a s : Z) :
  0 <= a -> 1 <= s -> rne (a * 2 ^ s) s = a.
Proof.
  intros Ha Hs. unfold rne.
  pose proof (pow2_pos s ltac:(lia)) as Hps.
  pose proof (pow2_pos (s - 1) ltac:(lia)) as Hph.
  rewrite Z.div_mul, Z.mod_mul by lia.
  replace (2 ^ (s - 1) <? 0) with false by (symmetry; apply Z.ltb_ge; lia).
  replace (0 =? 2 ^ (s - 1)) with false by (symmetry; apply Z.eqb_neq; lia).
  reflexivity.
Qed.

(** Trailing zero bits move from the mantissa into the exponent. *)
Lemma round_mant_scale (n c : Z) :
  0 < n -> 0 <= c ->
  round_mant (n * 2 ^ c) = (fst (round_mant n), snd (round_mant n) + c).
Proof.
  intros Hn Hc. unfold round_mant. rewrite log2_shift by lia.
  pose proof (Z.log2_nonneg n) as Hl.
  pose proof (log2_bounds n Hn) as Hb.
  set (d := Z.log2 n + 1) in *.
  replace (Z.log2 n + c + 1) with (d + c) by lia.
  destruct (Z.leb_spec d 24) as [Hshort|Hlong].
  - destruct (Z.leb_spec (d + c) 24) as [Hs2|Hl2]; cbn [fst snd].
    + f_equal; [|lia]. rewrite <- Z.mul_assoc, <- Z.pow_add_r by lia.
      f_equal. f_equal. lia.
    + (* the zeros make the mantissa longer than 24 bits *)
      replace (n * 2 ^ c) with (n * 2 ^ (24 - d) * 2 ^ (d + c - 24))
        by (rewrite <- Z.mul_assoc, <- Z.pow_add_r by lia; f_equal; f_equal; lia).
      rewrite rne_exact by (try apply Z.mul_nonneg_nonneg;
                            try apply Z.pow_nonneg; lia).
      assert (Hlt : n * 2 ^ (24 - d) < 2 ^ 24).
      { replace 24 with (d + (24 - d)) at 2 by lia.
        rewrite Z.pow_add_r by lia.
        apply Z.mul_lt_mono_pos_r; [apply pow2_pos; lia|].
        lia. }
      replace (n * 2 ^ (24 - d) =? 2 ^ 24) with false
        by (symmetry; apply Z.eqb_neq; lia).
      f_equal. lia.
  - replace (d + c <=? 24) with false by (symmetry; apply Z.leb_gt; lia).
    replace (d + c - 24) with (d - 24 + c) by lia.
    rewrite rne_scale by lia.
    destruct (rne n (d - 24) =? 2 ^ 24); cbn [fst snd]; f_equal; lia.
Qed.

Lemma finite_spec_scale (s : bool) (n e c : Z) :
  0 < n -> 0 <= c -> finite_spec s (n * 2 ^ c) (e - c) = finite_spec s n e.
Proof.
  intros Hn Hc. unfold finite_spec. rewrite round_mant_scale by assumption.
  destruct (round_mant n) as [m k]. cbn [fst snd]. f_equal. lia.
Qed.

(** The float of [n * 2^e] depends on the value only. *)
Lemma norm_spec_scale (n e c : Z) :
  0 <= c -> norm_spec (n * 2 ^ c) (e - c) = norm_spec n e.
Proof.
  intro Hc. pose proof (pow2_pos c Hc) as Hp.
  destruct (Z.lt_trichotomy n 0) as [Hneg|[->|Hpos]].
  - rewrite !norm_spec_neg by nia.
    replace (- (n * 2 ^ c)) with (- n * 2 ^ c) by lia.
    apply finite_spec_scale; lia.
  - reflexivity.
  - rewrite !norm_spec_pos by nia. apply finite_spec_scale; lia.
Qed.

(** *** Values *)

Lemma two_neq_0 : ~ (2 # 1 == 0)%Q.
Proof. intro H; discriminate H. Qed.

Lemma Qpow2_pos (e : Z) : (0 < (2 # 1) ^ e)%Q.
Proof. apply Qpower_0_lt. reflexivity. Qed.

Lemma val_scale (n e c : Z) :
  0 <= c -> (val (n * 2 ^ c) (e - c) == val n e)%Q.
Proof.
  intro Hc. unfold val.
  rewrite inject_Z_mult, Zpower_Qpower by exact Hc.
  change (inject_Z 2) with (2 # 1).
  replace e with ((e - c) + c) at 2 by lia.
  rewrite (Qpower_plus (2 # 1) (e - c) c two_neq_0).
  ring.
Qed.

Lemma val_inj (n1 n2 e : Z) : (val n1 e == val n2 e)%Q -> n1 = n2.
Proof.
  unfold val. intro H.
  apply Qmult_inj_r in H; [|pose proof (Qpow2_pos e) as Hp; intro E;
                            rewrite E in Hp; discriminate Hp].
  apply inject_Z_injective. exact H.
Qed.

Lemma val_le (n1 n2 e : Z) : n1 <= n2 -> (val n1 e <= val n2 e)%Q.
Proof.
  intro H. unfold val. apply Qmult_le_compat_r.
  - rewrite <- Zle_Qle. exact H.
  - apply Qlt_le_weak, Qpow2_pos.
Qed.

(** The float of [n * 2^e] depends on the rational [n * 2^e] only. *)
Lemma norm_spec_val (n1 e1 n2 e2 : Z) :
  (val n1 e1 == val n2 e2)%Q -> norm_spec n1 e1 = norm_spec n2 e2.
Proof.
  intro H. destruct (Z.le_ge_cases e1 e2) as [Hle|Hge].
  - rewrite <- (val_scale n2 e2 (e2 - e1)) in H by lia.
    replace (e2 - (e2 - e1)) with e1 in H by lia.
    apply val_inj in H. subst n1.
    rewrite <- (norm_spec_scale n2 e2 (e2 - e1)) by lia.
    f_equal. lia.
  - rewrite <- (val_scale n1 e1 (e1 - e2)) in H by lia.
    replace (e1 - (e1 - e2)) with e2 in H by lia.
    apply val_inj in H. subst n2.
    rewrite <- (norm_spec_scale n1 e1 (e1 - e2)) by lia.
    f_equal. lia.
Qed.

(** What [F32.norm] computes, with the range stated on the value. *)
Lemma norm_spec_intro (n e : Z) :
  -100 <= e -> (n <> 0 -> e + Z.log2 (Z.abs n) + 1 <= 127) ->
  F32.norm n e = norm_spec n e.
Proof.
  intros He Hn. unfold F32.norm, binary_normalize, norm_spec.
  destruct n as [|p|p]; [reflexivity| |];
    apply binary_round_spec; try lia;
    (specialize (Hn ltac:(lia)); cbn [Z.abs] in Hn; lia).
Qed.

(** The mantissa [round_mant] returns has exactly 24 bits, and with its
    exponent it is the rounded integer. *)
Lemma round_mant_spec (n : Z) :
  0 < n ->
  let '(m, k) := round_mant n in
  2 ^ 23 <= m < 2 ^ 24 /\
  -23 <= k <= Z.log2 n - 22 /\
  (k <= 0 -> m = n * 2 ^ (- k) /\ RN n = n) /\
  (0 <= k -> m * 2 ^ k = RN n).
Proof.
  intro Hn.
  assert (HRN : RN n = let '(m, k) := round_mant n in
                       if 0 <=? k then m * 2 ^ k else n)
    by (destruct n; try lia; reflexivity).
  rewrite HRN; clear HRN.
  unfold round_mant.
  pose proof (Z.log2_nonneg n) as Hl.
  pose proof (log2_bounds n Hn) as Hb.
  remember (Z.log2 n) as l eqn:El. clear El.
  change (2 ^ 23) with 8388608. change (2 ^ 24) with 16777216.
  destruct (Z.leb_spec (l + 1) 24) as [Hshort|Hlong].
  - assert (E1 : 2 ^ l * 2 ^ (24 - (l + 1)) = 8388608)
      by (rewrite <- Z.pow_add_r by lia;
          replace (l + (24 - (l + 1))) with 23 by lia; reflexivity).
    assert (E2 : 2 ^ (l + 1) * 2 ^ (24 - (l + 1)) = 16777216)
      by (rewrite <- Z.pow_add_r by lia;
          replace (l + 1 + (24 - (l + 1))) with 24 by lia; reflexivity).
    pose proof (pow2_pos (24 - (l + 1)) ltac:(lia)) as Hp.
    split; [nia|]. split; [lia|]. split.
    + intros _. split; [f_equal; f_equal; lia|].
      destruct (Z.leb_spec 0 (l + 1 - 24)) as [H0|H0]; [|reflexivity].
      replace (l + 1 - 24) with 0 by lia. replace (24 - (l + 1)) with 0 by lia.
      rewrite Z.pow_0_r. lia.
    + intro Hk. replace (0 <=? l + 1 - 24) with true
        by (symmetry; apply Z.leb_le; lia).
      reflexivity.
  - pose proof (pow2_pos (l + 1 - 24) ltac:(lia)) as Hp.
    assert (E1 : 2 ^ l = 8388608 * 2 ^ (l + 1 - 24)).
    { change 8388608 with (2 ^ 23). rewrite <- Z.pow_add_r by lia.
      f_equal. lia. }
    assert (E2 : 2 ^ (l + 1) = 16777216 * 2 ^ (l + 1 - 24)).
    { change 16777216 with (2 ^ 24). rewrite <- Z.pow_add_r by lia.
      f_equal. lia. }
    assert (Hq : 8388608 <= n / 2 ^ (l + 1 - 24) < 16777216).
    { split; [apply Z.div_le_lower_bound | apply Z.div_lt_upper_bound]; lia. }
    pose proof (rne_bounds n (l + 1 - 24) ltac:(lia) ltac:(lia)) as Hr.
    destruct (Z.eqb_spec (rne n (l + 1 - 24)) 16777216) as [Hc|Hc].
    + split; [lia|]. split; [lia|]. split; [lia|].
      intros _. replace (0 <=? l + 1 - 24 + 1) with true
        by (symmetry; apply Z.leb_le; lia).
      reflexivity.
    + split; [lia|]. split; [lia|]. split; [lia|].
      intros _. replace (0 <=? l + 1 - 24) with true
        by (symmetry; apply Z.leb_le; lia).
      reflexivity.
Qed.

Lemma RN_opp (n : Z) : RN (- n) = - RN n.
Proof.
  destruct n; cbn [Z.opp RN]; try reflexivity;
    destruct (round_mant _) as [m k]; destruct (0 <=? k); lia.
Qed.

Lemma RN_pos_short (n : Z) : 0 < n < 2 ^ 24 -> RN n = n.
Proof.
  intro H.
  assert (Hl : Z.log2 n < 24) by (apply Z.log2_lt_pow2; lia).
  pose proof (Z.log2_nonneg n) as Hl0.
  destruct n as [|p|p]; try lia. unfold RN, round_mant.
  replace (Z.log2 (Zpos p) + 1 <=? 24) with true
    by (symmetry; apply Z.leb_le; lia).
  destruct (Z.leb_spec 0 (Z.log2 (Zpos p) + 1 - 24)) as [H0|H0]; [|reflexivity].
  replace (Z.log2 (Zpos p) + 1 - 24) with 0 by lia.
  replace (24 - (Z.log2 (Zpos p) + 1)) with 0 by lia.
  rewrite Z.pow_0_r. lia.
Qed.

Lemma RN_short (n : Z) : Z.abs n < 2 ^ 24 -> RN n = n.
Proof.
  intro H. destruct (Z.lt_trichotomy n 0) as [Hn|[->|Hn]].
  - replace n with (- - n) at 1 by lia.
    rewrite RN_opp, RN_pos_short by lia. lia.
  - reflexivity.
  - apply RN_pos_short. lia.
Qed.

Lemma val_opp (n e : Z) : (val (- n) e == - val n e)%Q.
Proof. unfold val. rewrite inject_Z_opp. ring. Qed.

(** The value of the float of [n * 2^e] is [RN n * 2^e]. *)
Lemma to_Q_finite_spec (s : bool) (n e : Z) :
  0 < n ->
  (F32.to_Q (finite_spec s n e) == val (if s then - RN n else RN n) e)%Q.
Proof.
  intro Hn. pose proof (round_mant_spec n Hn) as Hs.
  unfold finite_spec. destruct (round_mant n) as [m k].
  destruct Hs as (Hm & Hk & Hneg & Hpos).
  change (2 ^ 23) with 8388608 in Hm.
  destruct m as [|mp|mp]; try lia. cbn [Z.to_pos F32.to_Q].
  assert (E : (val (Zpos mp) (e + k) == val (RN n) e)%Q).
  { destruct (Z.le_ge_cases 0 k) as [H0|H0].
    - rewrite <- (Hpos H0).
      rewrite <- (val_scale (Zpos mp) (e + k) k) by lia.
      replace (e + k - k) with e by lia. reflexivity.
    - destruct (Hneg ltac:(lia)) as [Em ->]. rewrite Em.
      rewrite <- (val_scale n e (- k)) by lia.
      replace (e - - k) with (e + k) by lia. reflexivity. }
  destruct s.
  - change (Zneg mp) with (- Zpos mp).
    fold (val (- Zpos mp) (e + k)). rewrite !val_opp, E. reflexivity.
  - exact E.
Qed.

Lemma to_Q_norm_spec (n e : Z) :
  (F32.to_Q (norm_spec n e) == val (RN n) e)%Q.
Proof.
  destruct (Z.lt_trichotomy n 0) as [Hn|[->|Hn]].
  - rewrite norm_spec_neg by lia. rewrite to_Q_finite_spec by lia.
    rewrite <- RN_opp. replace (- - n) with n by lia. reflexivity.
  - cbn. unfold val. ring.
  - rewrite norm_spec_pos by lia. apply to_Q_finite_spec. lia.
Qed.
(** *** Monotonicity of rounding *)

Lemma rne_mono (n1 n2 s : Z) :
  0 <= n1 <= n2 -> 1 <= s -> rne n1 s <= rne n2 s.
Proof.
  intros Hn Hs. unfold rne.
  pose proof (pow2_pos s ltac:(lia)) as Hp.
  pose proof (Z.div_mod n1 (2 ^ s) ltac:(lia)) as D1.
  pose proof (Z.div_mod n2 (2 ^ s) ltac:(lia)) as D2.
  pose proof (Z.mod_pos_bound n1 (2 ^ s) Hp) as B1.
  pose proof (Z.mod_pos_bound n2 (2 ^ s) Hp) as B2.
  assert (Hq : n1 / 2 ^ s <= n2 / 2 ^ s) by (apply Z.div_le_mono; lia).
  remember (n1 / 2 ^ s) as q1. remember (n2 / 2 ^ s) as q2.
  remember (n1 mod 2 ^ s) as r1. remember (n2 mod 2 ^ s) as r2.
  remember (2 ^ (s - 1)) as h. remember (2 ^ s) as P.
  clear Heqq1 Heqq2 Heqr1 Heqr2.
  destruct (Z.eq_dec q1 q2) as [E|E].
  - subst q2. assert (r1 <= r2) by nia.
    destruct (Z.ltb_spec h r1), (Z.ltb_spec h r2),
      (Z.eqb_spec r1 h), (Z.eqb_spec r2 h), (Z.odd q1); cbn; lia.
  - destruct ((h <? r1) || (r1 =? h) && Z.odd q1),
      ((h <? r2) || (r2 =? h) && Z.odd q2); lia.
Qed.

Lemma round_mant_mono (n1 n2 : Z) :
  0 < n1 <= n2 -> lex_le (round_mant n1) (round_mant n2).
Proof.
  intros Hn. unfold lex_le, round_mant.
  pose proof (Z.log2_nonneg n1) as L1. pose proof (Z.log2_nonneg n2) as L2.
  pose proof (log2_bounds n1 ltac:(lia)) as B1.
  pose proof (log2_bounds n2 ltac:(lia)) as B2.
  assert (L12 : Z.log2 n1 <= Z.log2 n2) by (apply Z.log2_le_mono; lia).
  remember (Z.log2 n1) as l1 eqn:E1. remember (Z.log2 n2) as l2 eqn:E2.
  clear E1 E2.
  destruct (Z.leb_spec (l1 + 1) 24) as [S1|S1];
    destruct (Z.leb_spec (l2 + 1) 24) as [S2|S2]; cbn [fst snd].
  - destruct (Z.eq_dec l1 l2) as [->|]; [right|left; lia].
    split; [reflexivity|]. pose proof (pow2_pos (24 - (l2 + 1)) ltac:(lia)). nia.
  - left. destruct (rne n2 (l2 + 1 - 24) =? 2 ^ 24); cbn [snd]; lia.
  - lia.
  - pose proof (rne_bounds n1 (l1 + 1 - 24) ltac:(lia) ltac:(lia)) as R1.
    pose proof (rne_bounds n2 (l2 + 1 - 24) ltac:(lia) ltac:(lia)) as R2.
    pose proof (pow2_pos (l1 + 1 - 24) ltac:(lia)) as P1.
    pose proof (pow2_pos (l2 + 1 - 24) ltac:(lia)) as P2.
    assert (F1 : 2 ^ l1 = 8388608 * 2 ^ (l1 + 1 - 24)).
    { change 8388608 with (2 ^ 23). rewrite <- Z.pow_add_r by lia.
      f_equal. lia. }
    assert (F2 : 2 ^ l2 = 8388608 * 2 ^ (l2 + 1 - 24)).
    { change 8388608 with (2 ^ 23). rewrite <- Z.pow_add_r by lia.
      f_equal. lia. }
    assert (Q1 : 8388608 <= n1 / 2 ^ (l1 + 1 - 24))
      by (apply Z.div_le_lower_bound; lia).
    assert (Q2 : 8388608 <= n2 / 2 ^ (l2 + 1 - 24))
      by (apply Z.div_le_lower_bound; lia).
    change (2 ^ 24) with 16777216. change (2 ^ 23) with 8388608.
    destruct (Z.eq_dec l1 l2) as [->|Hl].
    + pose proof (rne_mono n1 n2 (l2 + 1 - 24) ltac:(lia) ltac:(lia)) as M.
      assert (U2 : rne n2 (l2 + 1 - 24) <= 16777216).
      { assert (n2 / 2 ^ (l2 + 1 - 24) < 16777216); [|lia].
        apply Z.div_lt_upper_bound; [lia|].
        replace (2 ^ (l2 + 1)) with (2 * 2 ^ l2) in B2
          by (rewrite Z.pow_add_r by lia; lia). lia. }
      destruct (Z.eqb_spec (rne n1 (l2 + 1 - 24)) 16777216),
        (Z.eqb_spec (rne n2 (l2 + 1 - 24)) 16777216); cbn [fst snd]; lia.
    + destruct (Z.eqb_spec (rne n1 (l1 + 1 - 24)) 16777216),
        (Z.eqb_spec (rne n2 (l2 + 1 - 24)) 16777216); cbn [fst snd]; lia.
Qed.

Lemma round_mant_pos (n : Z) :
  0 < n -> exists m k, round_mant n = (Zpos m, k) /\
                       8388608 <= Zpos m < 16777216.
Proof.
  intro Hn. pose proof (round_mant_spec n Hn) as Hs.
  destruct (round_mant n) as [m k]. destruct Hs as (Hm & _).
  change (2 ^ 23) with 8388608 in Hm. change (2 ^ 24) with 16777216 in Hm.
  destruct m as [|p|p]; try lia. exists p, k. split; [reflexivity|lia].
Qed.

Lemma RN_mono_pos (n1 n2 : Z) : 0 < n1 <= n2 -> RN n1 <= RN n2.
Proof.
  intro Hn.
  pose proof (round_mant_mono n1 n2 Hn) as Hl.
  pose proof (round_mant_spec n1 ltac:(lia)) as S1.
  pose proof (round_mant_spec n2 ltac:(lia)) as S2.
  destruct (round_mant n1) as [m1 k1], (round_mant n2) as [m2 k2].
  unfold lex_le in Hl; cbn [fst snd] in Hl.
  change (2 ^ 23) with 8388608 in *. change (2 ^ 24) with 16777216 in *.
  destruct S1 as (M1 & K1 & N1 & P1), S2 as (M2 & K2 & N2 & P2).
  destruct (Z.le_gt_cases k1 0) as [H1|H1], (Z.le_gt_cases k2 0) as [H2|H2].
  - destruct (N1 H1) as [_ ->], (N2 H2) as [_ ->]. lia.
  - destruct (N1 H1) as [E1 ->]. rewrite <- (P2 ltac:(lia)).
    pose proof (pow2_pos (- k1) ltac:(lia)).
    assert (2 ^ 1 <= 2 ^ k2) by (apply Z.pow_le_mono_r; lia).
    change (2 ^ 1) with 2 in *. nia.
  - lia.
  - rewrite <- (P1 ltac:(lia)), <- (P2 ltac:(lia)).
    pose proof (pow2_pos k1 ltac:(lia)).
    destruct Hl as [Hl|[-> Hl]]; [|nia].
    assert (2 ^ (k1 + 1) <= 2 ^ k2) by (apply Z.pow_le_mono_r; lia).
    rewrite Z.pow_add_r in * by lia. change (2 ^ 1) with 2 in *. nia.
Qed.

Lemma RN_pos (n : Z) : 0 < n -> 0 < RN n.
Proof.
  intro Hn. pose proof (round_mant_spec n Hn) as S1.
  destruct (round_mant n) as [m k].
  change (2 ^ 23) with 8388608 in *.
  destruct S1 as (M & K & N & P).
  destruct (Z.le_gt_cases k 0) as [H|H].
  - destruct (N H) as [_ ->]. lia.
  - rewrite <- (P ltac:(lia)). pose proof (pow2_pos k ltac:(lia)). nia.
Qed.

(** Rounding to 24 bits is monotone. *)
Lemma RN_mono (n1 n2 : Z) : n1 <= n2 -> RN n1 <= RN n2.
Proof.
  intro Hn.
  destruct (Z.lt_trichotomy n1 0) as [H1|[->|H1]];
    destruct (Z.lt_trichotomy n2 0) as [H2|[->|H2]]; try lia.
  - pose proof (RN_mono_pos (- n2) (- n1) ltac:(lia)) as H.
    rewrite !RN_opp in H. lia.
  - pose proof (RN_pos (- n1) ltac:(lia)) as H. rewrite RN_opp in H.
    cbn [RN]. lia.
  - pose proof (RN_pos (- n1) ltac:(lia)) as H. rewrite RN_opp in H.
    pose proof (RN_pos n2 H2). lia.
  - pose proof (RN_pos n2 H2). cbn [RN]. lia.
  - apply RN_mono_pos. lia.
Qed.

Lemma RN_scale_pos (n c : Z) : 0 < n -> 0 <= c -> RN (n * 2 ^ c) = RN n * 2 ^ c.
Proof.
  intros Hn Hc. pose proof (pow2_pos c Hc) as Hp.
  pose proof (round_mant_spec n Hn) as S1.
  pose proof (round_mant_spec (n * 2 ^ c) ltac:(nia)) as S2.
  rewrite round_mant_scale in S2 by lia.
  destruct (round_mant n) as [m k]. cbn [fst snd] in S2.
  destruct S1 as (M & K & N & P), S2 as (_ & _ & N2 & P2).
  destruct (Z.le_gt_cases (k + c) 0) as [H|H].
  - destruct (N2 H) as [_ ->]. destruct (N ltac:(lia)) as [_ ->]. reflexivity.
  - rewrite <- (P2 ltac:(lia)).
    destruct (Z.le_gt_cases k 0) as [H'|H'].
    + destruct (N H') as [-> ->].
      rewrite <- Z.mul_assoc, <- Z.pow_add_r by lia. do 2 f_equal. lia.
    + rewrite <- (P ltac:(lia)), Z.pow_add_r by lia. ring.
Qed.

Lemma RN_scale (n c : Z) : 0 <= c -> RN (n * 2 ^ c) = RN n * 2 ^ c.
Proof.
  intro Hc. destruct (Z.lt_trichotomy n 0) as [H|[->|H]].
  - replace (n * 2 ^ c) with (- (- n * 2 ^ c)) by ring.
    rewrite RN_opp, RN_scale_pos, RN_opp by lia. ring.
  - reflexivity.
  - apply RN_scale_pos; lia.
Qed.

(** Integers of at most 24 bits, scaled, are their own rounding. *)
Lemma RN_exact (a c : Z) :
  Z.abs a <= 2 ^ 24 -> 0 <= c -> RN (a * 2 ^ c) = a * 2 ^ c.
Proof.
  intros Ha Hc. rewrite RN_scale by lia. f_equal.
  change (2 ^ 24) with 16777216 in Ha.
  destruct (Z.eq_dec (Z.abs a) 16777216) as [E|E].
  - destruct (Z.abs_eq_or_opp a) as [E'|E']; rewrite E in E'.
    + subst a. reflexivity.
    + replace a with (- 16777216) by lia. reflexivity.
  - apply RN_short. change (2 ^ 24) with 16777216. lia.
Qed.

(** *** Shape and order of rounded floats *)

Lemma finite_spec_view (s : bool) (n e : Z) :
  0 < n ->
  exists m k, round_mant n = (Zpos m, k) /\
              finite_spec s n e = S754_finite s m (e + k) /\
              8388608 <= Zpos m < 16777216.
Proof.
  intro Hn. destruct (round_mant_pos n Hn) as (m & k & E & Hm).
  exists m, k. unfold finite_spec. rewrite E. cbn [Z.to_pos]. auto.
Qed.

Lemma finite_spec_canon (s : bool) (m : positive) (e : Z) :
  8388608 <= Zpos m < 16777216 ->
  finite_spec s (Zpos m) e = S754_finite s m e.
Proof.
  intro Hm. unfold finite_spec, round_mant.
  assert (El : Z.log2 (Zpos m) = 23).
  { apply Z.log2_unique; [lia|]. change (2 ^ 23) with 8388608.
    change (2 ^ (23 + 1)) with 16777216. lia. }
  rewrite El. cbn [Z.leb Z.add Z.compare Pos.compare Pos.compare_cont Z.sub
                   Z.opp Z.pos_sub Pos.add Pos.succ].
  change (23 + 1 <=? 24) with true. cbv iota.
  change (24 - (23 + 1)) with 0. change (23 + 1 - 24) with 0.
  rewrite Z.pow_0_r, Z.mul_1_r, Z.add_0_r. reflexivity.
Qed.

Lemma is_finite_norm_spec (n e : Z) : F32.is_finite (norm_spec n e) = true.
Proof.
  destruct n as [|p|p]; [reflexivity| |];
    cbn [norm_spec]; unfold finite_spec;
    destruct (round_mant _); reflexivity.
Qed.

Lemma pos_compare_cont_le (m1 m2 : positive) :
  Zpos m1 <= Zpos m2 -> PosDef.Pos.compare_cont Eq m1 m2 <> Gt.
Proof.
  intro H. change (PosDef.Pos.compare_cont Eq m1 m2) with (Pos.compare m1 m2).
  rewrite Pos.compare_gt_iff. lia.
Qed.

(** The firmware's [<=] agrees with the order of the integers rounded. *)
Lemma leb_norm_spec (n1 n2 e : Z) :
  0 <= n1 <= n2 -> F32.leb (norm_spec n1 e) (norm_spec n2 e) = true.
Proof.
  intro Hn.
  destruct (Z.eq_dec n2 0) as [->|H2].
  { replace n1 with 0 by lia. reflexivity. }
  destruct (finite_spec_view false n2 e ltac:(lia)) as (m2 & k2 & R2 & E2 & M2).
  rewrite (norm_spec_pos n2) by lia. rewrite E2.
  destruct (Z.eq_dec n1 0) as [->|H1]; [reflexivity|].
  destruct (finite_spec_view false n1 e ltac:(lia)) as (m1 & k1 & R1 & E1 & M1).
  rewrite (norm_spec_pos n1) by lia. rewrite E1.
  pose proof (round_mant_mono n1 n2 ltac:(lia)) as Hl.
  rewrite R1, R2 in Hl. unfold lex_le in Hl. cbn [fst snd] in Hl.
  unfold F32.leb, SFleb, SFcompare.
  destruct Hl as [Hl|[-> Hl]].
  - replace (e + k1 ?= e + k2) with Lt
      by (symmetry; apply Z.compare_lt_iff; lia).
    reflexivity.
  - rewrite Z.compare_refl.
    pose proof (pos_compare_cont_le m1 m2 Hl).
    destruct (PosDef.Pos.compare_cont Eq m1 m2); congruence.
Qed.

(** *** The operations on rounded floats *)

Lemma val_add (a b e : Z) : (val (a + b) e == val a e + val b e)%Q.
Proof. unfold val. rewrite inject_Z_plus. ring. Qed.

Lemma val_sub (a b e : Z) : (val (a - b) e == val a e - val b e)%Q.
Proof. unfold val, Z.sub. rewrite inject_Z_plus, inject_Z_opp. ring. Qed.

Lemma val_mul (a b e1 e2 : Z) :
  (val (a * b) (e1 + e2) == val a e1 * val b e2)%Q.
Proof.
  unfold val. rewrite inject_Z_mult, Qpower_plus by exact two_neq_0. ring.
Qed.

Lemma val_zero (e : Z) : (val 0 e == 0)%Q.
Proof. unfold val. ring. Qed.

Lemma val_shift (z e e' : Z) :
  e' <= e -> (val (z * 2 ^ (e - e')) e' == val z e)%Q.
Proof.
  intro H. rewrite <- (val_scale z e (e - e')) by lia.
  replace (e - (e - e')) with e' by lia. reflexivity.
Qed.

Lemma norm_spec_sgn (s : bool) (m : positive) (e : Z) :
  norm_spec (sgn_mant s m) e = finite_spec s (Zpos m) e.
Proof. destruct s; reflexivity. Qed.

(** A float with a full mantissa is the rounding of its own value. *)
Lemma norm_spec_canon (s : bool) (m : positive) (e : Z) :
  8388608 <= Zpos m < 16777216 ->
  norm_spec (sgn_mant s m) e = S754_finite s m e.
Proof. intro H. rewrite norm_spec_sgn. apply finite_spec_canon, H. Qed.

Lemma log2_abs_bound (n b : Z) :
  0 < b -> Z.abs n < 2 ^ b -> Z.log2 (Z.abs n) < b.
Proof.
  intros Hb H. destruct (Z.eq_dec n 0) as [->|Hn].
  - cbn. lia.
  - apply Z.log2_lt_pow2; lia.
Qed.

Lemma shl_align_sgn (s : bool) (m : positive) (e ez : Z) :
  ez <= e ->
  cond_Zopp s (Zpos (fst (shl_align m e ez))) = sgn_mant s m * 2 ^ (e - ez).
Proof.
  intro H. destruct (shl_align_spec m e ez H) as [-> _].
  destruct s; cbn [cond_Zopp sgn_mant]; [|reflexivity].
  change (Zneg m) with (- Zpos m). ring.
Qed.

Lemma sgn_mant_abs (s : bool) (m : positive) : Z.abs (sgn_mant s m) = Zpos m.
Proof. destruct s; reflexivity. Qed.

Lemma aligned_sum_bound (zx zy ex ey : Z) (op : Z -> Z -> Z) :
  (forall a b, Z.abs (op a b) <= Z.abs a + Z.abs b) ->
  Z.abs zx < 2 ^ 24 -> Z.abs zy < 2 ^ 24 ->
  let ez := Z.min ex ey in
  let N := op (zx * 2 ^ (ex - ez)) (zy * 2 ^ (ey - ez)) in
  N <> 0 -> ez + Z.log2 (Z.abs N) + 1 <= 25 + Z.max ex ey.
Proof.
  intros Hop Hx Hy ez N HN.
  assert (Z.log2 (Z.abs N) < 25 + Z.max ex ey - ez); [|lia].
  apply log2_abs_bound; [lia|].
  pose proof (Hop (zx * 2 ^ (ex - ez)) (zy * 2 ^ (ey - ez))) as H. fold N in H.
  rewrite !Z.abs_mul in H.
  pose proof (pow2_pos (ex - ez) ltac:(lia)) as P1.
  pose proof (pow2_pos (ey - ez) ltac:(lia)) as P2.
  rewrite !(Z.abs_eq (2 ^ _)) in H by lia.
  assert (M1 : 2 ^ (ex - ez) <= 2 ^ (Z.max ex ey - ez))
    by (apply Z.pow_le_mono_r; lia).
  assert (M2 : 2 ^ (ey - ez) <= 2 ^ (Z.max ex ey - ez))
    by (apply Z.pow_le_mono_r; lia).
  replace (25 + Z.max ex ey - ez) with (25 + (Z.max ex ey - ez)) by lia.
  rewrite Z.pow_add_r by lia. change (2 ^ 25) with (2 * 2 ^ 24).
  pose proof (pow2_pos (Z.max ex ey - ez) ltac:(lia)).
  nia.
Qed.

Lemma add_finite (sx sy : bool) (mx my : positive) (ex ey n e : Z) :
  -100 <= ex <= 100 -> -100 <= ey <= 100 ->
  Zpos mx < 2 ^ 24 -> Zpos my < 2 ^ 24 ->
  (val n e == val (sgn_mant sx mx) ex + val (sgn_mant sy my) ey)%Q ->
  F32.add (S754_finite sx mx ex) (S754_finite sy my ey) = norm_spec n e.
Proof.
  intros Hex Hey Hx Hy Hv. unfold F32.add, SFadd.
  rewrite !shl_align_sgn by lia.
  fold (F32.norm (sgn_mant sx mx * 2 ^ (ex - Z.min ex ey) +
                  sgn_mant sy my * 2 ^ (ey - Z.min ex ey)) (Z.min ex ey)).
  rewrite norm_spec_intro.
  - apply norm_spec_val. rewrite val_add, !val_shift by lia.
    symmetry. exact Hv.
  - lia.
  - intro HN.
    pose proof (aligned_sum_bound (sgn_mant sx mx) (sgn_mant sy my) ex ey
                  Z.add ltac:(intros; lia)
                  ltac:(rewrite sgn_mant_abs; lia)
                  ltac:(rewrite sgn_mant_abs; lia) HN).
    lia.
Qed.

Lemma sub_finite (sx sy : bool) (mx my : positive) (ex ey n e : Z) :
  -100 <= ex <= 100 -> -100 <= ey <= 100 ->
  Zpos mx < 2 ^ 24 -> Zpos my < 2 ^ 24 ->
  (val n e == val (sgn_mant sx mx) ex - val (sgn_mant sy my) ey)%Q ->
  F32.sub (S754_finite sx mx ex) (S754_finite sy my ey) = norm_spec n e.
Proof.
  intros Hex Hey Hx Hy Hv. unfold F32.sub, SFsub.
  rewrite !shl_align_sgn by lia.
  fold (F32.norm (sgn_mant sx mx * 2 ^ (ex - Z.min ex ey) -
                  sgn_mant sy my * 2 ^ (ey - Z.min ex ey)) (Z.min ex ey)).
  rewrite norm_spec_intro.
  - apply norm_spec_val. rewrite val_sub, !val_shift by lia.
    symmetry. exact Hv.
  - lia.
  - intro HN.
    pose proof (aligned_sum_bound (sgn_mant sx mx) (sgn_mant sy my) ex ey
                  Z.sub ltac:(intros; lia)
                  ltac:(rewrite sgn_mant_abs; lia)
                  ltac:(rewrite sgn_mant_abs; lia) HN).
    lia.
Qed.

Lemma mul_finite (sx sy : bool) (mx my : positive) (ex ey n e : Z) :
  8388608 <= Zpos mx < 16777216 -> 8388608 <= Zpos my < 16777216 ->
  -60 <= ex <= 20 -> -60 <= ey <= 20 ->
  (val n e == val (sgn_mant sx mx) ex * val (sgn_mant sy my) ey)%Q ->
  F32.mul (S754_finite sx mx ex) (S754_finite sy my ey) = norm_spec n e.
Proof.
  intros Hx Hy Hex Hey Hv. unfold F32.mul, SFmul.
  assert (Hl : 46 <= Z.log2 (Zpos (mx * my)) < 48).
  { split.
    - apply Z.log2_le_pow2; [lia|]. change (2 ^ 46) with (8388608 * 8388608).
      rewrite Pos2Z.inj_mul. nia.
    - apply Z.log2_lt_pow2; [lia|]. change (2 ^ 48) with (16777216 * 16777216).
      rewrite Pos2Z.inj_mul. nia. }
  rewrite binary_round_aux_spec by lia.
  rewrite <- norm_spec_sgn. apply norm_spec_val.
  rewrite Hv, <- val_mul.
  replace (sgn_mant (xorb sx sy) (mx * my))
    with (sgn_mant sx mx * sgn_mant sy my) by (destruct sx, sy; reflexivity).
  reflexivity.
Qed.

Lemma one_eq : F32.one = S754_finite false 8388608 (-23).
Proof. reflexivity. Qed.

Lemma div_core_one (m : positive) (e : Z) :
  8388608 <= Zpos m < 16777216 -> -100 <= e <= 100 ->
  SFdiv_core_binary F32.prec F32.emax (Zpos m) e 8388608 (-23)
  = (2 * Zpos m, e - 1, loc_Exact).
Proof.
  intros Hm He. unfold SFdiv_core_binary.
  assert (El : Z.log2 (Zpos m) = 23).
  { apply Z.log2_unique; [lia|]. change (2 ^ 23) with 8388608.
    change (2 ^ (23 + 1)) with 16777216. lia. }
  change (Zdigits2 (Zpos m)) with (Zpos (digits2_pos m)).
  rewrite Zdigits2_log2, El.
  change (Zdigits2 8388608) with 24.
  replace (23 + 1 + e - (24 + -23)) with (e + 23) by lia.
  rewrite fexp_normal by lia.
  replace (Z.min (e + 23 - 24) (e - -23)) with (e - 1) by lia.
  replace (e - -23 - (e - 1)) with 24 by lia.
  cbv zeta. cbv iota.
  rewrite Z.shiftl_mul_pow2 by lia.
  change (2 ^ 24) with (2 * 8388608).
  rewrite Z.mul_assoc.
  change (IntDef.Z.div_eucl (Zpos m * 2 * 8388608) 8388608)
    with (Z.div_eucl (Zpos m * 2 * 8388608) 8388608).
  pose proof (Z_div_mod (Zpos m * 2 * 8388608) 8388608 ltac:(lia)) as H.
  destruct (Z.div_eucl (Zpos m * 2 * 8388608) 8388608) as [q r].
  destruct H as [H Hr].
  assert (r = 0 /\ q = 2 * Zpos m) as [-> ->] by lia.
  reflexivity.
Qed.

Lemma div_one_finite (s : bool) (m : positive) (e : Z) :
  8388608 <= Zpos m < 16777216 -> -100 <= e <= 100 ->
  F32.div (S754_finite s m e) F32.one = S754_finite s m e.
Proof.
  intros Hm He. rewrite one_eq. unfold F32.div, SFdiv.
  rewrite div_core_one by assumption.
  rewrite xorb_false_r.
  change (2 * Zpos m) with (Zpos (m~0)).
  assert (El : Z.log2 (Zpos m~0) = 24).
  { apply Z.log2_unique; [lia|]. change (2 ^ 24) with 16777216.
    change (2 ^ (24 + 1)) with 33554432. lia. }
  rewrite binary_round_aux_spec by lia.
  replace (Zpos m~0) with (Zpos m * 2 ^ 1) by lia.
  replace e with (e - 1 + 1) at 2 by lia.
  replace (e - 1) with (e - 1 + 1 - 1) at 1 by lia.
  rewrite finite_spec_scale by lia.
  apply finite_spec_canon, Hm.
Qed.

(** Shape of a rounded nonzero value. *)
Lemma norm_spec_view (n e : Z) :
  n <> 0 ->
  exists s m k,
    norm_spec n e = S754_finite s m k /\
    8388608 <= Zpos m < 16777216 /\
    e - 23 <= k <= e + Z.log2 (Z.abs n) - 22 /\
    (val (sgn_mant s m) k == val (RN n) e)%Q.
Proof.
  intro Hn.
  assert (H : exists s, norm_spec n e = finite_spec s (Z.abs n) e).
  { destruct n as [|p|p]; [lia|exists false|exists true]; reflexivity. }
  destruct H as [s Hs].
  pose proof (round_mant_spec (Z.abs n) ltac:(lia)) as Hr.
  destruct (finite_spec_view s (Z.abs n) e ltac:(lia)) as (m & k & R & E & M).
  rewrite R in Hr. destruct Hr as (_ & Hk & _).
  exists s, m, (e + k). rewrite Hs, E.
  split; [reflexivity|]. split; [exact M|]. split; [lia|].
  rewrite <- to_Q_norm_spec, Hs, E. reflexivity.
Qed.

Lemma val_RN_zero (e : Z) : (val (RN 0) e == 0)%Q.
Proof. apply val_zero. Qed.

Lemma val_eq_zero (n e : Z) : (val n e == 0)%Q -> n = 0.
Proof. intro H. apply (val_inj n 0 e). rewrite H, val_zero. reflexivity. Qed.

Lemma sgn_mant_opp (s : bool) (m : positive) :
  sgn_mant (negb s) m = - sgn_mant s m.
Proof. destruct s; reflexivity. Qed.

Lemma sub_norm_spec (n1 e1 n2 e2 n e : Z) :
  -77 <= e1 -> e1 + Z.log2 (Z.abs n1) <= 100 ->
  -77 <= e2 -> e2 + Z.log2 (Z.abs n2) <= 100 ->
  (val n e == val (RN n1) e1 - val (RN n2) e2)%Q ->
  F32.sub (norm_spec n1 e1) (norm_spec n2 e2) = norm_spec n e.
Proof.
  intros He1 Hl1 He2 Hl2 Hv.
  destruct (Z.eq_dec n1 0) as [->|H1]; destruct (Z.eq_dec n2 0) as [->|H2].
  - rewrite !val_RN_zero in Hv. rewrite (val_eq_zero n e); [reflexivity|].
    rewrite Hv. ring.
  - destruct (norm_spec_view n2 e2 H2) as (s & m & k & -> & Hm & Hk & Hq).
    cbn [norm_spec F32.sub SFsub]. rewrite <- norm_spec_canon by exact Hm.
    apply norm_spec_val. rewrite Hv, sgn_mant_opp, val_opp, Hq, val_RN_zero.
    ring.
  - destruct (norm_spec_view n1 e1 H1) as (s & m & k & -> & Hm & Hk & Hq).
    cbn [norm_spec F32.sub SFsub]. rewrite <- norm_spec_canon by exact Hm.
    apply norm_spec_val. rewrite Hv, Hq, val_RN_zero. ring.
  - destruct (norm_spec_view n1 e1 H1) as (s1 & m1 & k1 & -> & Hm1 & Hk1 & Hq1).
    destruct (norm_spec_view n2 e2 H2) as (s2 & m2 & k2 & -> & Hm2 & Hk2 & Hq2).
    apply sub_finite; try lia. rewrite Hq1, Hq2. exact Hv.
Qed.

Lemma add_norm_spec (n1 e1 n2 e2 n e : Z) :
  -77 <= e1 -> e1 + Z.log2 (Z.abs n1) <= 100 ->
  -77 <= e2 -> e2 + Z.log2 (Z.abs n2) <= 100 ->
  (val n e == val (RN n1) e1 + val (RN n2) e2)%Q ->
  F32.add (norm_spec n1 e1) (norm_spec n2 e2) = norm_spec n e.
Proof.
  intros He1 Hl1 He2 Hl2 Hv.
  destruct (Z.eq_dec n1 0) as [->|H1]; destruct (Z.eq_dec n2 0) as [->|H2].
  - rewrite !val_RN_zero in Hv. rewrite (val_eq_zero n e); [reflexivity|].
    rewrite Hv. ring.
  - destruct (norm_spec_view n2 e2 H2) as (s & m & k & -> & Hm & Hk & Hq).
    cbn [norm_spec F32.add SFadd]. rewrite <- norm_spec_canon by exact Hm.
    apply norm_spec_val. rewrite Hv, Hq, val_RN_zero. ring.
  - destruct (norm_spec_view n1 e1 H1) as (s & m & k & -> & Hm & Hk & Hq).
    cbn [norm_spec F32.add SFadd]. rewrite <- norm_spec_canon by exact Hm.
    apply norm_spec_val. rewrite Hv, Hq, val_RN_zero. ring.
  - destruct (norm_spec_view n1 e1 H1) as (s1 & m1 & k1 & -> & Hm1 & Hk1 & Hq1).
    destruct (norm_spec_view n2 e2 H2) as (s2 & m2 & k2 & -> & Hm2 & Hk2 & Hq2).
    apply add_finite; try lia. rewrite Hq1, Hq2. exact Hv.
Qed.

Lemma mul_norm_spec (n1 e1 n2 e2 n e : Z) :
  n1 <> 0 -> n2 <> 0 ->
  -37 <= e1 -> e1 + Z.log2 (Z.abs n1) <= 42 ->
  -37 <= e2 -> e2 + Z.log2 (Z.abs n2) <= 42 ->
  (val n e == val (RN n1) e1 * val (RN n2) e2)%Q ->
  F32.mul (norm_spec n1 e1) (norm_spec n2 e2) = norm_spec n e.
Proof.
  intros H1 H2 He1 Hl1 He2 Hl2 Hv.
  destruct (norm_spec_view n1 e1 H1) as (s1 & m1 & k1 & -> & Hm1 & Hk1 & Hq1).
  destruct (norm_spec_view n2 e2 H2) as (s2 & m2 & k2 & -> & Hm2 & Hk2 & Hq2).
  apply mul_finite; try lia. rewrite Hq1, Hq2. exact Hv.
Qed.

Lemma mul_zero_l (n e : Z) :
  exists s, F32.mul (S754_zero false) (norm_spec n e) = S754_zero s.
Proof.
  destruct (Z.eq_dec n 0) as [->|H]; [exists false; reflexivity|].
  destruct (norm_spec_view n e H) as (s & m & k & -> & _).
  exists s. reflexivity.
Qed.

Lemma mul_zero_r (n e : Z) :
  exists s, F32.mul (norm_spec n e) (S754_zero false) = S754_zero s.
Proof.
  destruct (Z.eq_dec n 0) as [->|H]; [exists false; reflexivity|].
  destruct (norm_spec_view n e H) as (s & m & k & -> & _).
  exists s. destruct s; reflexivity.
Qed.

Lemma div_one_norm_spec (n e : Z) :
  -77 <= e -> e + Z.log2 (Z.abs n) <= 100 ->
  F32.div (norm_spec n e) F32.one = norm_spec n e.
Proof.
  intros He Hl. destruct (Z.eq_dec n 0) as [->|H]; [reflexivity|].
  destruct (norm_spec_view n e H) as (s & m & k & -> & Hm & Hk & _).
  apply div_one_finite; [exact Hm|lia].
Qed.

Lemma add_zero_l (s : bool) (n e : Z) :
  F32.add (S754_zero s) (norm_spec n e) = norm_spec n e.
Proof.
  destruct (Z.eq_dec n 0) as [->|H]; [destruct s; reflexivity|].
  destruct (norm_spec_view n e H) as (s' & m & k & -> & _). reflexivity.
Qed.

Lemma of_Z_spec (n : Z) : Z.abs n < 2 ^ 100 -> F32.of_Z n = norm_spec n 0.
Proof.
  intro H. apply (norm_spec_intro n 0); [lia|].
  intros _. pose proof (log2_abs_bound n 100 ltac:(lia) H). lia.
Qed.

Lemma log2_small (n b : Z) : 0 < b -> Z.abs n < 2 ^ b -> Z.log2 (Z.abs n) <= b.
Proof. intros Hb H. pose proof (log2_abs_bound n b Hb H). lia. Qed.

(** *** The interpolation of [map_f] between two whole notes

    The query sits [j / 2^20] of a note above the lower one of the pair; the
    table holds [lo] and [hi] for the pair. *)
Lemma interpolate_value (j k lo hi : Z) :
  0 <= j <= 2 ^ 20 -> 0 <= k <= 254 ->
  0 <= lo < 65536 -> 0 <= hi < 65536 ->
  F32.add
    (F32.div (F32.mul (norm_spec j (-20))
                      (F32.sub (F32.of_Z hi) (F32.of_Z lo)))
             (F32.sub (F32.of_Z (k + 1)) (F32.of_Z k)))
    (F32.of_Z lo)
  = norm_spec (RN (j * (hi - lo)) + lo * 2 ^ 20) (-20).
Proof.
  intros Hj Hk Hlo Hhi. change (2 ^ 20) with 1048576 in *.
  assert (B16 : forall v, 0 <= v < 65536 -> Z.abs v < 2 ^ 16)
    by (intros; change (2 ^ 16) with 65536; lia).
  assert (L16 : forall v, 0 <= v < 65536 -> Z.log2 (Z.abs v) <= 16)
    by (intros; apply log2_small; [lia|auto]).
  assert (R16 : forall v, Z.abs v < 65536 -> RN v = v)
    by (intros; apply RN_short; change (2 ^ 24) with 16777216; lia).
  rewrite !of_Z_spec
    by (apply Z.lt_trans with (2 ^ 16); [apply B16; lia | reflexivity]).
  rewrite (sub_norm_spec hi 0 lo 0 (hi - lo) 0);
    [ | lia | pose proof (L16 hi); lia | lia | pose proof (L16 lo); lia
      | rewrite !R16 by lia; apply val_sub ].
  rewrite (sub_norm_spec (k + 1) 0 k 0 1 0);
    [ | lia | pose proof (L16 (k + 1)); lia | lia | pose proof (L16 k); lia
      | rewrite !R16 by lia; rewrite <- val_sub;
        replace (k + 1 - k) with 1 by lia; reflexivity ].
  change (norm_spec 1 0) with F32.one.
  assert (Ld : Z.log2 (Z.abs (hi - lo)) <= 16)
    by (apply log2_small; [lia|]; change (2 ^ 16) with 65536; lia).
  assert (Lj : Z.log2 (Z.abs j) <= 21)
    by (apply log2_small; [lia|]; change (2 ^ 21) with 2097152; lia).
  assert (Elo : norm_spec lo 0 = norm_spec (lo * 1048576) (-20)).
  { apply norm_spec_val. symmetry. apply (val_scale lo 0 20). lia. }
  destruct (Z.eq_dec (j * (hi - lo)) 0) as [E0|E0].
  - rewrite E0. cbn [RN Z.add].
    assert (Hz : exists s, F32.mul (norm_spec j (-20)) (norm_spec (hi - lo) 0)
                           = S754_zero s).
    { destruct (Z.eq_dec j 0) as [->|Hj0]; [apply mul_zero_l|].
      replace (hi - lo) with 0 by nia. apply mul_zero_r. }
    destruct Hz as [s ->].
    change (F32.div (S754_zero s) F32.one) with (S754_zero (xorb s false)).
    rewrite add_zero_l. exact Elo.
  - assert (Hjd : Z.log2 (Z.abs (j * (hi - lo))) <= 37).
    { apply log2_small; [lia|]. rewrite Z.abs_mul.
      change (2 ^ 37) with (2097152 * 65536). nia. }
    rewrite (mul_norm_spec j (-20) (hi - lo) 0 (j * (hi - lo)) (-20));
      [ | nia | nia | lia | lia | lia | lia
        | rewrite !RN_short by (change (2 ^ 24) with 16777216; lia);
          rewrite <- val_mul; reflexivity ].
    rewrite div_one_norm_spec by lia.
    apply add_norm_spec; try lia.
    + pose proof (L16 lo). lia.
    + rewrite (R16 lo) by lia. rewrite val_add.
      rewrite (val_scale lo 0 20) by lia. reflexivity.
Qed.

(** *** Facts checked for every query *)

Lemma all_from_spec (f : Z -> bool) (n : nat) (lo : Z) :
  all_from f lo n = true ->
  forall c, lo <= c < lo + Z.of_nat n -> f c = true.
Proof.
  revert lo. induction n as [|n IH]; intros lo H c Hc; [lia|].
  cbn [all_from] in H. apply andb_true_iff in H. destruct H as [H0 H1].
  destruct (Z.eq_dec c lo) as [->|Hne]; [exact H0|].
  apply (IH (lo + 1) H1). lia.
Qed.

Lemma F32_eqb_eq (x y : F32.float) : F32.eqb x y = true -> x = y.
Proof.
  destruct x as [s|s| |s m e], y as [s'|s'| |s' m' e']; cbn [F32.eqb];
    try discriminate; try reflexivity.
  - intro H. apply eqb_prop in H. congruence.
  - intro H. apply eqb_prop in H. congruence.
  - intro H. apply andb_true_iff in H. destruct H as [H He].
    apply andb_true_iff in H. destruct H as [Hs Hm].
    apply eqb_prop in Hs. apply Pos.eqb_eq in Hm. apply Z.eqb_eq in He.
    congruence.
Qed.

Lemma is_at_spec (p : Z) (x : F32.float) :
  is_at p x = true -> x = norm_spec (mant_at p x) (- p) /\ 0 <= mant_at p x.
Proof.
  destruct x as [[|]|s| |[|] m e]; cbn [is_at mant_at]; try discriminate.
  - intros _. split; [reflexivity|lia].
  - intro H. apply andb_true_iff in H. destruct H as [H Hd].
    apply andb_true_iff in H. destruct H as [Hlo Hhi].
    apply Z.leb_le in Hlo. apply Z.ltb_lt in Hhi.
    rewrite <- (norm_spec_canon false m e) by lia. cbn [sgn_mant].
    destruct (Z.leb_spec 0 (e + p)) as [Hp|Hp].
    + split; [|pose proof (pow2_pos (e + p) Hp); nia].
      apply norm_spec_val.
      rewrite <- (val_scale (Zpos m) e (e + p)) by lia.
      replace (e - (e + p)) with (- p) by lia. reflexivity.
    + cbn [orb] in Hd. apply Z.eqb_eq in Hd.
      pose proof (pow2_pos (- (e + p)) ltac:(lia)) as Hpow.
      pose proof (Z.div_mod (Zpos m) (2 ^ (- (e + p))) ltac:(lia)) as Hdm.
      rewrite Hd, Z.add_0_r in Hdm.
      split; [|apply Z.div_pos; lia].
      apply norm_spec_val.
      rewrite <- (val_scale (Zpos m / 2 ^ (- (e + p))) (- p) (- (e + p)))
        by lia.
      replace (- p - - (e + p)) with e by lia.
      rewrite Z.mul_comm, <- Hdm. reflexivity.
Qed.

Lemma note_of_ok_all : all_from note_of_ok 1200 (Z.to_nat 11501) = true.
Proof. vm_cast_no_check (eq_refl true). Qed.

Lemma note_of_facts (c : Z) :
  1200 <= c <= 12700 ->
  F32.trunc (note_of c) = c / 100 /\
  (note_of c - F32.of_Z (c / 100))%f32
    = norm_spec (offset20 c (c / 100)) (-20) /\
  0 <= offset20 c (c / 100) /\
  Z.abs (100 * offset20 c (c / 100) - c mod 100 * 2 ^ 20) <= 400 /\
  (c mod 100 = 0 ->
   offset20 c (c / 100) = 0 /\
   (note_of c - F32.of_Z (c / 100 - 1))%f32 = F32.one).
Proof.
  intro Hc.
  pose proof (all_from_spec _ _ _ note_of_ok_all c) as H.
  rewrite Z2Nat.id in H by lia. specialize (H ltac:(lia)).
  unfold note_of_ok in H. cbv zeta in H.
  fold (offset20 c (c / 100)) in H.
  apply andb_true_iff in H. destruct H as [H H4].
  apply andb_true_iff in H. destruct H as [H H3].
  apply andb_true_iff in H. destruct H as [H1 H2].
  apply Z.eqb_eq in H1. apply Z.leb_le in H3.
  destruct (is_at_spec _ _ H2) as [E2 P2]. fold (offset20 c (c / 100)) in E2, P2.
  change (- (20)) with (-20) in E2.
  split; [exact H1|]. split; [exact E2|]. split; [exact P2|].
  split; [exact H3|].
  intro Hm. rewrite Hm in H4. cbn [Z.eqb] in H4.
  apply andb_true_iff in H4. destruct H4 as [H4 H5].
  apply Z.eqb_eq in H4. apply F32_eqb_eq in H5. split; assumption.
Qed.

(** *** The pair of notes [note_to_mv_cal] interpolates between *)

Lemma no_calibration_false (m : calibMatrix) (st : CalibStage.t) :
  no_calibration m st = false ->
  note_min m <= 127 /\ note_max m <= 127 /\ note_min m <> 0 /\
  note_min m < note_max m.
Proof.
  unfold no_calibration. intro H.
  do 4 (apply orb_false_iff in H; destruct H as [H _]).
  apply orb_false_iff in H. destruct H as [H HD].
  apply orb_false_iff in H. destruct H as [H HC].
  apply orb_false_iff in H. destruct H as [HA HB].
  apply Z.ltb_ge in HA. apply Z.ltb_ge in HB. apply Z.eqb_neq in HC.
  apply Z.leb_gt in HD. lia.
Qed.

Lemma wrap8_small (x : Z) : 0 <= x < 256 -> wrap8 x = x.
Proof. intro H. unfold wrap8. apply Z.mod_small. lia. Qed.

Lemma wrap16_small (x : Z) : 0 <= x < 65536 -> wrap16 x = x.
Proof. intro H. unfold wrap16. apply Z.mod_small. lia. Qed.

Lemma array_get_entry (m : calibMatrix) (n : Z) :
  12 <= n <= 127 ->
  array_get MATRIX_SIZE (matrix m) (wrap16 (n - 12)) = Ok (entry m n).
Proof.
  intro H. rewrite wrap16_small by lia. unfold array_get, MATRIX_SIZE.
  replace ((0 <=? n - 12) && (n - 12 <? 128 - 12)) with true; [reflexivity|].
  symmetry. apply andb_true_iff. split; [apply Z.leb_le|apply Z.ltb_lt]; lia.
Qed.

Lemma note_to_mv_cal_bracket (channel cents : Z) (s : state) :
  let m := channel_matrix channel s in
  no_calibration m (stage s) = false ->
  12 <= note_min m ->
  1200 <= cents <= 12700 ->
  note_to_mv_cal channel cents s =
  Ok (map_f (note_of cents)
            (F32.of_Z (bracket m cents)) (F32.of_Z (bracket m cents + 1))
            (F32.of_Z (entry m (bracket m cents)))
            (F32.of_Z (entry m (bracket m cents + 1)))).
Proof.
  intros m Hcal Hmin Hc. unfold note_to_mv_cal. fold m.
  replace ((cents <? 1200) || (12700 <? cents)) with false
    by (symmetry; apply orb_false_iff; split; apply Z.ltb_ge; lia).
  rewrite Hcal. fold (note_of cents).
  destruct (no_calibration_false _ _ Hcal) as (B1 & B2 & B3 & B4).
  destruct (note_of_facts cents Hc) as (Ht & _).
  assert (Hk : 12 <= cents / 100 <= 127).
  { split; [apply Z.div_le_lower_bound | apply Z.div_le_upper_bound]; lia. }
  unfold float_to_uint8. rewrite Ht, (wrap8_small (cents / 100)) by lia.
  assert (E : (if note_max m <=? cents / 100
               then (wrap8 (note_max m - 1), note_max m)
               else if cents / 100 <=? note_min m
                    then (note_min m, wrap8 (note_min m + 1))
                    else (cents / 100, wrap8 (cents / 100 + 1)))
              = (bracket m cents, bracket m cents + 1)).
  { unfold bracket.
    destruct (Z.leb_spec (note_max m) (cents / 100));
      [|destruct (Z.leb_spec (cents / 100) (note_min m))];
      rewrite wrap8_small by lia; f_equal; lia. }
  rewrite E.
  assert (Hb : 12 <= bracket m cents <= 126) by (unfold bracket; lia).
  rewrite !array_get_entry by lia. reflexivity.
Qed.

Lemma entry_range (m : calibMatrix) (n : Z) :
  matrix_wf m = true -> 0 <= entry m n < 65536.
Proof.
  intro H. apply andb_true_iff in H. destruct H as [_ H].
  rewrite forallb_forall in H. unfold entry.
  destruct (nth_in_or_default (Z.to_nat (n - 12)) (matrix m) 0) as [Hin| ->];
    [|lia].
  apply H in Hin. apply andb_true_iff in Hin. destruct Hin as [H0 H1].
  apply Z.leb_le in H0. apply Z.ltb_lt in H1. lia.
Qed.

Lemma mant_at_one : mant_at 20 F32.one = 2 ^ 20.
Proof. reflexivity. Qed.

Lemma one_at_20 : F32.one = norm_spec (2 ^ 20) (-20).
Proof. reflexivity. Qed.

(** The offset of a query inside the table above the lower note of its
    pair. *)
Lemma offset_in_table (m : calibMatrix) (c : Z) :
  12 <= note_min m -> note_min m < note_max m -> note_max m <= 127 ->
  note_min m * 100 <= c <= note_max m * 100 ->
  let k := bracket m c in
  (note_of c - F32.of_Z k)%f32 = norm_spec (offset20 c k) (-20) /\
  0 <= offset20 c k <= 2 ^ 20 /\
  (c < note_max m * 100 -> k = c / 100 /\
     Z.abs (100 * offset20 c k - c mod 100 * 2 ^ 20) <= 400) /\
  (c = note_max m * 100 -> offset20 c k = 2 ^ 20) /\
  (c = k * 100 -> offset20 c k = 0).
Proof.
  intros Hmin Hlt Hmax Hc k.
  destruct (note_of_facts c ltac:(lia)) as (_ & Et & P & B & Z0).
  pose proof (Z.mod_pos_bound c 100 ltac:(lia)) as Hr.
  pose proof (Z.div_mod c 100 ltac:(lia)) as Hdm.
  change (2 ^ 20) with 1048576 in *.
  destruct (Z.eq_dec c (note_max m * 100)) as [Etop|Ntop].
  - assert (Hd : c / 100 = note_max m)
      by (rewrite Etop; apply Z.div_mul; lia).
    assert (Hm : c mod 100 = 0) by (rewrite Etop; apply Z.mod_mul; lia).
    assert (Ek : k = c / 100 - 1) by (unfold k, bracket; lia).
    destruct (Z0 Hm) as [_ E1].
    rewrite Ek. unfold offset20. rewrite E1.
    change (mant_at 20 F32.one) with 1048576.
    split; [reflexivity|]. split; [lia|]. split; [lia|]. split; [auto|lia].
  - assert (Hd : note_min m <= c / 100 < note_max m).
    { split; [apply Z.div_le_lower_bound | apply Z.div_lt_upper_bound]; lia. }
    assert (Ek : k = c / 100) by (unfold k, bracket; lia).
    rewrite Ek. split; [exact Et|]. split; [lia|]. split; [auto|].
    split; [lia|]. intro E. apply Z0. lia.
Qed.

Lemma bracket_mono (m : calibMatrix) (c1 c2 : Z) :
  note_min m < note_max m -> c1 <= c2 -> bracket m c1 <= bracket m c2.
Proof.
  intros Hlt H. unfold bracket.
  assert (c1 / 100 <= c2 / 100) by (apply Z.div_le_mono; lia). lia.
Qed.

(** Inside a pair the offset grows with the query. *)
Lemma offset_mono (m : calibMatrix) (c1 c2 : Z) :
  12 <= note_min m -> note_min m < note_max m -> note_max m <= 127 ->
  note_min m * 100 <= c1 -> c1 <= c2 -> c2 <= note_max m * 100 ->
  bracket m c1 = bracket m c2 ->
  offset20 c1 (bracket m c1) <= offset20 c2 (bracket m c2).
Proof.
  intros Hmin Hlt Hmax H1 H12 H2 Hk.
  destruct (offset_in_table m c1 Hmin Hlt Hmax ltac:(lia))
    as (_ & R1 & I1 & _ & _).
  destruct (offset_in_table m c2 Hmin Hlt Hmax ltac:(lia))
    as (_ & R2 & I2 & T2 & _).
  destruct (Z.eq_dec c1 c2) as [->|Hne]; [lia|].
  destruct (Z.eq_dec c2 (note_max m * 100)) as [Etop|Ntop].
  - rewrite (T2 Etop). lia.
  - destruct (I1 ltac:(lia)) as [K1 B1]. destruct (I2 ltac:(lia)) as [K2 B2].
    pose proof (Z.div_mod c1 100 ltac:(lia)).
    pose proof (Z.div_mod c2 100 ltac:(lia)).
    change (2 ^ 20) with 1048576 in *. lia.
Qed.

Lemma note_to_mv_cal_value (channel cents : Z) (s : state) :
  let m := channel_matrix channel s in
  no_calibration m (stage s) = false ->
  matrix_wf m = true ->
  12 <= note_min m ->
  note_min m * 100 <= cents <= note_max m * 100 ->
  note_to_mv_cal channel cents s = Ok (norm_spec (cal_value m cents) (-20)).
Proof.
  intros m Hcal Hwf Hmin Hc.
  destruct (no_calibration_false _ _ Hcal) as (B1 & B2 & B3 & B4).
  rewrite note_to_mv_cal_bracket by (fold m; try assumption; lia).
  fold m. f_equal. unfold map_f.
  destruct (offset_in_table m cents Hmin B4 B2 Hc) as (-> & R & _).
  apply interpolate_value; try assumption; try apply entry_range, Hwf.
  unfold bracket. lia.
Qed.

(** The value lies between the two entries of the pair. *)
Lemma cal_value_between (m : calibMatrix) (c : Z) :
  matrix_wf m = true ->
  12 <= note_min m -> note_min m < note_max m -> note_max m <= 127 ->
  note_min m * 100 <= c <= note_max m * 100 ->
  let k := bracket m c in
  Z.min (entry m k) (entry m (k + 1)) * 2 ^ 20 <= cal_value m c
  <= Z.max (entry m k) (entry m (k + 1)) * 2 ^ 20.
Proof.
  intros Hwf Hmin Hlt Hmax Hc k. unfold cal_value. fold k.
  destruct (offset_in_table m c Hmin Hlt Hmax Hc) as (_ & R & _). fold k in R.
  pose proof (entry_range m k Hwf) as Rl.
  pose proof (entry_range m (k + 1) Hwf) as Rh.
  set (lo := entry m k) in *. set (hi := entry m (k + 1)) in *.
  set (j := offset20 c k) in *.
  assert (E : RN ((hi - lo) * 2 ^ 20) = (hi - lo) * 2 ^ 20)
    by (apply RN_exact; [change (2 ^ 24) with 16777216|]; lia).
  change (2 ^ 20) with 1048576 in *.
  destruct (Z.le_gt_cases lo hi) as [Hd|Hd].
  - pose proof (RN_mono 0 (j * (hi - lo)) ltac:(nia)) as M0.
    pose proof (RN_mono (j * (hi - lo)) ((hi - lo) * 1048576) ltac:(nia)) as M1.
    change (RN 0) with 0 in M0. lia.
  - pose proof (RN_mono (j * (hi - lo)) 0 ltac:(nia)) as M0.
    pose proof (RN_mono ((hi - lo) * 1048576) (j * (hi - lo)) ltac:(nia)) as M1.
    change (RN 0) with 0 in M0. lia.
Qed.

Lemma table_sorted_spec (m : calibMatrix) :
  table_sorted m = true ->
  forall a b, note_min m <= a -> a <= b -> b <= note_max m ->
              entry m a <= entry m b.
Proof.
  intros H a b Ha Hab Hb. unfold table_sorted in H.
  pose proof (all_from_spec _ _ _ H) as Hs. cbv beta in Hs.
  replace b with (a + Z.of_nat (Z.to_nat (b - a))) by lia.
  assert (Hn : a + Z.of_nat (Z.to_nat (b - a)) <= note_max m) by lia.
  induction (Z.to_nat (b - a)) as [|n IH].
  - rewrite Z.add_0_r. lia.
  - specialize (IH ltac:(lia)).
    specialize (Hs (a + Z.of_nat n) ltac:(lia)). apply Z.leb_le in Hs.
    replace (a + Z.of_nat (S n)) with (a + Z.of_nat n + 1) by lia. lia.
Qed.

(** Over the notes of a sorted table the value returned does not decrease. *)
Lemma cal_value_mono (m : calibMatrix) (c1 c2 : Z) :
  matrix_wf m = true -> table_sorted m = true ->
  12 <= note_min m -> note_min m < note_max m -> note_max m <= 127 ->
  note_min m * 100 <= c1 -> c1 <= c2 -> c2 <= note_max m * 100 ->
  0 <= cal_value m c1 <= cal_value m c2.
Proof.
  intros Hwf Hs Hmin Hlt Hmax H1 H12 H2.
  pose proof (table_sorted_spec m Hs) as Sorted.
  pose proof (cal_value_between m c1 Hwf Hmin Hlt Hmax ltac:(lia)) as V1.
  pose proof (cal_value_between m c2 Hwf Hmin Hlt Hmax ltac:(lia)) as V2.
  pose proof (bracket_mono m c1 c2 Hlt H12) as Hk.
  cbv zeta in V1, V2.
  assert (K1 : note_min m <= bracket m c1 <= note_max m - 1)
    by (unfold bracket; lia).
  assert (K2 : note_min m <= bracket m c2 <= note_max m - 1)
    by (unfold bracket; lia).
  pose proof (Sorted (bracket m c1) (bracket m c1 + 1) ltac:(lia) ltac:(lia)
                ltac:(lia)) as S1.
  pose proof (Sorted (bracket m c2) (bracket m c2 + 1) ltac:(lia) ltac:(lia)
                ltac:(lia)) as S2.
  pose proof (entry_range m (bracket m c1) Hwf) as R1.
  rewrite Z.min_l in V1, V2 by assumption.
  rewrite Z.max_r in V1, V2 by assumption.
  change (2 ^ 20) with 1048576 in *.
  split; [lia|].
  destruct (Z.eq_dec (bracket m c1) (bracket m c2)) as [E|E].
  - pose proof (offset_mono m c1 c2 Hmin Hlt Hmax H1 H12 H2 E) as Ho.
    unfold cal_value. rewrite <- E in *.
    destruct (offset_in_table m c1 Hmin Hlt Hmax ltac:(lia)) as (_ & O1 & _).
    apply Z.add_le_mono_r. apply RN_mono. nia.
  - pose proof (Sorted (bracket m c1 + 1) (bracket m c2) ltac:(lia) ltac:(lia)
                  ltac:(lia)).
    lia.
Qed.

(* ================================================================= *)
(** ** [note_to_mv_cal] on an uncalibrated channel *)

Lemma to_Q_at (p : Z) (x : F32.float) :
  is_at p x = true -> (F32.to_Q x == val (mant_at p x) (- p))%Q.
Proof.
  intro H. destruct (is_at_spec p x H) as [E _].
  destruct x as [[|]|s| |[|] m e]; cbn [is_at] in H; try discriminate.
  - cbn. unfold val. ring.
  - apply andb_true_iff in H. destruct H as [H Hd].
    cbn [F32.to_Q mant_at]. fold (val (Zpos m) e).
    destruct (Z.leb_spec 0 (e + p)) as [Hp|Hp].
    + rewrite <- (val_scale (Zpos m) e (e + p)) by lia.
      replace (e - (e + p)) with (- p) by lia. reflexivity.
    + cbn [orb] in Hd. apply Z.eqb_eq in Hd.
      pose proof (pow2_pos (- (e + p)) ltac:(lia)) as Hpow.
      pose proof (Z.div_mod (Zpos m) (2 ^ (- (e + p))) ltac:(lia)) as Hdm.
      rewrite Hd, Z.add_0_r in Hdm.
      rewrite <- (val_scale (Zpos m / 2 ^ (- (e + p))) (- p) (- (e + p)))
        by lia.
      replace (- p - - (e + p)) with e by lia.
      rewrite Z.mul_comm, <- Hdm. reflexivity.
Qed.

Lemma note_to_mv_ok_all : all_from note_to_mv_ok 1200 (Z.to_nat 11501) = true.
Proof. vm_cast_no_check (eq_refl true). Qed.

Lemma note_to_mv_facts (c : Z) :
  1200 <= c <= 12700 ->
  note_to_mv c = norm_spec (mant_at 24 (note_to_mv c)) (-24) /\
  0 <= mant_at 24 (note_to_mv c) /\
  Z.abs (6 * mant_at 24 (note_to_mv c) - 5 * (c - 1200) * 2 ^ 24) <= 6 * 2 ^ 14 /\
  (F32.to_Q (note_to_mv c) == val (mant_at 24 (note_to_mv c)) (-24))%Q.
Proof.
  intro Hc.
  pose proof (all_from_spec _ _ _ note_to_mv_ok_all c) as H.
  rewrite Z2Nat.id in H by lia. specialize (H ltac:(lia)).
  unfold note_to_mv_ok in H. cbv zeta in H.
  apply andb_true_iff in H. destruct H as [H1 H2]. apply Z.leb_le in H2.
  destruct (is_at_spec _ _ H1) as [E P].
  pose proof (to_Q_at _ _ H1) as Q1.
  repeat split; assumption.
Qed.

(** The source's early exit and 8- and 16-bit temporaries do not show: on
    the accepted queries [note_to_mv] is the formula. *)
Lemma note_to_mv_direct (c : Z) :
  1200 <= c <= 12700 -> note_to_mv c = direct_formula c.
Proof.
  intro Hc. unfold note_to_mv, direct_formula.
  destruct (Z.leb_spec c 1200) as [H|H].
  - replace c with 1200 by lia. reflexivity.
  - assert (Ho : 1 <= c / 1200 < 11).
    { split; [apply Z.div_le_lower_bound | apply Z.div_lt_upper_bound]; lia. }
    cbv zeta. rewrite wrap8_small, wrap16_small by lia. reflexivity.
Qed.

Lemma note_to_mv_cal_uncalibrated (channel c : Z) (s : state) :
  no_calibration (channel_matrix channel s) (stage s) = true ->
  1200 <= c <= 12700 ->
  note_to_mv_cal channel c s = Ok (note_to_mv c).
Proof.
  intros Hcal Hc. unfold note_to_mv_cal.
  replace ((c <? 1200) || (12700 <? c)) with false
    by (symmetry; apply orb_false_iff; split; apply Z.ltb_ge; lia).
  rewrite Hcal. reflexivity.
Qed.

Lemma val_24 (g : Z) : (val g (-24) == g # 16777216)%Q.
Proof.
  unfold val. change ((2 # 1) ^ (-24))%Q with (1 # 16777216)%Q.
  unfold Qeq, Qmult, inject_Z. cbn [Qnum Qden]. lia.
Qed.

(** C5. On a channel without a valid stored calibration [note_to_mv_cal]
    returns 0 mV for a query outside [1200, 12700]; inside it returns the
    direct formula [1000 * (octave - 1 + fractional_note)] with
    [octave = cents / 1200] and [fractional_note = (cents mod 1200) / 1200],
    evaluated in binary32 (within [2^-10] mV of its exact value), which is
    0 mV at 1200 cents and does not decrease as the query grows. *)
Theorem C5_uncalibrated_direct_formula (channel : Z) (s : state) :
  no_calibration (channel_matrix channel s) (stage s) = true ->
  (forall c, c < 1200 \/ 12700 < c ->
             note_to_mv_cal channel c s = Ok F32.zero) /\
  (forall c, 1200 <= c <= 12700 ->
             note_to_mv_cal channel c s = Ok (direct_formula c) /\
             F32.is_finite (direct_formula c) = true /\
             (Qabs (F32.to_Q (direct_formula c) - exact_mv c) <= 1 # 1024)%Q) /\
  note_to_mv_cal channel 1200 s = Ok F32.zero /\
  (forall c1 c2, 1200 <= c1 -> c1 <= c2 -> c2 <= 12700 ->
     exists r1 r2,
       note_to_mv_cal channel c1 s = Ok r1 /\
       note_to_mv_cal channel c2 s = Ok r2 /\
       F32.leb r1 r2 = true).
Proof.
  intro Hcal. split; [|split; [|split]].
  - intros c Hc. unfold note_to_mv_cal.
    replace ((c <? 1200) || (12700 <? c)) with true; [reflexivity|].
    symmetry. apply orb_true_iff.
    destruct Hc; [left|right]; apply Z.ltb_lt; lia.
  - intros c Hc. rewrite note_to_mv_cal_uncalibrated by assumption.
    rewrite <- note_to_mv_direct by assumption.
    destruct (note_to_mv_facts c Hc) as (E & P & B & Q1).
    split; [reflexivity|]. split.
    + rewrite E. apply is_finite_norm_spec.
    + rewrite Q1, val_24. apply Qabs_Qle_condition.
      change (2 ^ 24) with 16777216 in B. change (2 ^ 14) with 16384 in B.
      unfold exact_mv, Qle, Qminus, Qplus, Qopp. cbn [Qnum Qden].
      split; lia.
  - apply note_to_mv_cal_uncalibrated; [assumption|lia].
  - intros c1 c2 H1 H12 H2. exists (note_to_mv c1), (note_to_mv c2).
    rewrite !note_to_mv_cal_uncalibrated by (try assumption; lia).
    split; [reflexivity|]. split; [reflexivity|].
    destruct (note_to_mv_facts c1 ltac:(lia)) as (E1 & P1 & B1 & _).
    destruct (note_to_mv_facts c2 ltac:(lia)) as (E2 & P2 & B2 & _).
    rewrite E1, E2. apply leb_norm_spec.
    change (2 ^ 24) with 16777216 in *. change (2 ^ 14) with 16384 in *.
    split; [assumption|].
    destruct (Z.eq_dec c1 c2) as [->|Hne]; lia.
Qed.

Lemma C5_uncalibrated_witness :
  no_calibration (channel_matrix 0 boot_state) (stage boot_state) = true /\
  note_to_mv_cal 0 6000 boot_state = Ok (direct_formula 6000) /\
  note_to_mv_cal 0 1200 boot_state = Ok F32.zero.
Proof.
  assert (H : no_calibration (channel_matrix 0 boot_state) (stage boot_state)
              = true) by reflexivity.
  destruct (C5_uncalibrated_direct_formula 0 boot_state H)
    as (_ & Hin & H1200 & _).
  split; [exact H|]. split; [|exact H1200].
  exact (proj1 (Hin 6000 ltac:(lia))).
Defined.

(* ================================================================= *)
(** ** [note_to_mv_cal] on a calibrated channel *)

Lemma of_Z_at_20 (v : Z) :
  0 <= v < 65536 -> F32.of_Z v = norm_spec (v * 2 ^ 20) (-20).
Proof.
  intro H. rewrite of_Z_spec
    by (apply Z.lt_trans with 65536; [lia|reflexivity]).
  apply norm_spec_val. symmetry. apply (val_scale v 0 20). lia.
Qed.

(** At a whole note of the table the value is the entry of that note. *)
Lemma cal_value_whole_note (m : calibMatrix) (n : Z) :
  matrix_wf m = true ->
  12 <= note_min m -> note_min m < note_max m -> note_max m <= 127 ->
  note_min m <= n <= note_max m ->
  cal_value m (n * 100) = entry m n * 2 ^ 20.
Proof.
  intros Hwf Hmin Hlt Hmax Hn. unfold cal_value.
  destruct (offset_in_table m (n * 100) Hmin Hlt Hmax ltac:(lia))
    as (_ & _ & _ & Top & Bot).
  assert (Hd : n * 100 / 100 = n) by (apply Z.div_mul; lia).
  destruct (Z.eq_dec n (note_max m)) as [E|E].
  - assert (Ek : bracket m (n * 100) = n - 1) by (unfold bracket; lia).
    rewrite Top by lia. rewrite Ek.
    replace (n - 1 + 1) with n by lia.
    pose proof (entry_range m n Hwf). pose proof (entry_range m (n - 1) Hwf).
    rewrite Z.mul_comm, RN_exact
      by (try change (2 ^ 24) with 16777216; lia).
    ring.
  - assert (Ek : bracket m (n * 100) = n) by (unfold bracket; lia).
    rewrite Bot by lia. rewrite Ek. cbn [Z.mul RN]. lia.
Qed.

(** C6 (amended). On a channel with a valid stored calibration whose table
    starts at note 12 or above: when the stored entries of the notes from
    [note_min] to [note_max] do not decrease, [c1 <= c2] within
    [[note_min * 100, note_max * 100]] gives
    [note_to_mv_cal channel c1 <= note_to_mv_cal channel c2]; and, sorted
    table or not, at every whole note [n] with [note_min <= n <= note_max]
    the result is the stored value [matrix[n - 12]] exactly. *)
Theorem C6_sorted_table_monotone (channel : Z) (s : state) :
  let m := channel_matrix channel s in
  no_calibration m (stage s) = false ->
  matrix_wf m = true ->
  12 <= note_min m ->
  (table_sorted m = true ->
   forall c1 c2,
     note_min m * 100 <= c1 -> c1 <= c2 -> c2 <= note_max m * 100 ->
     exists r1 r2,
       note_to_mv_cal channel c1 s = Ok r1 /\
       note_to_mv_cal channel c2 s = Ok r2 /\
       F32.is_finite r1 = true /\ F32.is_finite r2 = true /\
       F32.leb r1 r2 = true) /\
  (forall n, note_min m <= n <= note_max m ->
             note_to_mv_cal channel (n * 100) s = Ok (F32.of_Z (entry m n))).
Proof.
  intros m Hcal Hwf Hmin.
  destruct (no_calibration_false _ _ Hcal) as (B1 & B2 & B3 & B4).
  split.
  - intros Hs c1 c2 H1 H12 H2.
    exists (norm_spec (cal_value m c1) (-20)),
           (norm_spec (cal_value m c2) (-20)).
    split; [apply note_to_mv_cal_value; fold m; try assumption; lia|].
    split; [apply note_to_mv_cal_value; fold m; try assumption; lia|].
    split; [apply is_finite_norm_spec|]. split; [apply is_finite_norm_spec|].
    apply leb_norm_spec, cal_value_mono; assumption.
  - intros n Hn.
    rewrite note_to_mv_cal_value by (fold m; try assumption; lia).
    fold m. rewrite cal_value_whole_note by assumption.
    rewrite <- of_Z_at_20 by (apply entry_range, Hwf). reflexivity.
Qed.

Lemma C6_sorted_table_witness :
  exists r1 r2,
    note_to_mv_cal 0 6040 (loaded semitone_table) = Ok r1 /\
    note_to_mv_cal 0 6150 (loaded semitone_table) = Ok r2 /\
    F32.leb r1 r2 = true.
Proof.
  destruct (C6_sorted_table_monotone 0 (loaded semitone_table)
              ltac:(reflexivity) ltac:(reflexivity) ltac:(cbn; lia))
    as [Hmono _].
  destruct (Hmono ltac:(reflexivity) 6040 6150
              ltac:(cbn; lia) ltac:(lia) ltac:(cbn; lia))
    as (r1 & r2 & E1 & E2 & _ & _ & Hle).
  exists r1, r2. auto.
Defined.

(** The table of [dented_table] is a valid stored calibration, and the
    result drops from 3984 mV at 6000 cents to 0 mV at 6100 cents. *)
Lemma C6_counterexample :
  let s := loaded dented_table in
  no_calibration (channel_matrix 0 s) (stage s) = false /\
  matrix_wf (channel_matrix 0 s) = true /\
  note_min (channel_matrix 0 s) * 100 <= 6000 /\ 6000 <= 6100 /\
  6100 <= note_max (channel_matrix 0 s) * 100 /\
  note_to_mv_cal 0 6000 s = Ok (F32.of_Z 3984) /\
  note_to_mv_cal 0 6100 s = Ok (F32.of_Z 0) /\
  F32.leb (F32.of_Z 3984) (F32.of_Z 0) = false.
Proof. vm_compute. repeat split; discriminate. Qed.

Lemma bracket_range (m : calibMatrix) (c : Z) :
  note_min m < note_max m -> note_min m <= bracket m c < note_max m.
Proof. intro H. unfold bracket. lia. Qed.

(** C3 (amended). On a channel with a valid stored calibration whose table
    starts at note 12 or above, for a query in [1200, 12700]:
    [note_to_mv_cal] clamps the pair of whole notes it interpolates between,
    not the query.  The pair is [(k, k + 1)] with [k] the note [cents / 100]
    clamped into [[note_min, note_max - 1]], and the result is [map_f] of the
    unclamped note [cents / 100] over that pair and its two stored values.
    For [note_min * 100 <= cents <= note_max * 100] the result lies between
    the two stored values of the pair, [matrix[k - 12]] and
    [matrix[k + 1 - 12]]. *)
Theorem C3_pair_clamped_query_not (channel cents : Z) (s : state) :
  let m := channel_matrix channel s in
  no_calibration m (stage s) = false ->
  matrix_wf m = true ->
  12 <= note_min m ->
  1200 <= cents <= 12700 ->
  let k := bracket m cents in
  note_min m <= k < note_max m /\
  exists r,
    note_to_mv_cal channel cents s = Ok r /\
    r = map_f (note_of cents) (F32.of_Z k) (F32.of_Z (k + 1))
              (F32.of_Z (entry m k)) (F32.of_Z (entry m (k + 1))) /\
    (note_min m * 100 <= cents <= note_max m * 100 ->
     F32.is_finite r = true /\
     F32.leb (F32.of_Z (Z.min (entry m k) (entry m (k + 1)))) r = true /\
     F32.leb r (F32.of_Z (Z.max (entry m k) (entry m (k + 1)))) = true).
Proof.
  intros m Hcal Hwf Hmin Hc k.
  destruct (no_calibration_false _ _ Hcal) as (B1 & B2 & B3 & B4).
  split; [apply bracket_range, B4|].
  eexists. split; [apply note_to_mv_cal_bracket; assumption|].
  fold m. fold k. split; [reflexivity|].
  intro Hin.
  pose proof (note_to_mv_cal_bracket channel cents s Hcal Hmin Hc) as E1.
  pose proof (note_to_mv_cal_value channel cents s Hcal Hwf Hmin Hin) as E2.
  rewrite E2 in E1. injection E1 as E1. fold m in E1. fold k in E1.
  rewrite <- E1.
  pose proof (cal_value_between m cents Hwf Hmin B4 B2 Hin) as Hb.
  cbv zeta in Hb. fold k in Hb.
  pose proof (entry_range m k Hwf). pose proof (entry_range m (k + 1) Hwf).
  split; [apply is_finite_norm_spec|].
  rewrite !of_Z_at_20 by lia.
  split; apply leb_norm_spec; change (2 ^ 20) with 1048576 in *; lia.
Qed.

Lemma C3_pair_clamped_witness :
  exists r,
    note_to_mv_cal 0 6050 (loaded dented_table) = Ok r /\
    F32.leb (F32.of_Z 0) r = true /\ F32.leb r (F32.of_Z 3984) = true.
Proof.
  destruct (C3_pair_clamped_query_not 0 6050 (loaded dented_table)
              ltac:(reflexivity) ltac:(reflexivity) ltac:(cbn; lia)
              ltac:(lia))
    as (_ & r & E & _ & Hin).
  destruct (Hin ltac:(cbn; lia)) as (_ & Hlo & Hhi).
  exists r. split; [exact E|]. split; [exact Hlo|exact Hhi].
Defined.

(** Two valid stored calibrations with [note_min = 48], [note_max = 72].
    On the sorted [semitone_table] (2988 mV at note 48, 4980 mV at note 72)
    the query 12700 gives 9545 mV, the last pair extrapolated; on
    [peaked_table] the query 6000, inside the table, gives 9000 mV, above
    the values stored for [note_min] and for [note_max]. *)
Lemma C3_counterexample :
  (let s := loaded semitone_table in
   let m := channel_matrix 0 s in
   no_calibration m (stage s) = false /\
   entry m (note_min m) = 2988 /\ entry m (note_max m) = 4980 /\
   note_to_mv_cal 0 12700 s = Ok (F32.of_Z 9545) /\
   F32.leb (F32.of_Z 9545) (F32.of_Z 4980) = false) /\
  (let s := loaded peaked_table in
   let m := channel_matrix 0 s in
   no_calibration m (stage s) = false /\
   entry m (note_min m) = 2988 /\ entry m (note_max m) = 4980 /\
   note_to_mv_cal 0 6000 s = Ok (F32.of_Z 9000) /\
   F32.leb (F32.of_Z 9000) (F32.of_Z 4980) = false).
Proof. vm_compute. repeat split. Qed.

(** C1 (amended). For channel 1 with no stored calibration
    [note_to_mv_cal 1 6000] is 4000.0 mV.  After a calibration storing
    [note_min = 48] and [note_max = 72] it is the stored value of note 60
    itself, [matrix[60 - 12] = matrix[48]], exactly: 2500.0 mV when
    [matrix[48] = 2500].  The interpolation is between the entries of two
    adjacent whole notes, not between those of [note_min] and [note_max]. *)
Theorem C1_note_60 (s : state) :
  (no_calibration (calib_matrix_2 s) (stage s) = true ->
   note_to_mv_cal 1 6000 s = Ok (F32.of_Z 4000)) /\
  (no_calibration (calib_matrix_2 s) (stage s) = false ->
   matrix_wf (calib_matrix_2 s) = true ->
   note_min (calib_matrix_2 s) = 48 -> note_max (calib_matrix_2 s) = 72 ->
   note_to_mv_cal 1 6000 s
   = Ok (F32.of_Z (nth 48 (matrix (calib_matrix_2 s)) 0)) /\
   (nth 48 (matrix (calib_matrix_2 s)) 0 = 2500 ->
    note_to_mv_cal 1 6000 s = Ok (F32.of_Z 2500))).
Proof.
  split.
  - intro Hcal. rewrite note_to_mv_cal_uncalibrated by (try assumption; lia).
    reflexivity.
  - intros Hcal Hwf Hlo Hhi.
    assert (E : note_to_mv_cal 1 6000 s
                = Ok (F32.of_Z (nth 48 (matrix (calib_matrix_2 s)) 0))).
    { change 6000 with (60 * 100).
      pose proof (C := cal_value_whole_note (calib_matrix_2 s) 60 Hwf
                         ltac:(lia) ltac:(lia) ltac:(lia) ltac:(lia)).
      pose proof (V := note_to_mv_cal_value 1 (60 * 100) s Hcal Hwf).
      cbv zeta in V. change (channel_matrix 1 s) with (calib_matrix_2 s) in V.
      rewrite V by lia. rewrite C.
      rewrite <- of_Z_at_20 by (apply entry_range, Hwf). reflexivity. }
    split; [exact E|]. intro H48. rewrite E, H48. reflexivity.
Qed.

Lemma C1_note_60_witness :
  note_to_mv_cal 1 6000 boot_state = Ok (F32.of_Z 4000) /\
  note_to_mv_cal 1 6000 (loaded two_point_table) = Ok (F32.of_Z 2500).
Proof.
  split.
  - exact (proj1 (C1_note_60 boot_state) ltac:(reflexivity)).
  - destruct (proj2 (C1_note_60 (loaded two_point_table))
                ltac:(reflexivity) ltac:(reflexivity) ltac:(reflexivity)
                ltac:(reflexivity)) as [_ H].
    exact (H ltac:(reflexivity)).
Defined.

(** With 2500 at index 48 and 5500 at index 72 and [note_min = 48],
    [note_max = 72], the query 6000 gives 2500.0 mV; with the two values at
    the entries of the notes 48 and 72 (indices 36 and 60) it gives 0.0 mV,
    the unused entry of note 60.  Neither is 3750.0 mV. *)
Lemma C1_counterexample :
  no_calibration two_point_table (stage (loaded two_point_table)) = false /\
  nth 48 (matrix two_point_table) 0 = 2500 /\
  nth 72 (matrix two_point_table) 0 = 5500 /\
  note_to_mv_cal 1 6000 (loaded two_point_table) = Ok (F32.of_Z 2500) /\
  note_to_mv_cal 1 6000 (loaded two_point_table) <> Ok (F32.of_Z 3750) /\
  entry two_note_table 48 = 2500 /\ entry two_note_table 72 = 5500 /\
  note_to_mv_cal 1 6000 (loaded two_note_table) = Ok F32.zero /\
  note_to_mv_cal 1 6000 (loaded two_note_table) <> Ok (F32.of_Z 3750).
Proof. vm_compute. repeat split; discriminate. Qed.
